(** * CountMeOut: problem generator, answer validator, practice session,
      local store and achievement engine

    A shallow embedding of the TypeScript sources

      - [lib/mathEngine]        (class [MathEngine])
      - [hooks/usePracticeSession]
      - [lib/db]                ([CountMeOutDB], [defaultAchievements], [initializeDB])
      - [lib/achievementEngine] (class [AchievementEngine])
      - [hooks/useSettings]     ([defaultSettings], [clearAllData])
      - [hooks/useProgress]     ([calculateOperationStats])

    followed by the properties established for them. *)

From Stdlib Require Import ZArith QArith Qround Qreduction Qabs Qpower Lqa.
From Stdlib Require Import Bool List String Sorted Lia.
Import ListNotations.
Local Open Scope Z_scope.

(* ================================================================== *)
(** ** JavaScript numbers *)
(* ================================================================== *)

(** A JavaScript [number] is a binary64 value: a finite value, one of the
    two infinities, or NaN.  A finite value is kept as the rational it
    stands for, in lowest terms, so that equal values are equal terms.  The
    sign of zero is not represented. *)
Inductive number : Type :=
| Fin (q : Q)
| PosInf
| NegInf
| NaN.

Definition ofZ (z : Z) : number := Fin (inject_Z z).

(** *** Rounding to binary64 *)

(** The binary exponent of a positive rational [x]: the integer [e] with
    [2^e <= x < 2^(e+1)]. *)
Definition exponent (x : Q) : Z :=
  let e := Z.log2 (Qnum x) - Z.log2 (Z.pos (Qden x)) in
  if Qle_bool (2 ^ e) x then e else e - 1.

(** The integer nearest to [m], a tie going to the even one. *)
Definition nearest_even (m : Q) : Z :=
  let f := Qfloor m in
  match (m - inject_Z f ?= 1 # 2)%Q with
  | Lt => f
  | Gt => f + 1
  | Eq => if Z.even f then f else f + 1
  end.

(** The binary64 value nearest to a positive rational [x], a tie going to
    the value with an even significand.  Values have 53 significant bits
    and an exponent from -1022 on, below which the spacing stays [2^-1074];
    what rounds to [2^1024] or more is infinite. *)
Definition round_positive (x : Q) : number :=
  let e := Z.max (exponent x) (-1022) in
  let ulp := (2 ^ (e - 52))%Q in
  let y := (inject_Z (nearest_even (x / ulp)) * ulp)%Q in
  if Qle_bool (2 ^ 1024) y then PosInf else Fin (Qred y).

(** The binary64 value nearest to a rational: what an arithmetic
    operation returns for the exact result [x]. *)
Definition round64 (x : Q) : number :=
  match (x ?= 0)%Q with
  | Eq => Fin 0
  | Gt => round_positive x
  | Lt => match round_positive (- x) with
          | Fin q => Fin (Qred (- q))
          | _ => NegInf
          end
  end.

Module Num.

Definition neg (a : number) : number :=
  match a with
  | Fin q => Fin (Qred (- q))
  | PosInf => NegInf
  | NegInf => PosInf
  | NaN => NaN
  end.

(** [a + b] *)
Definition add (a b : number) : number :=
  match a, b with
  | NaN, _ | _, NaN => NaN
  | Fin x, Fin y => round64 (x + y)
  | PosInf, NegInf | NegInf, PosInf => NaN
  | PosInf, _ | _, PosInf => PosInf
  | NegInf, _ | _, NegInf => NegInf
  end.

(** [a - b] *)
Definition sub (a b : number) : number := add a (neg b).

(** Sign of a non-NaN value, as its comparison with zero: [Gt] positive,
    [Lt] negative, [Eq] zero. *)
Definition sign (a : number) : comparison :=
  match a with
  | Fin q => (q ?= 0)%Q
  | PosInf => Gt
  | NegInf => Lt
  | NaN => Eq
  end.

(** [a * b] *)
Definition mul (a b : number) : number :=
  match a, b with
  | NaN, _ | _, NaN => NaN
  | Fin x, Fin y => round64 (x * y)
  | _, _ =>
      match sign a, sign b with
      | Eq, _ | _, Eq => NaN
      | Lt, Lt | Gt, Gt => PosInf
      | _, _ => NegInf
      end
  end.

(** [a / b] *)
Definition div (a b : number) : number :=
  match a, b with
  | NaN, _ | _, NaN => NaN
  | Fin x, Fin y =>
      if Qeq_bool y 0 then
        match sign a with
        | Eq => NaN
        | Gt => PosInf
        | Lt => NegInf
        end
      else round64 (x / y)
  | Fin _, _ => Fin 0
  | _, Fin _ =>
      match sign a, sign b with
      | Lt, Gt | Gt, Lt | Lt, Eq => NegInf
      | _, _ => PosInf
      end
  | _, _ => NaN
  end.

(** [Math.floor(a)] *)
Definition floor (a : number) : number :=
  match a with
  | Fin q => ofZ (Qfloor q)
  | _ => a
  end.

(** [Math.round(a)]: the nearest integer, halves going up. *)
Definition round (a : number) : number :=
  match a with
  | Fin q => ofZ (Qfloor (q + (1 # 2)))
  | _ => a
  end.

(** [Math.abs(a)] *)
Definition abs (a : number) : number :=
  match a with
  | Fin q => Fin (Qabs q)
  | PosInf | NegInf => PosInf
  | NaN => NaN
  end.

(** [a <= b] *)
Definition leb (a b : number) : bool :=
  match a, b with
  | NaN, _ | _, NaN => false
  | Fin x, Fin y => Qle_bool x y
  | NegInf, _ | _, PosInf => true
  | _, _ => false
  end.

(** [a < b] *)
Definition ltb (a b : number) : bool :=
  match a, b with
  | NaN, _ | _, NaN => false
  | Fin x, Fin y => negb (Qle_bool y x)
  | PosInf, _ | _, NegInf => false
  | _, _ => true
  end.

(** [a > b] *)
Definition gtb (a b : number) : bool := ltb b a.

(** [Math.max(a, b)] *)
Definition max (a b : number) : number :=
  match a, b with
  | NaN, _ | _, NaN => NaN
  | _, _ => if leb a b then b else a
  end.

End Num.

(** The product and the quotient of two numbers taken exactly, without
    the rounding of [Num.mul] and [Num.div]. *)
Module Exact.

Definition mul (a b : number) : number :=
  match a, b with
  | Fin x, Fin y => Fin (Qred (x * y))
  | _, _ => Num.mul a b
  end.

Definition div (a b : number) : number :=
  match a, b with
  | Fin x, Fin y => if Qeq_bool y 0 then Num.div a b else Fin (Qred (x / y))
  | _, _ => Num.div a b
  end.

End Exact.

(** An integer that every binary64 computation below keeps exact:
    [Number.isSafeInteger]. *)
Definition safe (z : Z) : Prop := - 2 ^ 53 < z < 2 ^ 53.

(** A rational in lowest terms. *)
Definition reduced (q : Q) : Prop := Qred q = q.

(** A rational that is a binary64 value: rounding leaves it as it is. *)
Definition representable (q : Q) : Prop := round64 q = Fin (Qred q).


(* ================================================================== *)
(** ** Thrown errors and the random source *)
(* ================================================================== *)

(** A call either returns a value or throws an [Error] with a message. *)
Inductive outcome (A : Type) : Type :=
| Return (a : A)
| Throw (message : string).
Arguments Return {A} a.
Arguments Throw {A} message.

(** The process-wide random source: the values the successive calls of
    [Math.random()] will return. *)
Definition rng : Type := nat -> Q.

(** A computation that draws from the random source and may throw. *)
Definition Gen (A : Type) : Type := rng -> outcome (A * rng).

Definition ret {A} (a : A) : Gen A := fun s => Return (a, s).

Definition bind {A B} (m : Gen A) (k : A -> Gen B) : Gen B :=
  fun s =>
    match m s with
    | Return (a, s') => k a s'
    | Throw msg => Throw msg
    end.

Definition throw {A} (msg : string) : Gen A := fun _ => Throw msg.

Declare Scope gen_scope.
Delimit Scope gen_scope with gen.
Notation "x <- m ;; k" := (bind m (fun x => k))
  (at level 61, m at next level, right associativity) : gen_scope.
Local Open Scope gen_scope.

(** [Math.random()] *)
Definition Math_random : Gen number :=
  fun s => Return (Fin (s 0%nat), fun n => s (S n)).

(** Reading [list[i]] for an integer [i]: [None] stands for [undefined]. *)
Definition array_at {A} (l : list A) (i : Z) : option A :=
  if i <? 0 then None else nth_error l (Z.to_nat i).

(** Reading [list[i]] for a number [i]. *)
Definition array_get {A} (l : list A) (i : number) : option A :=
  match i with
  | Fin q =>
      if Qeq_bool q (inject_Z (Qfloor q)) then array_at l (Qfloor q) else None
  | _ => None
  end.

(* ================================================================== *)
(** ** mathEngine: data *)
(* ================================================================== *)

(** [{ min, max }] *)
Module Range.
Record t : Type := mk { min : number; max : number }.
End Range.

(** [ProblemConfig].  [operation] and [difficulty] are the strings found at
    run time; an optional flag that is absent reads as [false]. *)
Module ProblemConfig.
Record t : Type := mk {
  operation : string;
  difficulty : string;
  includeDecimals : bool;
  includeNegatives : bool;
  multiStep : bool;
  mixedOperations : bool;
  customRange : option Range.t
}.
End ProblemConfig.

(** An expression string, as the pieces of the template literal that builds
    it: an interpolated number or a literal piece of text, in order, with
    the separating blanks left out. *)
Inductive token : Type :=
| TNum (n : number)
| TSym (s : string).

(** [MathProblem].  The [id] string is kept as the two values it is built
    from, the clock reading and the random draw. *)
Module MathProblem.
Record t : Type := mk {
  id : Z * number;
  operation : string;
  difficulty : string;
  expression : list token;
  displayExpression : list token;
  answer : number;
  factors : option (list number);
  isMultiStep : option bool;
  timeGenerated : Z
}.
End MathProblem.

(* ================================================================== *)
(** ** mathEngine: class MathEngine *)
(* ================================================================== *)

(** [getRange(difficulty, customRange)] *)
Definition getRange (difficulty : string) (customRange : option Range.t) : Range.t :=
  match customRange with
  | Some r => r
  | None =>
      if (difficulty =? "beginner")%string then Range.mk (ofZ 1) (ofZ 10)
      else if (difficulty =? "intermediate")%string then Range.mk (ofZ 1) (ofZ 100)
      else if (difficulty =? "advanced")%string then Range.mk (ofZ 1) (ofZ 1000)
      else if (difficulty =? "expert")%string then Range.mk (ofZ 1) (ofZ 10000)
      else Range.mk (ofZ 1) (ofZ 100)
  end.

(** [randomInRange(min, max)]:
    [Math.floor(Math.random() * (max - min + 1)) + min] *)
Definition randomInRange (min max : number) : Gen number :=
  r <- Math_random ;;
  ret (Num.add (Num.floor (Num.mul r (Num.add (Num.sub max min) (ofZ 1)))) min).

(** [generateId()], at clock reading [now]. *)
Definition generateId (now : Z) : Gen (Z * number) :=
  r <- Math_random ;;
  ret (now, r).

(** [validateAnswer(userAnswer, correctAnswer, tolerance = 0.01)] *)
Definition validateAnswer (userAnswer correctAnswer tolerance : number) : bool :=
  Num.leb (Num.abs (Num.sub userAnswer correctAnswer)) tolerance.

(** The default value of [validateAnswer]'s [tolerance] parameter: the
    binary64 value that the literal [0.01] denotes. *)
Definition default_tolerance : number := round64 (1 # 100).

Section Generators.

Variable config : ProblemConfig.t.
Variable id : Z * number.
Variable timeGenerated : Z.

Let range : Range.t :=
  getRange (ProblemConfig.difficulty config) (ProblemConfig.customRange config).

Definition generateAddition : Gen MathProblem.t :=
  a <- randomInRange (Range.min range) (Range.max range) ;;
  b <- randomInRange (Range.min range) (Range.max range) ;;
  let answer := Num.add a b in
  let expression := [TNum a; TSym "+"; TNum b] in
  ret (MathProblem.mk id "addition" (ProblemConfig.difficulty config)
         expression expression answer (Some [a; b]) None timeGenerated).

Definition generateSubtraction : Gen MathProblem.t :=
  a <- randomInRange (Range.min range) (Range.max range) ;;
  b <- randomInRange (Range.min range) (Range.max range) ;;
  let '(a, b) :=
    if negb (ProblemConfig.includeNegatives config) && Num.gtb b a
    then (b, a) else (a, b) in
  let answer := Num.sub a b in
  let expression := [TNum a; TSym "-"; TNum b] in
  ret (MathProblem.mk id "subtraction" (ProblemConfig.difficulty config)
         expression expression answer (Some [a; b]) None timeGenerated).

Definition generateMultiplication : Gen MathProblem.t :=
  a <- randomInRange (Range.min range) (Range.max range) ;;
  b <- randomInRange (Range.min range) (Range.max range) ;;
  let answer := Num.mul a b in
  let expression := [TNum a; TSym "×"; TNum b] in
  ret (MathProblem.mk id "multiplication" (ProblemConfig.difficulty config)
         expression expression answer (Some [a; b]) None timeGenerated).

Definition generateDivision : Gen MathProblem.t :=
  b <- randomInRange (Num.max (ofZ 1) (Range.min range)) (Range.max range) ;;
  quotient <- randomInRange (Range.min range)
                (Num.floor (Num.div (Range.max range) b)) ;;
  let a := Num.mul b quotient in
  let answer := quotient in
  let expression := [TNum a; TSym "÷"; TNum b] in
  ret (MathProblem.mk id "division" (ProblemConfig.difficulty config)
         expression expression answer (Some [a; b]) None timeGenerated).

Definition generatePercentage : Gen MathProblem.t :=
  base <- randomInRange (ofZ 10) (Range.max range) ;;
  percentage <- randomInRange (ofZ 5) (ofZ 100) ;;
  let answer := Num.round (Num.div (Num.mul base percentage) (ofZ 100)) in
  let expression := [TNum percentage; TSym "%"; TSym "of"; TNum base] in
  ret (MathProblem.mk id "percentage" (ProblemConfig.difficulty config)
         expression expression answer (Some [base; percentage]) None
         timeGenerated).

End Generators.

(** *** evaluateExpression *)

(** The two [replace] calls: [×] becomes [*] and [÷] becomes [/]. *)
Definition jsOperator (t : token) : token :=
  match t with
  | TSym s =>
      if (s =? "×")%string then TSym "*"
      else if (s =? "÷")%string then TSym "/"
      else t
  | TNum _ => t
  end.

(** The value of [sum ± term], [sum] being the additive part read so far
    together with the sign in front of the term now being read. *)
Definition closeTerm (sum : option (number * bool)) (term : number) : number :=
  match sum with
  | None => term
  | Some (s, false) => Num.add s term
  | Some (s, true) => Num.sub s term
  end.

(** Evaluation of [* / + -] over numbers as JavaScript does it: [*] and [/]
    bind tighter than [+] and [-], and operators of one level associate to
    the left.  [None] is a text that JavaScript does not accept. *)
Fixpoint evalOperators (sum : option (number * bool)) (term : number)
    (ts : list token) : option number :=
  match ts with
  | [] => Some (closeTerm sum term)
  | TSym op :: TNum n :: rest =>
      if (op =? "*")%string then evalOperators sum (Num.mul term n) rest
      else if (op =? "/")%string then evalOperators sum (Num.div term n) rest
      else if (op =? "+")%string then
        evalOperators (Some (closeTerm sum term, false)) n rest
      else if (op =? "-")%string then
        evalOperators (Some (closeTerm sum term, true)) n rest
      else None
  | _ => None
  end.

(** [evaluateExpression(expression)]: the value of the expression, or [0]
    when evaluating it throws. *)
Definition evaluateExpression (expression : list token) : number :=
  match map jsOperator expression with
  | TNum n :: rest =>
      match evalOperators None n rest with
      | Some v => v
      | None => ofZ 0
      end
  | _ => ofZ 0
  end.

(** *** generateMultiStepProblem *)

(** A template literal prints an [undefined] operator as that word. *)
Definition opToken (op : option string) : token :=
  match op with
  | Some s => TSym s
  | None => TSym "undefined"
  end.

Definition generateMultiStepProblem (config : ProblemConfig.t)
    (id : Z * number) (timeGenerated : Z) : Gen MathProblem.t :=
  let operations := ["+"; "-"; "×"]%string in
  let range :=
    getRange (ProblemConfig.difficulty config) (ProblemConfig.customRange config) in
  n0 <- randomInRange (Range.min range) (Range.max range) ;;
  n1 <- randomInRange (Range.min range) (Range.max range) ;;
  n2 <- randomInRange (Range.min range) (Range.max range) ;;
  let numbers := [n0; n1; n2] in
  r0 <- Math_random ;;
  r1 <- Math_random ;;
  let ops :=
    (array_get operations
       (Num.floor (Num.mul r0 (ofZ (Z.of_nat (List.length operations))))),
     array_get operations
       (Num.floor (Num.mul r1 (ofZ (Z.of_nat (List.length operations)))))) in
  let expression :=
    [TNum n0; opToken (fst ops); TNum n1; opToken (snd ops); TNum n2] in
  let answer := evaluateExpression expression in
  ret (MathProblem.mk id (ProblemConfig.operation config)
         (ProblemConfig.difficulty config) expression expression answer
         (Some numbers) (Some true) timeGenerated).

(** *** generateProblem and generateProblemSet *)

(** [generateProblem(config)], called at clock reading [now]. *)
Definition generateProblem (now : Z) (config : ProblemConfig.t) : Gen MathProblem.t :=
  id <- generateId now ;;
  let timeGenerated := now in
  if ProblemConfig.multiStep config then
    generateMultiStepProblem config id timeGenerated
  else
    let op := ProblemConfig.operation config in
    if (op =? "addition")%string then generateAddition config id timeGenerated
    else if (op =? "subtraction")%string then generateSubtraction config id timeGenerated
    else if (op =? "multiplication")%string then generateMultiplication config id timeGenerated
    else if (op =? "division")%string then generateDivision config id timeGenerated
    else if (op =? "percentage")%string then generatePercentage config id timeGenerated
    else throw ("Unsupported operation: " ++ op).

(** The [for] loop of [generateProblemSet], with [n] iterations left. *)
Fixpoint generateProblemSet_loop (now : Z) (config : ProblemConfig.t) (n : nat)
    (problems : list MathProblem.t) : Gen (list MathProblem.t) :=
  match n with
  | O => ret problems
  | S n' =>
      p <- generateProblem now config ;;
      generateProblemSet_loop now config n' (problems ++ [p])
  end.

(** [generateProblemSet(config, count)] for an integer [count]: the loop
    body runs [count] times, and not at all when [count <= 0]. *)
Definition generateProblemSet (now : Z) (config : ProblemConfig.t) (count : Z)
    : Gen (list MathProblem.t) :=
  generateProblemSet_loop now config (Z.to_nat count) [].

(** Every value of the random source is a value [Math.random()] may
    return: at least 0 and at most [1 - 2^-53], the largest binary64 value
    below 1. *)
Definition binary64_draws (random : rng) : Prop :=
  forall n, (0 <= random n <= 1 - 2 ^ (-53))%Q.

(** A configuration with the default range of [beginner] and no flag set. *)
Definition beginner (operation : string) : ProblemConfig.t :=
  ProblemConfig.mk operation "beginner" false false false false None.

(** The operations that [generateProblem] has a case for. *)
Definition operations : list string :=
  ["addition"; "subtraction"; "multiplication"; "division"; "percentage"]%string.

(** A random source whose every draw is [r]. *)
Definition constant_rng (r : Q) : rng := fun _ => r.

(* ================================================================== *)
(** ** db: the local database *)
(* ================================================================== *)

(** A table with an auto-incremented primary key ([++id]): its rows in key
    order, and the next key to hand out. *)
Module Table.
Record t (A : Type) : Type := mk { rows : list (Z * A); nextId : Z }.
Arguments mk {A} rows nextId.
Arguments rows {A} t.
Arguments nextId {A} t.

Definition empty {A} : t A := mk [] 1.

(** [table.add(row)] *)
Definition add {A} (row : A) (tbl : t A) : t A :=
  mk (rows tbl ++ [(nextId tbl, row)]) (nextId tbl + 1).

(** [table.bulkAdd(rows)] *)
Definition bulkAdd {A} (new : list A) (tbl : t A) : t A :=
  fold_left (fun acc row => add row acc) new tbl.

(** [table.clear()] *)
Definition clear {A} (tbl : t A) : t A := mk [] (nextId tbl).

(** [table.update(key, changes)], the changes given as a function. *)
Definition update {A} (key : Z) (changes : A -> A) (tbl : t A) : t A :=
  mk (map (fun r => if fst r =? key then (fst r, changes (snd r)) else r)
        (rows tbl))
     (nextId tbl).

(** [table.toArray()] *)
Definition toArray {A} (tbl : t A) : list A := map snd (rows tbl).

(** [table.count()] *)
Definition count {A} (tbl : t A) : Z := Z.of_nat (List.length (rows tbl)).
End Table.

Module UserProgress.
Record t : Type := mk {
  operation : string;
  difficulty : string;
  problemsSolved : Z;
  correctAnswers : Z;
  totalTime : Z;
  bestTime : option Q;
  streak : Z;
  lastPracticed : option Z;
  createdAt : Z;
  updatedAt : Z
}.
End UserProgress.

(** A stored session.  [completedAt] is optional here because the object
    that [saveResults] stores has no such property. *)
Module PracticeSession.
Record t : Type := mk {
  mode : string;
  operation : string;
  difficulty : string;
  problemsSolved : Z;
  correctAnswers : Z;
  sessionTime : Z;
  accuracy : Q;
  avgTimePerProblem : option Q;
  completedAt : option Z
}.
End PracticeSession.

(** The object that an achievement's [requirement] string serialises. *)
Module AchievementCheck.
Record t : Type := mk {
  type : string;
  value : option Z;
  operator : option string;
  mode : option string;
  accuracy : option Z;
  problems : option Z
}.
End AchievementCheck.

Module Achievement.
Record t : Type := mk {
  name : string;
  description : string;
  icon : string;
  category : string;
  requirement : AchievementCheck.t;
  unlockedAt : option Z
}.
End Achievement.

(** A stored settings row; the three last fields are the properties that
    only [useSettings] writes. *)
Module UserSettings.
Record t : Type := mk {
  dyslexiaMode : bool;
  highContrast : bool;
  largeText : bool;
  soundEffects : bool;
  voiceFeedback : bool;
  voiceSpeed : Q;
  darkMode : bool;
  updatedAt : Z;
  animations : option bool;
  notifications : option bool;
  autoSave : option bool
}.
End UserSettings.

(** [CountMeOutDB] *)
Module DB.
Record t : Type := mk {
  userProgress : Table.t UserProgress.t;
  practiceSessions : Table.t PracticeSession.t;
  achievements : Table.t Achievement.t;
  userSettings : Table.t UserSettings.t
}.

(** The database before anything was stored. *)
Definition empty : t := mk Table.empty Table.empty Table.empty Table.empty.
End DB.

Definition requirement (type : string) (value : option Z) (operator mode : option string)
    (accuracy problems : option Z) : AchievementCheck.t :=
  AchievementCheck.mk type value operator mode accuracy problems.

(** [defaultAchievements] *)
Definition defaultAchievements : list Achievement.t :=
  [ Achievement.mk "First Steps" "Complete your first problem" "🎯" "milestone"
      (requirement "problems_solved" (Some 1) None None None None) None;
    Achievement.mk "Perfect Score" "Get 100% accuracy in a session" "🎖️" "accuracy"
      (requirement "session_accuracy" (Some 100) None None None None) None;
    Achievement.mk "Speed Demon" "Average under 2 seconds per problem" "⚡" "speed"
      (requirement "avg_time" (Some 2) (Some "less"%string) None None None) None;
    Achievement.mk "Hot Streak" "Practice 7 days in a row" "🔥" "streak"
      (requirement "daily_streak" (Some 7) None None None None) None;
    Achievement.mk "Century Club" "Solve 100 problems" "💯" "milestone"
      (requirement "problems_solved" (Some 100) None None None None) None;
    Achievement.mk "Math Master" "Master all 5 operations" "👑" "milestone"
      (requirement "all_operations_mastered" (Some 5) None None None None) None;
    Achievement.mk "Accuracy Ace" "Maintain 95% accuracy over 50 problems" "🎯" "accuracy"
      (requirement "accuracy_streak" None None None (Some 95) (Some 50)) None;
    Achievement.mk "Marathon Runner" "Practice for 1 hour in a single day" "🏃" "milestone"
      (requirement "daily_time" (Some 3600) None None None None) None;
    Achievement.mk "Audio Expert" "Complete 20 problems in audio-only mode" "🎧" "milestone"
      (requirement "mode_problems" (Some 20) None (Some "audio"%string) None None) None;
    Achievement.mk "Lightning Fast" "Average under 1 second per problem" "⚡" "speed"
      (requirement "avg_time" (Some 1) (Some "less"%string) None None None) None ].

(** [initializeDB()] at clock reading [now]: seeds the achievement catalog
    and the settings row, each only when its table is empty. *)
Definition initializeDB (now : Z) (db : DB.t) : DB.t :=
  let achievements :=
    if Table.count (DB.achievements db) =? 0
    then Table.bulkAdd defaultAchievements (DB.achievements db)
    else DB.achievements db in
  let userSettings :=
    if Table.count (DB.userSettings db) =? 0
    then Table.add
           (UserSettings.mk false false false true true 1 false now None None None)
           (DB.userSettings db)
    else DB.userSettings db in
  DB.mk (DB.userProgress db) (DB.practiceSessions db) achievements userSettings.

(* ================================================================== *)
(** ** useSettings: defaultSettings and clearAllData *)
(* ================================================================== *)

(** [{ ...defaultSettings, updatedAt: new Date() }] *)
Definition defaultSettings (updatedAt : Z) : UserSettings.t :=
  UserSettings.mk false false false true true 1 false updatedAt
    (Some true) (Some true) (Some true).

(** [clearAllData()] at clock reading [now], when no storage call fails:
    the four [clear()] calls, then the one [add] that follows them. *)
Definition clearAllData (now : Z) (db : DB.t) : DB.t :=
  let cleared :=
    DB.mk (Table.clear (DB.userProgress db))
          (Table.clear (DB.practiceSessions db))
          (Table.clear (DB.achievements db))
          (Table.clear (DB.userSettings db)) in
  DB.mk (DB.userProgress cleared) (DB.practiceSessions cleared)
        (DB.achievements cleared)
        (Table.add (defaultSettings now) (DB.userSettings cleared)).

(* ================================================================== *)
(** ** usePracticeSession *)
(* ================================================================== *)

Inductive PracticeMode : Type := timed | accuracy | audio.

(** The string a [PracticeMode] is at run time. *)
Definition mode_string (m : PracticeMode) : string :=
  match m with
  | timed => "timed"
  | accuracy => "accuracy"
  | audio => "audio"
  end.

Definition is_timed (m : PracticeMode) : bool :=
  match m with timed => true | _ => false end.

(** [PracticeSessionState].  [None] in [currentProblem] stands for both
    [null] and [undefined]; [feedback] is kept as the pieces of its
    template, as expressions are. *)
Module PracticeSessionState.
Record t : Type := mk {
  problems : list MathProblem.t;
  currentProblemIndex : Z;
  currentProblem : option MathProblem.t;
  userAnswer : string;
  isCorrect : option bool;
  score : Z;
  correctAnswers : Z;
  timeElapsed : Z;
  timeRemaining : option Z;
  isActive : bool;
  isComplete : bool;
  feedback : list token;
  sessionStartTime : option Z;
  problemStartTime : option Z
}.
End PracticeSessionState.

Module SessionResults.
Record t : Type := mk {
  problemsSolved : Z;
  correctAnswers : Z;
  accuracy : Q;
  totalTime : Z;
  averageTime : Q;
  score : Z
}.
End SessionResults.

Section usePracticeSession.

Import PracticeSessionState.

(** The host's [parseFloat]. *)
Variable parseFloat : string -> number.

(** The arguments of the hook. *)
Variable mode : PracticeMode.
Variable config : ProblemConfig.t.
Variable sessionLength : Z.
Variable timeLimit : Z.

(** The state the hook starts with. *)
Definition initialState : t :=
  mk [] 0 None "" None 0 0 0
     (if is_timed mode then Some timeLimit else None)
     false false [] None None.

(** [startSession()] at clock reading [now]: the state it sets.  When
    generation throws, no state is set. *)
Definition startSession (now : Z) : Gen t :=
  problems <- generateProblemSet now config sessionLength ;;
  ret (mk problems 0 (array_at problems 0) "" None 0 0 0
          (if is_timed mode then Some timeLimit else None)
          true false [] (Some now) (Some now)).

(** The state update run by the interval timer every second. *)
Definition tick (prev : t) : t :=
  if negb (isActive prev) then prev
  else
    let newTimeElapsed := timeElapsed prev + 1 in
    let newTimeRemaining :=
      if is_timed mode
      then Some (Z.max 0 (match timeRemaining prev with
                          | Some r => r
                          | None => 0
                          end - 1))
      else None in
    if is_timed mode
       && match newTimeRemaining with Some r => r =? 0 | None => false end
    then
      mk (problems prev) (currentProblemIndex prev) (currentProblem prev)
         (userAnswer prev) (isCorrect prev) (score prev) (correctAnswers prev)
         (timeElapsed prev) (timeRemaining prev)
         false true
         (feedback prev) (sessionStartTime prev) (problemStartTime prev)
    else
      mk (problems prev) (currentProblemIndex prev) (currentProblem prev)
         (userAnswer prev) (isCorrect prev) (score prev) (correctAnswers prev)
         newTimeElapsed newTimeRemaining
         (isActive prev) (isComplete prev)
         (feedback prev) (sessionStartTime prev) (problemStartTime prev).

(** The state update of [submitAnswer(answer)]. *)
Definition submitAnswer (answer : string) (prev : t) : t :=
  match currentProblem prev with
  | None => prev
  | Some problem =>
      if negb (isActive prev) then prev
      else
        let numericAnswer := parseFloat answer in
        let isCorrect :=
          validateAnswer numericAnswer (MathProblem.answer problem)
            default_tolerance in
        let newCorrectAnswers :=
          correctAnswers prev + (if isCorrect then 1 else 0) in
        let newScore := score prev + (if isCorrect then 10 else 0) in
        mk (problems prev) (currentProblemIndex prev) (currentProblem prev)
           answer (Some isCorrect) newScore newCorrectAnswers
           (timeElapsed prev) (timeRemaining prev)
           (isActive prev) (isComplete prev)
           (if isCorrect then [TSym "Correct!"]
            else [TSym "Incorrect. The answer was";
                  TNum (MathProblem.answer problem)])
           (sessionStartTime prev) (problemStartTime prev)
  end.

(** The state update of [nextProblem()] at clock reading [now]. *)
Definition nextProblem (now : Z) (prev : t) : t :=
  let nextIndex := currentProblemIndex prev + 1 in
  if Z.of_nat (List.length (problems prev)) <=? nextIndex then
    mk (problems prev) (currentProblemIndex prev) None
       (userAnswer prev) (isCorrect prev) (score prev) (correctAnswers prev)
       (timeElapsed prev) (timeRemaining prev)
       false true
       (feedback prev) (sessionStartTime prev) (problemStartTime prev)
  else
    let nextProblem := array_at (problems prev) nextIndex in
    mk (problems prev) nextIndex nextProblem
       "" None (score prev) (correctAnswers prev)
       (timeElapsed prev) (timeRemaining prev)
       (isActive prev) (isComplete prev)
       [] (sessionStartTime prev) (Some now).

(** [skipProblem()] *)
Definition skipProblem (now : Z) (prev : t) : t := nextProblem now prev.

(** The state update of [endSession()]. *)
Definition endSession (prev : t) : t :=
  mk (problems prev) (currentProblemIndex prev) (currentProblem prev)
     (userAnswer prev) (isCorrect prev) (score prev) (correctAnswers prev)
     (timeElapsed prev) (timeRemaining prev)
     false true
     (feedback prev) (sessionStartTime prev) (problemStartTime prev).

(** The [results] object built by [saveResults()]; its two quotients are
    kept as the rationals they are, in lowest terms, not rounded. *)
Definition sessionResults (state : t) : SessionResults.t :=
  SessionResults.mk
    (currentProblemIndex state
     + (match isCorrect state with Some _ => 1 | None => 0 end))
    (correctAnswers state)
    (Qred ((inject_Z (correctAnswers state)
            / inject_Z (Z.max (currentProblemIndex state) 1)) * 100))
    (timeElapsed state)
    (Qred (inject_Z (timeElapsed state)
           / inject_Z (Z.max (currentProblemIndex state) 1)))
    (score state).

(** The [sessionData] object that [saveResults()] stores. *)
Definition sessionData (results : SessionResults.t) : PracticeSession.t :=
  PracticeSession.mk (mode_string mode)
    (ProblemConfig.operation config) (ProblemConfig.difficulty config)
    (SessionResults.problemsSolved results)
    (SessionResults.correctAnswers results)
    (SessionResults.totalTime results)
    (SessionResults.accuracy results)
    (Some (SessionResults.averageTime results))
    None.

(** The progress row for this operation and difficulty, with its key:
    the first row in key order whose [operation] and [difficulty] are
    those of [config]. *)
Definition existingProgress (db : DB.t) : option (Z * UserProgress.t) :=
  find (fun r =>
          (UserProgress.operation (snd r) =? ProblemConfig.operation config)%string
          && (UserProgress.difficulty (snd r) =? ProblemConfig.difficulty config)%string)
       (Table.rows (DB.userProgress db)).

(** [saveResults()] at clock reading [now], up to and including the write
    to [userProgress]: the results it has computed and the database at that
    point.  The achievement check that it awaits next is [checkAchievements]
    below, and the whole call [saveResults_promise]. *)
Definition saveResults (now : Z) (state : t) (db : DB.t)
    : outcome (SessionResults.t * DB.t) :=
  match sessionStartTime state with
  | None => Throw "Session not started"
  | Some _ =>
      let results := sessionResults state in
      let practiceSessions :=
        Table.add (sessionData results) (DB.practiceSessions db) in
      let userProgress :=
        match existingProgress db with
        | Some (key, existing) =>
            Table.update key
              (fun row =>
                 UserProgress.mk
                   (UserProgress.operation row) (UserProgress.difficulty row)
                   (UserProgress.problemsSolved existing
                    + SessionResults.problemsSolved results)
                   (UserProgress.correctAnswers existing
                    + SessionResults.correctAnswers results)
                   (UserProgress.totalTime existing
                    + SessionResults.totalTime results)
                   (UserProgress.bestTime row) (UserProgress.streak row)
                   (Some now) (UserProgress.createdAt row) now)
              (DB.userProgress db)
        | None =>
            Table.add
              (UserProgress.mk
                 (ProblemConfig.operation config)
                 (ProblemConfig.difficulty config)
                 (SessionResults.problemsSolved results)
                 (SessionResults.correctAnswers results)
                 (SessionResults.totalTime results)
                 None 1 (Some now) now now)
              (DB.userProgress db)
        end in
      Return (results,
              DB.mk userProgress practiceSessions
                    (DB.achievements db) (DB.userSettings db))
  end.

(** What can happen to a session, in the order it happens. *)
Inductive event : Type :=
| EStart (now : Z) (random : rng)
| ETick
| ESubmit (answer : string)
| EAdvance (now : Z)
| ESkip (now : Z)
| EEnd.

Definition step (state : t) (e : event) : t :=
  match e with
  | EStart now random =>
      match startSession now random with
      | Return (started, _) => started
      | Throw _ => state
      end
  | ETick => tick state
  | ESubmit answer => submitAnswer answer state
  | EAdvance now => nextProblem now state
  | ESkip now => skipProblem now state
  | EEnd => endSession state
  end.

(** The state after a sequence of events, from the hook's first state. *)
Definition run (events : list event) : t := fold_left step events initialState.

End usePracticeSession.

(** What [parseFloat] returns for a text made of decimal digits only.  The
    concrete runs below use it in the place of [parseFloat], and only on
    such texts. *)
Fixpoint digitsValue (acc : Z) (s : string) : option Z :=
  match s with
  | EmptyString => Some acc
  | String c rest =>
      let n := Ascii.nat_of_ascii c in
      if ((48 <=? n) && (n <=? 57))%nat
      then digitsValue (10 * acc + Z.of_nat (n - 48)) rest
      else None
  end.

Definition parseDigits (s : string) : number :=
  match s with
  | EmptyString => NaN
  | _ => match digitsValue 0 s with
         | Some z => ofZ z
         | None => NaN
         end
  end.

(* ================================================================== *)
(** ** achievementEngine: checkDailyStreak *)
(* ================================================================== *)

(** Instants are milliseconds since the epoch, and local time is taken to be
    UTC with days of [msPerDay] milliseconds. *)
Definition msPerDay : Z := 86400000.

(** [d.setHours(0, 0, 0, 0); d.getTime()] *)
Definition startOfDay (t : Z) : Z := t - t mod msPerDay.

(** [d.setDate(d.getDate() - 1); d.getTime()] for a midnight [d]. *)
Definition previousDay (d : Z) : Z := d - msPerDay.

(** The entries of the [completedAt] index: key, primary key and row of
    every row that has a [completedAt]; a row without one is not indexed. *)
Definition completedAtIndex (tbl : Table.t PracticeSession.t)
    : list (Z * (Z * PracticeSession.t)) :=
  flat_map (fun r =>
              match PracticeSession.completedAt (snd r) with
              | Some c => [(c, r)]
              | None => []
              end)
           (Table.rows tbl).

(** Index order: by key, then by primary key. *)
Definition entry_leb (a b : Z * (Z * PracticeSession.t)) : bool :=
  (fst a <? fst b) || ((fst a =? fst b) && (fst (snd a) <=? fst (snd b))).

Fixpoint insertDescending (e : Z * (Z * PracticeSession.t))
    (l : list (Z * (Z * PracticeSession.t))) : list (Z * (Z * PracticeSession.t)) :=
  match l with
  | [] => [e]
  | h :: t => if entry_leb h e then e :: l else h :: insertDescending e t
  end.

(** [db.practiceSessions.orderBy('completedAt').reverse().toArray()] *)
Definition orderBy_completedAt_reverse (tbl : Table.t PracticeSession.t)
    : list PracticeSession.t :=
  map (fun e => snd (snd e)) (fold_right insertDescending [] (completedAtIndex tbl)).

(** The [for] loop of [checkDailyStreak]: the value of [streak] when the
    loop ends.  A row without date compares false both ways. *)
Fixpoint streakLoop (sessions : list PracticeSession.t) (streak currentDate : Z) : Z :=
  match sessions with
  | [] => streak
  | session :: rest =>
      match PracticeSession.completedAt session with
      | None => streakLoop rest streak currentDate
      | Some completedAt =>
          let sessionDate := startOfDay completedAt in
          if sessionDate =? currentDate then
            streakLoop rest (streak + 1) (previousDay currentDate)
          else if sessionDate <? currentDate then streak
          else streakLoop rest streak currentDate
      end
  end.

(** [checkDailyStreak(targetStreak)] at clock reading [now]. *)
Definition checkDailyStreak (now : Z) (db : DB.t) (targetStreak : Z) : bool :=
  let sessions := orderBy_completedAt_reverse (DB.practiceSessions db) in
  if Z.of_nat (List.length sessions) =? 0 then false
  else
    let streak := streakLoop sessions 0 (startOfDay now) in
    targetStreak <=? streak.

(** *** The streak in the words of the requirement table *)

(** The calendar day an instant falls on, as a day number. *)
Definition dayOf (t : Z) : Z := t / msPerDay.

(** The days on which a session was completed. *)
Definition sessionDays (db : DB.t) : list Z :=
  map (fun e => dayOf (fst e)) (completedAtIndex (DB.practiceSessions db)).

(** [n] is the count of consecutive calendar days, walking backward from
    [today], each with at least one session: the [n] days [today],
    [today - 1], ... all have one, and the day before them has none. *)
Definition consecutive_days (days : list Z) (today n : Z) : Prop :=
  0 <= n /\
  (forall i, 0 <= i < n -> In (today - i) days) /\
  ~ In (today - n) days.

(** A session completed at instant [completedAt]. *)
Definition sessionAt (completedAt : Z) : PracticeSession.t :=
  PracticeSession.mk "accuracy" "addition" "beginner" 1 1 5 100 (Some 5%Q)
    (Some completedAt).

(** Storing one more session. *)
Definition addSession (session : PracticeSession.t) (db : DB.t) : DB.t :=
  DB.mk (DB.userProgress db) (Table.add session (DB.practiceSessions db))
        (DB.achievements db) (DB.userSettings db).

(** One session a day on the first [k] days after the epoch, each completed
    at noon, stored in the order they were completed. *)
Definition dailySessions (k : nat) : DB.t :=
  fold_left (fun db i => addSession (sessionAt (Z.of_nat i * msPerDay + 43200000)) db)
            (seq 0 k) DB.empty.

(** Index entries ordered from the latest key to the earliest. *)
Definition descending (es : list (Z * (Z * PracticeSession.t))) : Prop :=
  StronglySorted (fun a b => fst b <= fst a) es.

(** An index entry carries the [completedAt] of its row as its key. *)
Definition keyed (e : Z * (Z * PracticeSession.t)) : Prop :=
  PracticeSession.completedAt (snd (snd e)) = Some (fst e).

(* ================================================================== *)
(** ** Sample sessions *)
(* ================================================================== *)

(** The states of a session of [sessionLength] beginner additions, every
    draw being [0] (so that every problem is [1 + 1]), after the given
    events; answers are read with [parseDigits]. *)
Definition additionSession (mode : PracticeMode) (sessionLength timeLimit : Z)
    (events : list event) : PracticeSessionState.t :=
  run parseDigits mode (beginner "addition") sessionLength timeLimit
    (EStart 0 (constant_rng 0) :: events).

(** Two problems, each answered correctly once, a second after it was
    shown, and left by the automatic advance a second and a half later. *)
Definition twoAnswered : PracticeSessionState.t :=
  additionSession accuracy 2 600
    [ETick; ESubmit "2"; ETick; EAdvance 2500;
     ETick; ESubmit "2"; ETick; EAdvance 5000].

(** A session of one problem, which is answered correctly twice before the
    automatic advance completes the session. *)
Definition answeredTwice : PracticeSessionState.t :=
  additionSession accuracy 1 600 [ESubmit "2"; ESubmit "2"; ETick; EAdvance 1500].

(** A timed session with a limit of two seconds, after one tick and after
    two. *)
Definition twoSeconds (ticks : list event) : PracticeSessionState.t :=
  additionSession timed 1 2 ticks.

(** The accuracy and the average time that the session record is to carry,
    in the words of the [saveResults] contract: both over
    [max(problemsSolved, 1)]. *)
Definition accuracy_over_problemsSolved (correctAnswers problemsSolved : Z) : Q :=
  Qred ((inject_Z correctAnswers / inject_Z (Z.max problemsSolved 1)) * 100).

Definition averageTime_over_problemsSolved (timeElapsed problemsSolved : Z) : Q :=
  Qred (inject_Z timeElapsed / inject_Z (Z.max problemsSolved 1)).

(** The database after [saveResults] of the session [twoAnswered] at clock
    reading [now]. *)
Definition saveTwoAnswered (now : Z) (db : DB.t) : DB.t :=
  match saveResults accuracy (beginner "addition") now twoAnswered db with
  | Return (_, saved) => saved
  | Throw _ => db
  end.

(** One session a day saved by [saveResults] at noon of the first [k] days
    after the epoch. *)
Definition savedDaily (k : nat) : DB.t :=
  fold_left (fun db i => saveTwoAnswered (Z.of_nat i * msPerDay + 43200000) db)
            (seq 0 k) DB.empty.

(** The score is ten times the number of correct answers. *)
Definition score_ratio (state : PracticeSessionState.t) : Prop :=
  PracticeSessionState.score state = 10 * PracticeSessionState.correctAnswers state.

(* ================================================================== *)
(** ** usePracticeSession: the progress object *)
(* ================================================================== *)

Module SessionProgress.
Record t : Type := mk { completed : Z; total : Z; percentage : Q }.
End SessionProgress.

(** The [progress] object the hook returns with its state, the percentage
    in lowest terms. *)
Definition progress (state : PracticeSessionState.t) : SessionProgress.t :=
  let total := Z.of_nat (List.length (PracticeSessionState.problems state)) in
  SessionProgress.mk
    (PracticeSessionState.currentProblemIndex state)
    total
    (Qred ((inject_Z (PracticeSessionState.currentProblemIndex state)
            / inject_Z (Z.max total 1)) * 100)).

(** The state after the interval timer has fired [n] times and nothing
    else has happened. *)
Fixpoint ticks (mode : PracticeMode) (n : nat) (state : PracticeSessionState.t)
    : PracticeSessionState.t :=
  match n with
  | O => state
  | S n' => ticks mode n' (tick mode state)
  end.

(** An event other than a start of the session. *)
Definition not_a_start (e : event) : Prop :=
  match e with
  | EStart _ _ => False
  | _ => True
  end.

(** What the two operators of a multi-step problem may be. *)
Inductive palette : Type := Plus | Minus | Times.

Definition palette_symbol (o : palette) : string :=
  match o with
  | Plus => "+"
  | Minus => "-"
  | Times => "×"
  end.

Definition palette_apply (o : palette) (x y : Z) : Z :=
  match o with
  | Plus => x + y
  | Minus => x - y
  | Times => x * y
  end.

(** The value of [n0 o0 n1 o1 n2] under the usual precedence:
    multiplication first, then from left to right. *)
Definition precedence_value (o0 o1 : palette) (n0 n1 n2 : Z) : Z :=
  match o0, o1 with
  | Times, _ => palette_apply o1 (n0 * n1) n2
  | _, Times => palette_apply o0 n0 (n1 * n2)
  | _, _ => palette_apply o1 (palette_apply o0 n0 n1) n2
  end.

(* ================================================================== *)
(** ** achievementEngine: the other requirement checks *)
(* ================================================================== *)

(** [sessions.reduce((sum, session) => sum + session.problemsSolved, 0)] *)
Definition sumProblemsSolved (sessions : list PracticeSession.t) : Z :=
  fold_left (fun sum session => sum + PracticeSession.problemsSolved session)
            sessions 0.

(** [checkTotalProblems(targetCount)] *)
Definition checkTotalProblems (db : DB.t) (targetCount : Z) : bool :=
  let totalProblems := sumProblemsSolved (Table.toArray (DB.practiceSessions db)) in
  targetCount <=? totalProblems.

(** [db.practiceSessions.where('mode').equals(mode).toArray()] *)
Definition sessionsOfMode (db : DB.t) (mode : string) : list PracticeSession.t :=
  filter (fun session => (PracticeSession.mode session =? mode)%string)
         (Table.toArray (DB.practiceSessions db)).

(** [checkModeProblems(mode, targetCount)] *)
Definition checkModeProblems (db : DB.t) (mode : string) (targetCount : Z) : bool :=
  let totalProblems := sumProblemsSolved (sessionsOfMode db mode) in
  targetCount <=? totalProblems.

(** The sessions kept by [filter(s => s.avgTimePerProblem)]: those whose
    average time is present and not zero. *)
Definition hasAverageTime (session : PracticeSession.t) : bool :=
  match PracticeSession.avgTimePerProblem session with
  | Some q => negb (Qeq_bool q 0)
  | None => false
  end.

Definition averageTimeOf (session : PracticeSession.t) : Q :=
  match PracticeSession.avgTimePerProblem session with
  | Some q => q
  | None => 0
  end.

(** The [reduce] of [checkAverageTime] over the kept sessions [arr]:
    the sum of [session.avgTimePerProblem / arr.length], from 0. *)
Definition averageOfAverages (arr : list PracticeSession.t) : number :=
  fold_left (fun sum session =>
               Num.add sum (Num.div (Fin (averageTimeOf session))
                                    (ofZ (Z.of_nat (List.length arr)))))
            arr (ofZ 0).

(** [checkAverageTime(targetTime, operator)]; [0.1] is the binary64 value
    that the literal denotes. *)
Definition checkAverageTime (db : DB.t) (targetTime : Z) (operator : string) : bool :=
  let sessions := Table.toArray (DB.practiceSessions db) in
  if Z.of_nat (List.length sessions) =? 0 then false
  else
    let avgTime := averageOfAverages (filter hasAverageTime sessions) in
    if (operator =? "less")%string then
      Num.ltb avgTime (ofZ targetTime)
    else if (operator =? "greater")%string then
      Num.gtb avgTime (ofZ targetTime)
    else if (operator =? "equal")%string then
      Num.ltb (Num.abs (Num.sub avgTime (ofZ targetTime))) (round64 (1 # 10))
    else false.

(** [isOperationMastered(progress)]; the quotient and [0.9] are the
    rationals they are, not rounded. *)
Definition isOperationMastered (progress : UserProgress.t) : bool :=
  let accuracy :=
    (inject_Z (UserProgress.correctAnswers progress)
     / inject_Z (Z.max (UserProgress.problemsSolved progress) 1))%Q in
  negb (Qle_bool accuracy (9 # 10)) && (50 <=? UserProgress.problemsSolved progress).

(** [db.userProgress.where('operation').equals(operation).first()] *)
Definition firstProgressOf (db : DB.t) (operation : string) : option UserProgress.t :=
  find (fun progress => (UserProgress.operation progress =? operation)%string)
       (Table.toArray (DB.userProgress db)).

(** The value of [masteredCount] after the loop over the five operations. *)
Definition masteredCount (db : DB.t) : Z :=
  fold_left (fun count operation =>
               match firstProgressOf db operation with
               | Some progress =>
                   if isOperationMastered progress then count + 1 else count
               | None => count
               end)
            operations 0.

(** [checkOperationsMastery(targetOperations)] *)
Definition checkOperationsMastery (db : DB.t) (targetOperations : Z) : bool :=
  targetOperations <=? masteredCount db.

(** The [for] loop of [checkAccuracyStreak] from the totals so far. *)
Fixpoint accuracyStreakLoop (sessions : list PracticeSession.t)
    (totalProblems totalCorrect targetAccuracy targetProblems : Z) : bool :=
  match sessions with
  | [] => false
  | session :: rest =>
      let totalProblems := totalProblems + PracticeSession.problemsSolved session in
      let totalCorrect := totalCorrect + PracticeSession.correctAnswers session in
      if targetProblems <=? totalProblems then
        let accuracy :=
          Num.mul (Num.div (ofZ totalCorrect) (ofZ totalProblems)) (ofZ 100) in
        Num.leb (ofZ targetAccuracy) accuracy
      else
        accuracyStreakLoop rest totalProblems totalCorrect
          targetAccuracy targetProblems
  end.

(** [checkAccuracyStreak(targetAccuracy, targetProblems)] *)
Definition checkAccuracyStreak (db : DB.t) (targetAccuracy targetProblems : Z) : bool :=
  let recentSessions :=
    firstn 10 (orderBy_completedAt_reverse (DB.practiceSessions db)) in
  accuracyStreakLoop recentSessions 0 0 targetAccuracy targetProblems.

(** [db.practiceSessions.where('completedAt').between(today, tomorrow)]:
    the rows with a date from [today] on and before [tomorrow]. *)
Definition sessionsBetween (db : DB.t) (today tomorrow : Z) : list PracticeSession.t :=
  filter (fun session =>
            match PracticeSession.completedAt session with
            | Some c => (today <=? c) && (c <? tomorrow)
            | None => false
            end)
         (Table.toArray (DB.practiceSessions db)).

(** [checkDailyTime(targetTime)] at clock reading [now]. *)
Definition checkDailyTime (now : Z) (db : DB.t) (targetTime : Z) : bool :=
  let today := startOfDay now in
  let tomorrow := today + msPerDay in
  let todaySessions := sessionsBetween db today tomorrow in
  let totalTime :=
    fold_left (fun sum session => sum + PracticeSession.sessionTime session)
              todaySessions 0 in
  targetTime <=? totalTime.

(** A comparison with a parameter that the requirement object does not
    have is a comparison with [undefined], which is false. *)
Definition withParameter (parameter : option Z) (check : Z -> bool) : bool :=
  match parameter with
  | Some v => check v
  | None => false
  end.

(** [checkRequirement(requirement, sessionData)] at clock reading [now].
    A [mode_problems] requirement without a mode queries the index with a
    key that is not valid, and the call fails: that is [None]. *)
Definition checkRequirement (now : Z) (db : DB.t)
    (requirement : AchievementCheck.t) (sessionData : option PracticeSession.t)
    : option bool :=
  let type := AchievementCheck.type requirement in
  let value := AchievementCheck.value requirement in
  if (type =? "problems_solved")%string then
    Some (withParameter value (checkTotalProblems db))
  else if (type =? "session_accuracy")%string then
    match sessionData with
    | Some session =>
        Some (withParameter value
                (fun v => Qle_bool (inject_Z v) (PracticeSession.accuracy session)))
    | None => Some false
    end
  else if (type =? "avg_time")%string then
    Some (withParameter value
            (fun v => checkAverageTime db v
                        (match AchievementCheck.operator requirement with
                         | Some operator =>
                             if (operator =? "")%string then "less"%string
                             else operator
                         | None => "less"%string
                         end)))
  else if (type =? "daily_streak")%string then
    Some (withParameter value (checkDailyStreak now db))
  else if (type =? "all_operations_mastered")%string then
    Some (withParameter value (checkOperationsMastery db))
  else if (type =? "accuracy_streak")%string then
    Some (withParameter (AchievementCheck.accuracy requirement)
            (fun accuracy =>
               withParameter (AchievementCheck.problems requirement)
                 (checkAccuracyStreak db accuracy)))
  else if (type =? "daily_time")%string then
    Some (withParameter value (checkDailyTime now db))
  else if (type =? "mode_problems")%string then
    match AchievementCheck.mode requirement with
    | Some mode => Some (withParameter value (checkModeProblems db mode))
    | None => None
    end
  else Some false.

(** [Math.min(a, b)] *)
Definition Math_min (a b : number) : number :=
  match a, b with
  | NaN, _ | _, NaN => NaN
  | _, _ => if Num.leb a b then a else b
  end.

Module AchievementProgress.
Record t : Type := mk { current : Z; target : option Z; percentage : number }.
End AchievementProgress.

(** [Math.min((current / requirement.value) * 100, 100)], the quotient and
    the product taken exactly; a missing value is [undefined], and the
    quotient NaN. *)
Definition progressPercentage (current : Z) (value : option Z) : number :=
  match value with
  | Some v =>
      Math_min (Exact.mul (Exact.div (ofZ current) (ofZ v)) (ofZ 100)) (ofZ 100)
  | None => NaN
  end.

(** [getAchievementProgress(achievement)]; [None] is the failing query of
    a [mode_problems] requirement without a mode. *)
Definition getAchievementProgress (db : DB.t) (achievement : Achievement.t)
    : option AchievementProgress.t :=
  let requirement := Achievement.requirement achievement in
  let type := AchievementCheck.type requirement in
  let value := AchievementCheck.value requirement in
  if (type =? "problems_solved")%string then
    let current := sumProblemsSolved (Table.toArray (DB.practiceSessions db)) in
    Some (AchievementProgress.mk current value (progressPercentage current value))
  else if (type =? "mode_problems")%string then
    match AchievementCheck.mode requirement with
    | Some mode =>
        let current := sumProblemsSolved (sessionsOfMode db mode) in
        Some (AchievementProgress.mk current value (progressPercentage current value))
    | None => None
    end
  else if (type =? "all_operations_mastered")%string then
    let current := masteredCount db in
    Some (AchievementProgress.mk current value (progressPercentage current value))
  else Some (AchievementProgress.mk 0 (Some 1) (ofZ 0)).

(** *** checkAchievements and the whole of saveResults *)

(** The message of the error with which Dexie rejects a query whose key is
    not a valid IndexedDB key. *)
Definition invalidKey : string :=
  "Invalid key provided. Keys must be of type string, number, Date or Array<string | number | Date>.".

(** [db.achievements.where('unlockedAt').equals(key).toArray()], the rows
    with their primary keys.  [undefined] is not a valid key: the query is
    rejected. *)
Definition achievementsUnlockedAt (key : option Z) (db : DB.t)
    : outcome (list (Z * Achievement.t)) :=
  match key with
  | None => Throw invalidKey
  | Some date =>
      Return (filter (fun r =>
                        match Achievement.unlockedAt (snd r) with
                        | Some d => d =? date
                        | None => false
                        end)
                     (Table.rows (DB.achievements db)))
  end.

(** [{ ...achievement, unlockedAt }] *)
Definition unlock (unlockedAt : Z) (achievement : Achievement.t) : Achievement.t :=
  Achievement.mk (Achievement.name achievement) (Achievement.description achievement)
    (Achievement.icon achievement) (Achievement.category achievement)
    (Achievement.requirement achievement) (Some unlockedAt).

(** The [for] loop of [checkAchievements] at clock reading [now]: how the
    call settles and the database it leaves. *)
Fixpoint checkAchievements_loop (now : Z) (sessionData : option PracticeSession.t)
    (allAchievements : list (Z * Achievement.t)) (unlockedAchievements : list Achievement.t)
    (db : DB.t) : outcome (list Achievement.t) * DB.t :=
  match allAchievements with
  | [] => (Return unlockedAchievements, db)
  | (id, achievement) :: rest =>
      match checkRequirement now db (Achievement.requirement achievement) sessionData with
      | None => (Throw invalidKey, db)
      | Some false =>
          checkAchievements_loop now sessionData rest unlockedAchievements db
      | Some true =>
          checkAchievements_loop now sessionData rest
            (unlockedAchievements ++ [unlock now achievement])
            (DB.mk (DB.userProgress db) (DB.practiceSessions db)
                   (Table.update id (unlock now) (DB.achievements db))
                   (DB.userSettings db))
      end
  end.

(** [checkAchievements(sessionData)] at clock reading [now]. *)
Definition checkAchievements (now : Z) (sessionData : option PracticeSession.t)
    (db : DB.t) : outcome (list Achievement.t) * DB.t :=
  match achievementsUnlockedAt None db with
  | Throw message => (Throw message, db)
  | Return allAchievements =>
      checkAchievements_loop now sessionData allAchievements [] db
  end.

(** The whole of [saveResults()] at clock reading [now]: the writes of
    [saveResults] above, then the awaited [checkAchievements]; how the
    promise settles and the database the call leaves. *)
Definition saveResults_promise (mode : PracticeMode) (config : ProblemConfig.t)
    (now : Z) (state : PracticeSessionState.t) (db : DB.t)
    : outcome SessionResults.t * DB.t :=
  match saveResults mode config now state db with
  | Throw message => (Throw message, db)
  | Return (results, written) =>
      match checkAchievements now (Some (sessionData mode config results)) written with
      | (Throw message, after) => (Throw message, after)
      | (Return _, after) => (Return results, after)
      end
  end.

(* ================================================================== *)
(** ** useProgress: calculateOperationStats *)
(* ================================================================== *)

Module OperationStats.
Record t : Type := mk {
  problems : Z;
  correct : Z;
  accuracy : Q;
  averageTime : Q;
  mastery : Q
}.
End OperationStats.

(** [Math.min(a, b)] on finite numbers. *)
Definition Q_min (a b : Q) : Q := if Qle_bool a b then a else b.

(** The body of the [forEach] of [calculateOperationStats]: the statistics
    of one operation, its quotients and products kept as the rationals they
    are, not rounded. *)
Definition operationStats (sessions : list PracticeSession.t) (operation : string)
    : OperationStats.t :=
  let operationSessions :=
    filter (fun s => (PracticeSession.operation s =? operation)%string) sessions in
  let problems :=
    fold_left (fun sum s => sum + PracticeSession.problemsSolved s) operationSessions 0 in
  let correct :=
    fold_left (fun sum s => sum + PracticeSession.correctAnswers s) operationSessions 0 in
  let accuracy :=
    if 0 <? problems then (inject_Z correct / inject_Z problems * 100)%Q else 0%Q in
  let totalTime :=
    fold_left (fun sum s => sum + PracticeSession.sessionTime s) operationSessions 0 in
  let averageTime :=
    if 0 <? problems then (inject_Z totalTime / inject_Z problems)%Q else 0%Q in
  let mastery :=
    Q_min (accuracy * (inject_Z (Z.min problems 100) / 100)) 100 in
  OperationStats.mk problems correct accuracy averageTime mastery.

(** [calculateOperationStats(sessions, progressRecords)]: the record, as
    its entries in the order they are written. *)
Definition calculateOperationStats (sessions : list PracticeSession.t)
    (progressRecords : list UserProgress.t) : list (string * OperationStats.t) :=
  map (fun operation => (operation, operationStats sessions operation)) operations.

(* ================================================================== *)
(** ** Stored data: conditions used below *)
(* ================================================================== *)

(** No stored session carries a completion date. *)
Definition undated (db : DB.t) : Prop :=
  Forall (fun session => PracticeSession.completedAt session = None)
         (Table.toArray (DB.practiceSessions db)).

(** A number that is not NaN and not below zero. *)
Definition not_negative (a : number) : Prop :=
  match a with
  | Fin q => (0 <= q)%Q
  | PosInf => True
  | NegInf | NaN => False
  end.

(** No stored session has a negative number of problems. *)
Definition countsNotNegative (sessions : list PracticeSession.t) : Prop :=
  Forall (fun session => 0 <= PracticeSession.problemsSolved session) sessions.

(** The primary keys of a table are those of distinct rows, and all are
    below the next key to hand out. *)
Definition uniqueKeys {A} (tbl : Table.t A) : Prop :=
  NoDup (map fst (Table.rows tbl)) /\
  Forall (fun key => key < Table.nextId tbl) (map fst (Table.rows tbl)).

Definition sumZ (l : list Z) : Z := fold_right Z.add 0 l.

(** Every stored session has a number of correct answers between 0 and
    its number of problems. *)
Definition answersWithinSolved (sessions : list PracticeSession.t) : Prop :=
  Forall (fun session =>
            0 <= PracticeSession.correctAnswers session
              <= PracticeSession.problemsSolved session) sessions.

(** The fifth entry of the catalog. *)
Definition centuryClub : Achievement.t :=
  Achievement.mk "Century Club" "Solve 100 problems" "💯" "milestone"
    (requirement "problems_solved" (Some 100) None None None None) None.


(** The sums over all progress rows: problems solved, correct answers and
    total time. *)
Definition progressTotals (db : DB.t) : Z * Z * Z :=
  let rows := Table.toArray (DB.userProgress db) in
  (sumZ (map UserProgress.problemsSolved rows),
   sumZ (map UserProgress.correctAnswers rows),
   sumZ (map UserProgress.totalTime rows)).

(** The progress rows of one operation and difficulty. *)
Definition bucketsOf (db : DB.t) (operation difficulty : string) : list UserProgress.t :=
  filter (fun row =>
            (UserProgress.operation row =? operation)%string
            && (UserProgress.difficulty row =? difficulty)%string)
         (Table.toArray (DB.userProgress db)).

(** What holds of the state of a session whatever has happened to it: the
    index is a position in the problem list (0 when the list is empty, and
    then nothing was answered and there is no current problem); a running
    session is not complete, is on the problem at its index and has a start
    time; and the counters are not negative. *)
Definition session_shape (state : PracticeSessionState.t) : Prop :=
  0 <= PracticeSessionState.currentProblemIndex state /\
  (PracticeSessionState.problems state = [] ->
   PracticeSessionState.currentProblemIndex state = 0 /\
   PracticeSessionState.isCorrect state = None /\
   PracticeSessionState.currentProblem state = None) /\
  (PracticeSessionState.problems state <> [] ->
   PracticeSessionState.currentProblemIndex state
   < Z.of_nat (List.length (PracticeSessionState.problems state))) /\
  (PracticeSessionState.isActive state = true ->
   PracticeSessionState.isComplete state = false /\
   PracticeSessionState.currentProblem state
   = array_at (PracticeSessionState.problems state)
       (PracticeSessionState.currentProblemIndex state) /\
   PracticeSessionState.sessionStartTime state <> None) /\
  0 <= PracticeSessionState.correctAnswers state /\
  0 <= PracticeSessionState.timeElapsed state.

(* ================================================================== *)
(** * Properties *)
(* ================================================================== *)

(** ** Rounding to binary64 *)

Lemma two_not_zero : ~ (2 == 0)%Q.
Proof. discriminate. Qed.

Lemma two_power_positive (k : Z) : (0 < 2 ^ k)%Q.
Proof. apply Qpower_0_lt. reflexivity. Qed.

Lemma two_power_le (a b : Z) : a <= b -> (2 ^ a <= 2 ^ b)%Q.
Proof. intros H. apply Qpower_le_compat_l; [exact H | discriminate]. Qed.

Lemma two_power_lt (a b : Z) : a < b -> (2 ^ a < 2 ^ b)%Q.
Proof. intros H. apply Qpower_lt_compat_l; [exact H | reflexivity]. Qed.

Lemma two_power_Z (k : Z) : 0 <= k -> (2 ^ k == inject_Z (2 ^ k))%Q.
Proof. intros H. rewrite (Zpower_Qpower 2 k H). reflexivity. Qed.

Lemma two_power_succ (k : Z) : (2 ^ (k + 1) == 2 ^ k * 2)%Q.
Proof. rewrite Qpower_plus by exact two_not_zero. reflexivity. Qed.

Lemma Zfrac_le (a b c d : Z) :
  0 < b -> 0 < d -> a * d <= c * b ->
  (inject_Z a / inject_Z b <= inject_Z c / inject_Z d)%Q.
Proof.
  intros Hb Hd H. destruct b as [|b|b], d as [|d|d]; try lia.
  unfold Qle, Qdiv, Qmult, Qinv, inject_Z. simpl. lia.
Qed.

Lemma Zfrac_lt (a b c d : Z) :
  0 < b -> 0 < d -> a * d < c * b ->
  (inject_Z a / inject_Z b < inject_Z c / inject_Z d)%Q.
Proof.
  intros Hb Hd H. destruct b as [|b|b], d as [|d|d]; try lia.
  unfold Qlt, Qdiv, Qmult, Qinv, inject_Z. simpl. lia.
Qed.

Lemma Q_as_fraction (x : Q) : (x == inject_Z (Qnum x) / inject_Z (Z.pos (Qden x)))%Q.
Proof. destruct x as [n d]. simpl. apply Qmake_Qdiv. Qed.

(** The exponent of a positive rational brackets it between two powers
    of two. *)
Lemma exponent_spec (x : Q) :
  (0 < x)%Q -> (2 ^ exponent x <= x < 2 ^ (exponent x + 1))%Q.
Proof.
  intros Hx. unfold exponent.
  assert (Hn : 0 < Qnum x).
  { unfold Qlt in Hx. simpl in Hx. lia. }
  pose proof (Z.log2_spec (Qnum x) Hn) as Ha.
  pose proof (Z.log2_spec (Z.pos (Qden x)) ltac:(lia)) as Hb.
  pose proof (Z.log2_nonneg (Qnum x)) as Ha0.
  pose proof (Z.log2_nonneg (Z.pos (Qden x))) as Hb0.
  set (a := Z.log2 (Qnum x)) in *. set (b := Z.log2 (Z.pos (Qden x))) in *.
  assert (Hpa : 0 < 2 ^ a) by (apply Z.pow_pos_nonneg; lia).
  assert (Hpb : 0 < 2 ^ b) by (apply Z.pow_pos_nonneg; lia).
  assert (Hsa : 2 ^ (a + 1) = 2 * 2 ^ a) by (rewrite Z.pow_add_r by lia; lia).
  assert (Hsb : 2 ^ (b + 1) = 2 * 2 ^ b) by (rewrite Z.pow_add_r by lia; lia).
  assert (Hlow : (2 ^ (a - b - 1) <= x)%Q).
  { replace (a - b - 1) with (a - (b + 1)) by lia.
    rewrite Qpower_minus by exact two_not_zero.
    rewrite (two_power_Z a), (two_power_Z (b + 1)) by lia.
    rewrite (Q_as_fraction x).
    apply Zfrac_le; nia. }
  assert (Hhigh : (x < 2 ^ (a - b + 1))%Q).
  { replace (a - b + 1) with (a + 1 - b) by lia.
    rewrite Qpower_minus by exact two_not_zero.
    rewrite (two_power_Z (a + 1)), (two_power_Z b) by lia.
    rewrite (Q_as_fraction x).
    apply Zfrac_lt; nia. }
  destruct (Qle_bool (2 ^ (a - b)) x) eqn:E.
  - apply Qle_bool_iff in E. split; assumption.
  - split; [exact Hlow|].
    replace (a - b - 1 + 1) with (a - b) by lia.
    apply Qnot_le_lt. intros H. apply Qle_bool_iff in H. congruence.
Qed.

Lemma exponent_unique (x : Q) (e : Z) :
  (2 ^ e <= x < 2 ^ (e + 1))%Q -> (0 < x)%Q -> exponent x = e.
Proof.
  intros [Hlo Hhi] Hx. destruct (exponent_spec x Hx) as [Hlo' Hhi'].
  assert (H1 : exponent x < e + 1).
  { apply (Qpower_lt_compat_l_inv 2); [|reflexivity].
    eapply Qle_lt_trans; eassumption. }
  assert (H2 : e < exponent x + 1).
  { apply (Qpower_lt_compat_l_inv 2); [|reflexivity].
    eapply Qle_lt_trans; eassumption. }
  lia.
Qed.

Lemma exponent_comp (x y : Q) : (x == y)%Q -> (0 < x)%Q -> exponent x = exponent y.
Proof.
  intros E Hx. symmetry. apply exponent_unique.
  - rewrite <- E. apply exponent_spec, Hx.
  - rewrite <- E. exact Hx.
Qed.

Lemma exponent_below (x : Q) (k : Z) :
  (0 < x)%Q -> (x < 2 ^ k)%Q -> exponent x < k.
Proof.
  intros Hx Hk. destruct (exponent_spec x Hx) as [Hlo _].
  apply (Qpower_lt_compat_l_inv 2); [|reflexivity].
  eapply Qle_lt_trans; eassumption.
Qed.

Lemma exponent_above (x : Q) (k : Z) :
  (0 < x)%Q -> (2 ^ k <= x)%Q -> k <= exponent x.
Proof.
  intros Hx Hk. destruct (exponent_spec x Hx) as [_ Hhi].
  assert (k < exponent x + 1); [|lia].
  apply (Qpower_lt_compat_l_inv 2); [|reflexivity].
  eapply Qle_lt_trans; eassumption.
Qed.

(** ** Rounding to the nearest integer *)

Lemma nearest_even_floor (m : Q) :
  nearest_even m = Qfloor m \/ nearest_even m = Qfloor m + 1.
Proof.
  unfold nearest_even.
  destruct (m - inject_Z (Qfloor m) ?= 1 # 2)%Q; [|tauto|tauto].
  destruct (Z.even (Qfloor m)); tauto.
Qed.

Lemma nearest_even_above (m : Q) (j : Z) :
  (inject_Z j <= m)%Q -> j <= nearest_even m.
Proof.
  intros H. assert (j <= Qfloor m).
  { rewrite <- (Qfloor_Z j). apply Qfloor_resp_le, H. }
  destruct (nearest_even_floor m); lia.
Qed.

Lemma nearest_even_below (m : Q) (j : Z) :
  (m <= inject_Z j)%Q -> nearest_even m <= j.
Proof.
  intros H. assert (Hf : Qfloor m <= j).
  { rewrite <- (Qfloor_Z j). apply Qfloor_resp_le, H. }
  destruct (Z.eq_dec (Qfloor m) j) as [E|E].
  - unfold nearest_even. rewrite E.
    destruct (Qcompare_spec (m - inject_Z j) (1 # 2)) as [Hc|Hc|Hc];
      try lia; exfalso; lra.
  - destruct (nearest_even_floor m); lia.
Qed.

Lemma nearest_even_of_integer (m : Q) (j : Z) :
  (m == inject_Z j)%Q -> nearest_even m = j.
Proof.
  intros E.
  pose proof (nearest_even_above m j) as H1.
  pose proof (nearest_even_below m j) as H2.
  assert (j <= nearest_even m) by (apply H1; lra).
  assert (nearest_even m <= j) by (apply H2; lra).
  lia.
Qed.

Lemma nearest_even_error (m : Q) :
  (m - (1 # 2) <= inject_Z (nearest_even m) <= m + (1 # 2))%Q.
Proof.
  pose proof (Qfloor_le m) as Hlo. pose proof (Qlt_floor m) as Hhi.
  unfold nearest_even. set (f := Qfloor m) in *.
  assert (Hf1 : (inject_Z (f + 1) == inject_Z f + 1)%Q).
  { rewrite inject_Z_plus. reflexivity. }
  rewrite Hf1 in Hhi.
  destruct (Qcompare_spec (m - inject_Z f) (1 # 2)) as [Hc|Hc|Hc].
  - destruct (Z.even f); rewrite ?Hf1; lra.
  - lra.
  - rewrite Hf1. lra.
Qed.

Lemma nearest_even_comp (m m' : Q) : (m == m')%Q -> nearest_even m = nearest_even m'.
Proof.
  intros E. unfold nearest_even.
  rewrite (Qfloor_comp _ _ E).
  assert (E' : (m - inject_Z (Qfloor m') == m' - inject_Z (Qfloor m'))%Q) by lra.
  rewrite (Qcompare_comp _ _ E' _ _ (Qeq_refl (1 # 2))). reflexivity.
Qed.

(** ** Rounding a positive rational *)

Lemma scaled_error (x u : Q) (n : Z) :
  (0 < u)%Q ->
  (x / u - (1 # 2) <= inject_Z n <= x / u + (1 # 2))%Q ->
  (x - u * (1 # 2) <= inject_Z n * u <= x + u * (1 # 2))%Q.
Proof.
  intros Hu [Hlo Hhi].
  assert (E1 : ((x / u - (1 # 2)) * u == x - u * (1 # 2))%Q) by (field; lra).
  assert (E2 : ((x / u + (1 # 2)) * u == x + u * (1 # 2))%Q) by (field; lra).
  rewrite <- E1, <- E2.
  split; apply Qmult_le_compat_r; lra.
Qed.

Lemma reduced_Qred (q : Q) : reduced (Qred q).
Proof. apply Qred_complete, Qred_correct. Qed.

Lemma reduced_eq (p q : Q) : reduced p -> reduced q -> (p == q)%Q -> p = q.
Proof. intros Hp Hq E. rewrite <- Hp, <- Hq. apply Qred_complete, E. Qed.

Lemma Qle_bool_false (x y : Q) : (y < x)%Q -> Qle_bool x y = false.
Proof.
  intros H. destruct (Qle_bool x y) eqn:E; [|reflexivity].
  apply Qle_bool_iff in E. lra.
Qed.

(** On a grid of spacing [2^s] that the precision allows for [x], rounding
    never crosses a grid point. *)
Lemma round_positive_grid (s : Z) (x : Q) :
  (0 < x)%Q -> (x < 2 ^ (s + 53))%Q -> -1074 <= s -> s + 53 <= 1023 ->
  exists q,
    round_positive x = Fin q /\ reduced q /\ (0 <= q)%Q /\
    (forall c, (inject_Z c * 2 ^ s <= x)%Q -> (inject_Z c * 2 ^ s <= q)%Q) /\
    (forall c, (x <= inject_Z c * 2 ^ s)%Q -> (q <= inject_Z c * 2 ^ s)%Q).
Proof.
  intros Hx Hhi Hs Hs'.
  pose proof (exponent_below x (s + 53) Hx Hhi) as He.
  unfold round_positive.
  set (e := Z.max (exponent x) (-1022)).
  assert (Hk : 0 <= s - (e - 52)) by lia.
  set (u := (2 ^ (e - 52))%Q).
  assert (Hu : (0 < u)%Q) by apply two_power_positive.
  assert (Hgrid : (2 ^ s == inject_Z (2 ^ (s - (e - 52))) * u)%Q).
  { unfold u. rewrite <- two_power_Z by exact Hk.
    rewrite <- Qpower_plus by exact two_not_zero.
    replace (s - (e - 52) + (e - 52)) with s by lia. reflexivity. }
  set (n := nearest_even (x / u)).
  set (y := (inject_Z n * u)%Q).
  assert (Hlower : forall c, (inject_Z c * 2 ^ s <= x)%Q -> (inject_Z c * 2 ^ s <= y)%Q).
  { intros c Hc. rewrite Hgrid in Hc |- *. unfold y.
    rewrite Qmult_assoc, <- inject_Z_mult in Hc |- *.
    apply Qmult_le_compat_r; [|lra].
    rewrite <- Zle_Qle. apply nearest_even_above.
    apply Qle_shift_div_l; assumption. }
  assert (Hupper : forall c, (x <= inject_Z c * 2 ^ s)%Q -> (y <= inject_Z c * 2 ^ s)%Q).
  { intros c Hc. rewrite Hgrid in Hc |- *. unfold y.
    rewrite Qmult_assoc, <- inject_Z_mult in Hc |- *.
    apply Qmult_le_compat_r; [|lra].
    rewrite <- Zle_Qle. apply nearest_even_below.
    apply Qle_shift_div_r; assumption. }
  assert (Hfinite : (y < 2 ^ 1024)%Q).
  { apply Qle_lt_trans with (2 ^ (s + 53))%Q.
    - assert (E : (2 ^ (s + 53) == inject_Z (2 ^ 53) * 2 ^ s)%Q).
      { rewrite <- two_power_Z by lia.
        rewrite <- Qpower_plus by exact two_not_zero.
        replace (53 + s) with (s + 53) by lia. reflexivity. }
      rewrite E. apply Hupper. rewrite <- E. lra.
    - apply two_power_lt. lia. }
  rewrite (Qle_bool_false _ _ Hfinite).
  exists (Qred y). split; [reflexivity|]. split; [apply reduced_Qred|].
  split; [|split].
  - rewrite Qred_correct. specialize (Hlower 0).
    assert (E0 : (inject_Z 0 * 2 ^ s == 0)%Q) by ring.
    rewrite E0 in Hlower. apply Hlower. lra.
  - intros c Hc. rewrite Qred_correct. apply Hlower, Hc.
  - intros c Hc. rewrite Qred_correct. apply Hupper, Hc.
Qed.

(** The relative error of rounding is at most [2^-53]; below the normal
    range the result stays below 1/2. *)
Lemma round_positive_error (x : Q) :
  (0 < x)%Q -> (x < 2 ^ 1023)%Q ->
  exists q,
    round_positive x = Fin q /\ reduced q /\ (0 <= q)%Q /\
    ((q <= x + x * 2 ^ (-53))%Q \/ (q <= 1 # 4)%Q).
Proof.
  intros Hx Hhi.
  pose proof (exponent_below x 1023 Hx Hhi) as He.
  destruct (exponent_spec x Hx) as [Hlo Hup].
  unfold round_positive.
  set (e := Z.max (exponent x) (-1022)).
  set (u := (2 ^ (e - 52))%Q).
  assert (Hu : (0 < u)%Q) by apply two_power_positive.
  set (n := nearest_even (x / u)).
  set (y := (inject_Z n * u)%Q).
  pose proof (scaled_error x u n Hu (nearest_even_error (x / u))) as [_ Hy].
  assert (Hy0 : (0 <= inject_Z n * u)%Q).
  { apply Qmult_le_0_compat; [|lra].
    change 0%Q with (inject_Z 0). rewrite <- Zle_Qle.
    apply nearest_even_above. change (inject_Z 0) with 0%Q.
    apply Qle_shift_div_l; [exact Hu | lra]. }
  fold y in Hy, Hy0. clearbody y.
  assert (Hu1023 : (u <= 2 ^ 1023)%Q) by (apply two_power_le; lia).
  assert (E1024 : (2 ^ 1024 == 2 ^ 1023 * 2)%Q) by (apply (two_power_succ 1023)).
  assert (Hfinite : (y < 2 ^ 1024)%Q).
  { rewrite E1024. pose proof (two_power_positive 1023) as Htop.
    remember (2 ^ 1023)%Q as top. lra. }
  rewrite (Qle_bool_false _ _ Hfinite).
  exists (Qred y). split; [reflexivity|]. split; [apply reduced_Qred|].
  rewrite Qred_correct. split; [exact Hy0|].
  destruct (Z.le_gt_cases (-1022) (exponent x)) as [Hnormal|Hsub].
  - left.
    assert (Ee : e = exponent x) by lia.
    assert (Eu : (u * (1 # 2) == 2 ^ exponent x * 2 ^ (-53))%Q).
    { unfold u. rewrite Ee.
      rewrite <- Qpower_plus by exact two_not_zero.
      replace (exponent x + -53) with (exponent x - 52 - 1) by lia.
      rewrite (Qpower_minus 2 (exponent x - 52) 1) by exact two_not_zero.
      reflexivity. }
    assert (Hp : (0 < 2 ^ (-53))%Q) by apply two_power_positive.
    assert (Hmul : (2 ^ exponent x * 2 ^ (-53) <= x * 2 ^ (-53))%Q).
    { apply Qmult_le_compat_r; lra. }
    remember (2 ^ (-53))%Q as eps. remember (2 ^ exponent x)%Q as lowest. lra.
  - right.
    assert (Ee : e = -1022) by lia.
    assert (Hx' : (x < 2 ^ (-1022))%Q).
    { eapply Qlt_le_trans; [exact Hup|]. apply two_power_le. lia. }
    assert (Hu' : (u <= 2 ^ (-1022))%Q).
    { unfold u. rewrite Ee. apply two_power_le. lia. }
    assert (E1021 : (2 ^ (-1021) == 2 ^ (-1022) * 2)%Q)
      by (apply (two_power_succ (-1022))).
    assert (Hhalf : (2 ^ (-1021) <= 2 ^ (-2))%Q) by (apply two_power_le; lia).
    assert (E1 : (2 ^ (-2) == 1 # 4)%Q) by reflexivity.
    remember (2 ^ (-1022))%Q as tiny. remember (2 ^ (-1021))%Q as tiny2.
    remember (2 ^ (-2))%Q as quarter. lra.
Qed.

Lemma round_positive_comp (x x' : Q) :
  (x == x')%Q -> (0 < x)%Q -> round_positive x = round_positive x'.
Proof.
  intros E Hx. unfold round_positive.
  rewrite <- (exponent_comp x x' E Hx).
  set (u := (2 ^ (Z.max (exponent x) (-1022) - 52))%Q).
  assert (Em : (x / u == x' / u)%Q) by (rewrite E; reflexivity).
  rewrite <- (nearest_even_comp _ _ Em).
  reflexivity.
Qed.

Lemma round64_comp (x x' : Q) : (x == x')%Q -> round64 x = round64 x'.
Proof.
  intros E. unfold round64.
  rewrite <- (Qcompare_comp _ _ E _ _ (Qeq_refl 0)).
  destruct (Qcompare_spec x 0) as [H|H|H]; [reflexivity| |].
  - rewrite (round_positive_comp (- x) (- x')); [reflexivity|lra|lra].
  - rewrite (round_positive_comp x x'); [reflexivity|lra|lra].
Qed.

(** ** Numbers that rounding leaves as they are *)

Lemma Qred_inject_Z (z : Z) : Qred (inject_Z z) = inject_Z z.
Proof.
  unfold Qred, inject_Z.
  pose proof (Z.ggcd_gcd z 1) as Hg.
  pose proof (Z.ggcd_correct_divisors z 1) as Hd.
  destruct (Z.ggcd z 1) as [g [aa bb]]. simpl in Hg, Hd |- *.
  rewrite Z.gcd_1_r in Hg. subst g. destruct Hd as [Ha Hb].
  replace aa with z by lia. replace bb with 1 by lia. reflexivity.
Qed.

Lemma round_positive_integer (z : Z) :
  0 < z < 2 ^ 53 -> round_positive (inject_Z z) = Fin (inject_Z z).
Proof.
  intros [Hz Hlt].
  assert (Hx : (0 < inject_Z z)%Q).
  { change 0%Q with (inject_Z 0). rewrite <- Zlt_Qlt. exact Hz. }
  assert (Hhi : (inject_Z z < 2 ^ (0 + 53))%Q).
  { rewrite two_power_Z by lia. rewrite <- Zlt_Qlt. exact Hlt. }
  destruct (round_positive_grid 0 (inject_Z z) Hx Hhi ltac:(lia) ltac:(lia))
    as (q & Hq & Hred & _ & Hlower & Hupper).
  rewrite Hq. f_equal.
  apply reduced_eq; [exact Hred | apply Qred_inject_Z|].
  assert (E : (inject_Z z * 2 ^ 0 == inject_Z z)%Q) by (rewrite Qpower_0_r; ring).
  specialize (Hlower z). specialize (Hupper z). rewrite E in Hlower, Hupper.
  apply Qle_antisym; [apply Hupper | apply Hlower]; apply Qle_refl.
Qed.

(** Every integer of magnitude below [2^53] is a binary64 value. *)
Lemma round64_integer (z : Z) :
  - 2 ^ 53 < z < 2 ^ 53 -> round64 (inject_Z z) = Fin (inject_Z z).
Proof.
  intros Hz. unfold round64.
  destruct (Qcompare_spec (inject_Z z) 0) as [H|H|H].
  - f_equal. unfold Qeq in H. simpl in H.
    replace z with 0 by lia. reflexivity.
  - assert (Hneg : z < 0) by (unfold Qlt in H; simpl in H; lia).
    change (- inject_Z z)%Q with (inject_Z (- z)).
    rewrite round_positive_integer by lia.
    f_equal. change (- inject_Z (- z))%Q with (inject_Z (- - z)).
    rewrite Z.opp_involutive. apply Qred_inject_Z.
  - assert (Hpos : 0 < z) by (unfold Qlt in H; simpl in H; lia).
    apply round_positive_integer. lia.
Qed.

(** ** Arithmetic on integers *)

Lemma add_ofZ (x y : Z) : safe (x + y) -> Num.add (ofZ x) (ofZ y) = ofZ (x + y).
Proof.
  intros H. unfold Num.add, ofZ.
  rewrite (round64_comp _ (inject_Z (x + y))) by (rewrite inject_Z_plus; reflexivity).
  apply round64_integer, H.
Qed.

Lemma sub_ofZ (x y : Z) : safe (x - y) -> Num.sub (ofZ x) (ofZ y) = ofZ (x - y).
Proof.
  intros H. unfold Num.sub, Num.neg, Num.add, ofZ.
  rewrite (round64_comp _ (inject_Z (x - y))).
  - apply round64_integer, H.
  - rewrite Qred_correct. unfold Z.sub. rewrite inject_Z_plus, inject_Z_opp. reflexivity.
Qed.

Lemma mul_ofZ (x y : Z) : safe (x * y) -> Num.mul (ofZ x) (ofZ y) = ofZ (x * y).
Proof.
  intros H. unfold Num.mul, ofZ.
  rewrite (round64_comp _ (inject_Z (x * y))) by (rewrite inject_Z_mult; reflexivity).
  apply round64_integer, H.
Qed.

Lemma Qeq_bool_inject_Z_0 (y : Z) : y <> 0 -> Qeq_bool (inject_Z y) 0 = false.
Proof.
  intros Hy. destruct (Qeq_bool (inject_Z y) 0) eqn:E; [|reflexivity].
  apply Qeq_bool_eq in E. unfold Qeq in E. simpl in E. lia.
Qed.

Lemma div_mul_ofZ (b q : Z) :
  b <> 0 -> safe q -> Num.div (ofZ (b * q)) (ofZ b) = ofZ q.
Proof.
  intros Hb Hq. unfold Num.div, ofZ.
  rewrite (Qeq_bool_inject_Z_0 b Hb).
  rewrite (round64_comp _ (inject_Z q)).
  - apply round64_integer, Hq.
  - rewrite inject_Z_mult. field.
    intros E. unfold Qeq in E. simpl in E. lia.
Qed.

Lemma two_power_minus_53 : (2 ^ (-53) == 1 # 9007199254740992)%Q.
Proof. reflexivity. Qed.

Lemma round64_zero (x : Q) : (x == 0)%Q -> round64 x = Fin 0.
Proof. intros E. rewrite (round64_comp x 0 E). reflexivity. Qed.

Lemma round64_positive (x : Q) : (0 < x)%Q -> round64 x = round_positive x.
Proof.
  intros H. unfold round64.
  destruct (Qcompare_spec x 0) as [E|E|E]; [lra | lra | reflexivity].
Qed.

Lemma round64_negative (x : Q) :
  (x < 0)%Q ->
  round64 x = match round_positive (- x) with
              | Fin q => Fin (Qred (- q))
              | _ => NegInf
              end.
Proof.
  intros H. unfold round64.
  destruct (Qcompare_spec x 0) as [E|E|E]; [lra | reflexivity | lra].
Qed.

Lemma round_of_draw (r N : Q) :
  (0 < r)%Q -> (r <= 1 - 2 ^ (-53))%Q -> (1 <= N)%Q -> (N < 2 ^ 53)%Q ->
  exists q, round_positive (r * N) = Fin q /\ reduced q /\ (0 <= q < N)%Q.
Proof.
  intros Hr0 Hr1 HN Hlt. rewrite two_power_minus_53 in Hr1.
  assert (Htop : (2 ^ 53 <= 2 ^ 1023)%Q) by (apply two_power_le; lia).
  assert (Hx : (0 < r * N)%Q) by (apply Qmult_lt_0_compat; lra).
  assert (Hle : (r * N <= (1 - (1 # 9007199254740992)) * N)%Q).
  { apply Qmult_le_compat_r; lra. }
  assert (Hhi : (r * N < 2 ^ 1023)%Q).
  { remember (2 ^ 53)%Q as a. remember (2 ^ 1023)%Q as b.
    remember (r * N)%Q as x. lra. }
  destruct (round_positive_error (r * N) Hx Hhi) as (q & Hq & Hred & Hq0 & Hbound).
  exists q. split; [exact Hq|]. split; [exact Hred|]. split; [exact Hq0|].
  rewrite two_power_minus_53 in Hbound.
  remember (r * N)%Q as x. clear - Hbound Hle HN. destruct Hbound; lra.
Qed.

(** [Math.floor(r * n)] for a draw [r] and an integer [n]: an integer from 0
    to [n - 1], or from [n] to 0 when [n] is not positive. *)
Lemma floor_of_draw (r : Q) (n : Z) :
  (0 <= r <= 1 - 2 ^ (-53))%Q -> safe n ->
  exists k,
    Num.floor (Num.mul (Fin r) (ofZ n)) = ofZ k /\
    (0 < n -> 0 <= k < n) /\ (n <= 0 -> n <= k <= 0).
Proof.
  intros [Hr0 Hr1] [Hlo Hhi].
  unfold Num.mul, ofZ.
  assert (E53 : (2 ^ 53 == inject_Z (2 ^ 53))%Q) by (apply two_power_Z; lia).
  destruct (Qeq_dec r 0) as [Hzero|Hnz].
  { rewrite round64_zero by (rewrite Hzero; ring).
    exists 0. split; [reflexivity | lia]. }
  assert (Hr : (0 < r)%Q) by lra.
  destruct (Z.lt_trichotomy n 0) as [Hneg | [-> | Hpos]].
  - assert (HN : (1 <= inject_Z (- n))%Q).
    { change 1%Q with (inject_Z 1). rewrite <- Zle_Qle. lia. }
    assert (Hlt : (inject_Z (- n) < 2 ^ 53)%Q).
    { rewrite E53, <- Zlt_Qlt. lia. }
    destruct (round_of_draw r (inject_Z (- n)) Hr Hr1 HN Hlt)
      as (q & Hq & Hred & Hq0 & Hqn).
    assert (E : (- (r * inject_Z n) == r * inject_Z (- n))%Q).
    { rewrite inject_Z_opp. ring. }
    assert (Hx : (r * inject_Z n < 0)%Q).
    { assert (0 < r * inject_Z (- n))%Q by (apply Qmult_lt_0_compat; lra). lra. }
    rewrite (round64_negative _ Hx).
    rewrite (round_positive_comp _ _ E) by lra.
    rewrite Hq. exists (Qfloor (Qred (- q))).
    split; [reflexivity|]. split; [lia|]. intros _.
    rewrite (Qfloor_comp _ _ (Qred_correct (- q))).
    split.
    + rewrite <- (Qfloor_Z n). apply Qfloor_resp_le.
      rewrite inject_Z_opp in Hqn. lra.
    + rewrite <- (Qfloor_Z 0). apply Qfloor_resp_le. change (inject_Z 0) with 0%Q. lra.
  - rewrite round64_zero by (change (inject_Z 0) with 0%Q; ring).
    exists 0. split; [reflexivity | lia].
  - assert (HN : (1 <= inject_Z n)%Q).
    { change 1%Q with (inject_Z 1). rewrite <- Zle_Qle. lia. }
    assert (Hlt : (inject_Z n < 2 ^ 53)%Q).
    { rewrite E53, <- Zlt_Qlt. lia. }
    destruct (round_of_draw r (inject_Z n) Hr Hr1 HN Hlt)
      as (q & Hq & Hred & Hq0 & Hqn).
    rewrite round64_positive by (apply Qmult_lt_0_compat; lra).
    rewrite Hq. exists (Qfloor q).
    split; [reflexivity|]. split; [|lia]. intros _. split.
    + rewrite <- (Qfloor_Z 0). apply Qfloor_resp_le. exact Hq0.
    + rewrite Zlt_Qlt. apply Qle_lt_trans with q; [apply Qfloor_le | exact Hqn].
Qed.

Lemma Fin_injective (p q : Q) : Fin p = Fin q -> p = q.
Proof. intros H. injection H as H. exact H. Qed.

(** [Math.floor(x / y)] for integers [0 <= x < 2^53] and [y >= 1] is the
    integer quotient. *)
Lemma floor_div_ofZ (x y : Z) :
  0 <= x < 2 ^ 53 -> 1 <= y ->
  Num.floor (Num.div (ofZ x) (ofZ y)) = ofZ (x / y).
Proof.
  intros [Hx0 Hx] Hy. unfold Num.div, ofZ.
  rewrite (Qeq_bool_inject_Z_0 y) by lia.
  assert (HY : (1 <= inject_Z y)%Q).
  { change 1%Q with (inject_Z 1). rewrite <- Zle_Qle. exact Hy. }
  destruct (Z.eq_dec x 0) as [->|Hnz].
  { rewrite round64_zero by (field; lra).
    rewrite Z.div_0_l by lia. reflexivity. }
  assert (HX : (1 <= inject_Z x)%Q).
  { change 1%Q with (inject_Z 1). rewrite <- Zle_Qle. lia. }
  assert (E53 : (2 ^ 53 == inject_Z (2 ^ 53))%Q) by (apply two_power_Z; lia).
  assert (HX53 : (inject_Z x < inject_Z (2 ^ 53))%Q) by (rewrite <- Zlt_Qlt; exact Hx).
  set (t := (inject_Z x / inject_Z y)%Q).
  assert (Et : (t * inject_Z y == inject_Z x)%Q) by (unfold t; field; lra).
  assert (Ht0 : (0 < t)%Q).
  { unfold t. apply Qlt_shift_div_l; lra. }
  assert (Htx : (t <= inject_Z x)%Q).
  { unfold t. apply Qle_shift_div_r; [lra|].
    rewrite <- (Qmult_1_r (inject_Z x)) at 1.
    apply Qmult_le_l; lra. }
  assert (Ht53 : (t < 2 ^ (0 + 53))%Q) by (cbn [Z.add]; rewrite E53; lra).
  assert (Ht1023 : (t < 2 ^ 1023)%Q).
  { eapply Qlt_le_trans; [exact Ht53 | apply two_power_le; lia]. }
  rewrite (round64_positive t Ht0).
  destruct (round_positive_grid 0 t Ht0 Ht53 ltac:(lia) ltac:(lia))
    as (q & Hq & _ & _ & Hlower & _).
  destruct (round_positive_error t Ht0 Ht1023) as (q' & Hq' & _ & _ & Hbound).
  rewrite Hq in Hq'. apply Fin_injective in Hq'. subst q'.
  rewrite Hq. cbn [Num.floor]. unfold ofZ. do 2 f_equal.
  pose proof (Z.div_mod x y ltac:(lia)) as Hdm.
  pose proof (Z.mod_pos_bound x y ltac:(lia)) as Hmod.
  pose proof (Z.div_pos x y ltac:(lia) ltac:(lia)) as Hk0.
  set (k := x / y) in *. set (f := x mod y) in *.
  assert (EX : (inject_Z x == inject_Z k * inject_Z y + inject_Z f)%Q).
  { rewrite <- inject_Z_mult, <- inject_Z_plus. rewrite Hdm at 1.
    rewrite Z.mul_comm. reflexivity. }
  assert (HF : (inject_Z f + 1 <= inject_Z y)%Q).
  { change 1%Q with (inject_Z 1). rewrite <- inject_Z_plus, <- Zle_Qle. lia. }
  assert (HK0 : (0 <= inject_Z k)%Q).
  { change 0%Q with (inject_Z 0). rewrite <- Zle_Qle. exact Hk0. }
  assert (HF0 : (0 <= inject_Z f)%Q).
  { change 0%Q with (inject_Z 0). rewrite <- Zle_Qle. lia. }
  apply Z.le_antisymm.
  - (* the floor is at most the quotient *)
    assert (Hlt : (q < inject_Z (k + 1))%Q).
    { rewrite inject_Z_plus. change (inject_Z 1) with 1%Q.
      destruct Hbound as [Hb|Hb]; [|lra].
      rewrite two_power_minus_53 in Hb.
      apply (Qmult_lt_r _ _ (inject_Z y)); [lra|].
      assert (Hb' : (q * inject_Z y
                     <= (t + t * (1 # 9007199254740992)) * inject_Z y)%Q).
      { apply Qmult_le_compat_r; lra. }
      assert (Ee : ((t + t * (1 # 9007199254740992)) * inject_Z y
                    == inject_Z x + inject_Z x * (1 # 9007199254740992))%Q).
      { rewrite <- Et. ring. }
      rewrite Ee in Hb'.
      change (inject_Z (2 ^ 53)) with 9007199254740992%Q in HX53.
      remember (q * inject_Z y)%Q as qy. remember (inject_Z k * inject_Z y)%Q as ky.
      assert (Eg : ((inject_Z k + 1) * inject_Z y == ky + inject_Z y)%Q)
        by (subst ky; ring).
      rewrite Eg. lra. }
    assert (Qfloor q < k + 1); [|lia].
    rewrite Zlt_Qlt. eapply Qle_lt_trans; [apply Qfloor_le | exact Hlt].
  - rewrite <- (Qfloor_Z k). apply Qfloor_resp_le.
    assert (E : (inject_Z k * 2 ^ 0 == inject_Z k)%Q) by (rewrite Qpower_0_r; ring).
    rewrite <- E. apply Hlower. rewrite E.
    apply Qle_shift_div_l; [lra|]. lra.
Qed.

(** [Math.round(p / 100)] for an integer [0 <= p < 2^53] is the integer
    nearest to [p / 100], a half going up. *)
Lemma round_div_100_ofZ (p : Z) :
  0 <= p < 2 ^ 53 ->
  Num.round (Num.div (ofZ p) (ofZ 100)) = ofZ ((2 * p + 100) / 200).
Proof.
  intros [Hp0 Hp]. unfold Num.div, ofZ.
  replace (Qeq_bool (inject_Z 100) 0) with false by reflexivity.
  change (inject_Z p / inject_Z 100)%Q with (inject_Z p * (1 # 100))%Q.
  destruct (Z.eq_dec p 0) as [->|Hnz].
  { rewrite round64_zero by reflexivity. reflexivity. }
  assert (HP : (1 <= inject_Z p)%Q).
  { change 1%Q with (inject_Z 1). rewrite <- Zle_Qle. lia. }
  assert (HP53 : (inject_Z p < inject_Z (2 ^ 53))%Q) by (rewrite <- Zlt_Qlt; exact Hp).
  change (inject_Z (2 ^ 53)) with 9007199254740992%Q in HP53.
  set (t := (inject_Z p * (1 # 100))%Q).
  assert (Ht0 : (0 < t)%Q) by (unfold t; lra).
  assert (E52 : (2 ^ (-1 + 53) == 4503599627370496)%Q) by reflexivity.
  assert (Ht52 : (t < 2 ^ (-1 + 53))%Q) by (rewrite E52; unfold t; lra).
  assert (Ht1023 : (t < 2 ^ 1023)%Q).
  { eapply Qlt_le_trans; [exact Ht52 | apply two_power_le; lia]. }
  rewrite (round64_positive t Ht0).
  destruct (round_positive_grid (-1) t Ht0 Ht52 ltac:(lia) ltac:(lia))
    as (q & Hq & _ & _ & Hlower & _).
  destruct (round_positive_error t Ht0 Ht1023) as (q' & Hq' & _ & _ & Hbound).
  rewrite Hq in Hq'. apply Fin_injective in Hq'. subst q'.
  rewrite Hq. cbn [Num.round]. unfold ofZ. do 2 f_equal.
  pose proof (Z.div_mod (2 * p + 100) 200 ltac:(lia)) as Hdm.
  pose proof (Z.mod_pos_bound (2 * p + 100) 200 ltac:(lia)) as Hmod.
  set (a := (2 * p + 100) / 200) in *.
  assert (Ha : 100 * a - 50 <= p <= 100 * a + 49) by lia.
  assert (Ha0 : 0 <= a) by lia.
  assert (HA0 : (0 <= inject_Z a)%Q).
  { change 0%Q with (inject_Z 0). rewrite <- Zle_Qle. exact Ha0. }
  assert (Hlo : (100 * inject_Z a <= inject_Z p + 50)%Q).
  { change 100%Q with (inject_Z 100). change 50%Q with (inject_Z 50).
    rewrite <- inject_Z_mult, <- inject_Z_plus, <- Zle_Qle. lia. }
  assert (Hhi : (inject_Z p <= 100 * inject_Z a + 49)%Q).
  { change 100%Q with (inject_Z 100). change 49%Q with (inject_Z 49).
    rewrite <- inject_Z_mult, <- inject_Z_plus, <- Zle_Qle. lia. }
  apply Z.le_antisymm.
  - assert (Hlt : (q + (1 # 2) < inject_Z (a + 1))%Q).
    { rewrite inject_Z_plus. change (inject_Z 1) with 1%Q.
      destruct Hbound as [Hb|Hb]; [|lra].
      rewrite two_power_minus_53 in Hb. unfold t in Hb. lra. }
    assert (Qfloor (q + (1 # 2)) < a + 1); [|lia].
    rewrite Zlt_Qlt. eapply Qle_lt_trans; [apply Qfloor_le | exact Hlt].
  - rewrite <- (Qfloor_Z a). apply Qfloor_resp_le.
    assert (E : (inject_Z (2 * a - 1) * 2 ^ (-1) == inject_Z a - (1 # 2))%Q).
    { unfold Z.sub. rewrite inject_Z_plus, inject_Z_mult.
      change (2 ^ (-1))%Q with (1 # 2)%Q. change (inject_Z 2) with 2%Q.
      change (inject_Z (- (1))) with (- (1))%Q. ring. }
    specialize (Hlower (2 * a - 1)). rewrite E in Hlower.
    assert (inject_Z a - (1 # 2) <= q)%Q; [|lra].
    apply Hlower. unfold t. lra.
Qed.

(** ** Rounding and order *)

Lemma round_positive_values (x : Q) :
  (0 < x)%Q ->
  round_positive x = PosInf
  \/ exists q, round_positive x = Fin q /\ reduced q /\ (0 <= q)%Q.
Proof.
  intros Hx. unfold round_positive.
  set (u := (2 ^ (Z.max (exponent x) (-1022) - 52))%Q).
  assert (Hu : (0 < u)%Q) by apply two_power_positive.
  destruct (Qle_bool _ _); [left; reflexivity|].
  right. eexists. split; [reflexivity|]. split; [apply reduced_Qred|].
  rewrite Qred_correct. apply Qmult_le_0_compat; [|lra].
  change 0%Q with (inject_Z 0). rewrite <- Zle_Qle.
  apply nearest_even_above. change (inject_Z 0) with 0%Q.
  apply Qle_shift_div_l; [exact Hu | lra].
Qed.

Lemma round64_opp (x : Q) : round64 (- x) = Num.neg (round64 x).
Proof.
  destruct (Qcompare_spec x 0) as [H|H|H].
  - rewrite (round64_zero x H), (round64_zero (- x)) by lra. reflexivity.
  - rewrite (round64_negative x H), (round64_positive (- x)) by lra.
    destruct (round_positive_values (- x) ltac:(lra)) as [E | (q & E & Hred & _)];
      rewrite E; [reflexivity|].
    cbn [Num.neg]. f_equal. symmetry.
    apply reduced_eq; [apply reduced_Qred | exact Hred|].
    rewrite !Qred_correct. ring.
  - rewrite (round64_positive x H), (round64_negative (- x)) by lra.
    rewrite (round_positive_comp (- - x) x) by lra.
    destruct (round_positive_values x H) as [E | (q & E & _)];
      rewrite E; reflexivity.
Qed.

(** Rounding does not step over a binary64 value: a positive rational that
    is at most a binary64 value [t] rounds to at most [t]. *)
Lemma round_positive_below (x t : Q) :
  (0 < x)%Q -> (x <= t)%Q -> round_positive t = Fin (Qred t) ->
  exists q, round_positive x = Fin q /\ reduced q /\ (0 <= q <= t)%Q.
Proof.
  intros Hx Hxt Ht.
  assert (Ht0 : (0 < t)%Q) by lra.
  destruct (exponent_spec x Hx) as [Hxlo Hxhi].
  destruct (exponent_spec t Ht0) as [Htlo Hthi].
  assert (He : exponent x <= exponent t).
  { assert (exponent x < exponent t + 1); [|lia].
    apply (Qpower_lt_compat_l_inv 2); [|reflexivity].
    eapply Qle_lt_trans; [exact Hxlo|]. eapply Qle_lt_trans; eassumption. }
  unfold round_positive in Ht |- *.
  set (ex := Z.max (exponent x) (-1022)).
  set (et := Z.max (exponent t) (-1022)) in *.
  set (ux := (2 ^ (ex - 52))%Q). set (ut := (2 ^ (et - 52))%Q) in *.
  assert (Hux : (0 < ux)%Q) by apply two_power_positive.
  assert (Hut : (0 < ut)%Q) by apply two_power_positive.
  set (nt := nearest_even (t / ut)) in *.
  set (nx := nearest_even (x / ux)).
  destruct (Qle_bool (2 ^ 1024) (inject_Z nt * ut)) eqn:Efin; [discriminate|].
  apply Fin_injective in Ht.
  assert (Eyt : (inject_Z nt * ut == t)%Q).
  { rewrite <- (Qred_correct (inject_Z nt * ut)), Ht. apply Qred_correct. }
  assert (Htfin : (t < 2 ^ 1024)%Q).
  { rewrite <- Eyt. apply Qnot_le_lt. intros H. apply Qle_bool_iff in H. congruence. }
  assert (Hnx0 : 0 <= nx).
  { apply nearest_even_above. change (inject_Z 0) with 0%Q.
    apply Qle_shift_div_l; [exact Hux | lra]. }
  assert (Hy0 : (0 <= inject_Z nx * ux)%Q).
  { apply Qmult_le_0_compat; [|lra].
    change 0%Q with (inject_Z 0). rewrite <- Zle_Qle. exact Hnx0. }
  assert (Hyt : (inject_Z nx * ux <= t)%Q).
  { destruct (Z.eq_dec ex et) as [Eq|Hne].
    - (* the same spacing *)
      assert (Eu : ux = ut) by (unfold ux, ut; rewrite Eq; reflexivity).
      rewrite <- Eyt, <- Eu.
      apply Qmult_le_compat_r; [|lra].
      rewrite <- Zle_Qle. unfold nx. apply nearest_even_below.
      apply Qle_shift_div_r; [exact Hux|].
      rewrite Eu, Eyt. exact Hxt.
    - (* a finer spacing: the result is at most the next power of two *)
      assert (Hlt : ex < et) by lia.
      assert (Eet : et = exponent t) by lia.
      assert (Hn53 : nx <= 2 ^ 53).
      { unfold nx. apply nearest_even_below.
        apply Qle_shift_div_r; [exact Hux|].
        rewrite <- two_power_Z by lia. unfold ux.
        rewrite <- Qpower_plus by exact two_not_zero.
        replace (53 + (ex - 52)) with (ex + 1) by lia.
        apply Qlt_le_weak. eapply Qlt_le_trans; [exact Hxhi|].
        apply two_power_le. lia. }
      apply Qle_trans with (2 ^ (ex + 1))%Q.
      + replace (ex + 1) with (53 + (ex - 52)) by lia.
        rewrite Qpower_plus by exact two_not_zero.
        rewrite (two_power_Z 53) by lia. fold ux.
        apply Qmult_le_compat_r; [|lra].
        rewrite <- Zle_Qle. exact Hn53.
      + apply Qle_trans with (2 ^ exponent t)%Q; [|exact Htlo].
        apply two_power_le. lia. }
  rewrite Qle_bool_false by lra.
  eexists. split; [reflexivity|]. split; [apply reduced_Qred|].
  rewrite Qred_correct. split; assumption.
Qed.

(** Nor from below: a rational that is at least a positive binary64 value
    [t] rounds to at least [t], or to infinity. *)
Lemma round_positive_above (x t : Q) :
  (0 < t)%Q -> (t <= x)%Q -> round_positive t = Fin (Qred t) ->
  round_positive x = PosInf
  \/ exists q, round_positive x = Fin q /\ reduced q /\ (t <= q)%Q.
Proof.
  intros Ht0 Htx Ht.
  assert (Hx : (0 < x)%Q) by lra.
  destruct (exponent_spec x Hx) as [Hxlo Hxhi].
  destruct (exponent_spec t Ht0) as [Htlo Hthi].
  assert (He : exponent t <= exponent x).
  { assert (exponent t < exponent x + 1); [|lia].
    apply (Qpower_lt_compat_l_inv 2); [|reflexivity].
    eapply Qle_lt_trans; [exact Htlo|]. eapply Qle_lt_trans; eassumption. }
  unfold round_positive in Ht |- *.
  set (ex := Z.max (exponent x) (-1022)).
  set (et := Z.max (exponent t) (-1022)) in *.
  set (ux := (2 ^ (ex - 52))%Q). set (ut := (2 ^ (et - 52))%Q) in *.
  assert (Hux : (0 < ux)%Q) by apply two_power_positive.
  assert (Hut : (0 < ut)%Q) by apply two_power_positive.
  set (nt := nearest_even (t / ut)) in *.
  set (nx := nearest_even (x / ux)).
  destruct (Qle_bool (2 ^ 1024) (inject_Z nt * ut)) eqn:Efin; [discriminate|].
  apply Fin_injective in Ht.
  assert (Eyt : (inject_Z nt * ut == t)%Q).
  { rewrite <- (Qred_correct (inject_Z nt * ut)), Ht. apply Qred_correct. }
  destruct (Qle_bool (2 ^ 1024) (inject_Z nx * ux)); [left; reflexivity|].
  right. eexists. split; [reflexivity|]. split; [apply reduced_Qred|].
  rewrite Qred_correct.
  destruct (Z.eq_dec ex et) as [Eq|Hne].
  - (* the same spacing *)
    assert (Eu : ux = ut) by (unfold ux, ut; rewrite Eq; reflexivity).
    rewrite <- Eyt, <- Eu.
    apply Qmult_le_compat_r; [|lra].
    rewrite <- Zle_Qle. unfold nx. apply nearest_even_above.
    apply Qle_shift_div_l; [exact Hux|].
    rewrite Eu, Eyt. exact Htx.
  - (* a coarser spacing: the result is at least the power of two below *)
    assert (Hlt : et < ex) by lia.
    assert (Eex : ex = exponent x) by lia.
    assert (Hn52 : 2 ^ 52 <= nx).
    { unfold nx. apply nearest_even_above.
      apply Qle_shift_div_l; [exact Hux|].
      rewrite <- two_power_Z by lia. unfold ux.
      rewrite <- Qpower_plus by exact two_not_zero.
      replace (52 + (ex - 52)) with (exponent x) by lia.
      exact Hxlo. }
    apply Qle_trans with (2 ^ ex)%Q.
    + apply Qlt_le_weak. eapply Qlt_le_trans; [exact Hthi|].
      apply two_power_le. lia.
    + replace ex with (52 + (ex - 52)) at 1 by lia.
      rewrite Qpower_plus by exact two_not_zero.
      rewrite (two_power_Z 52) by lia. fold ux.
      apply Qmult_le_compat_r; [|lra].
      rewrite <- Zle_Qle. exact Hn52.
Qed.


(** *** Some roundings *)

(** Sums, products and quotients that binary64 does not hold exactly:
    [0.1 + 0.2], [29 / 100 * 100], the square of 94906267, the sum of
    [2^53 - 2] and [2^53 - 1], and [0.5 + 2^-60]. *)
Example binary64_roundings :
  Num.add (round64 (1 # 10)) (round64 (2 # 10))
  = Fin (1351079888211149 # 4503599627370496) /\
  Num.mul (Num.div (ofZ 29) (ofZ 100)) (ofZ 100)
  = Fin (8162774324609023 # 281474976710656) /\
  Num.mul (ofZ 94906267) (ofZ 94906267) = ofZ 9007199515875288 /\
  Num.add (ofZ 9007199254740990) (ofZ 9007199254740991) = ofZ 18014398509481980 /\
  Num.sub (Fin (1 # 2)) (Fin (- 1 # 1152921504606846976)) = Fin (1 # 2).
Proof. vm_compute. repeat split. Qed.

(** ** The answer validator *)

Lemma sub_finite (u c : Q) : Num.sub (Fin u) (Fin c) = round64 (u - c).
Proof.
  unfold Num.sub, Num.neg, Num.add. apply round64_comp.
  rewrite Qred_correct. reflexivity.
Qed.

Lemma leb_abs_neg (a tol : number) :
  Num.leb (Num.abs (Num.neg a)) tol = Num.leb (Num.abs a) tol.
Proof.
  destruct a as [q| | |], tol as [t| | |]; try reflexivity.
  cbn [Num.neg Num.abs Num.leb]. apply Qleb_comp; [|reflexivity].
  rewrite Qred_correct. apply Qabs_opp.
Qed.

Lemma validateAnswer_symmetric (u c tol : number) :
  validateAnswer u c tol = validateAnswer c u tol.
Proof.
  destruct u as [x| | |], c as [y| | |]; try reflexivity;
    try (destruct tol; reflexivity).
  unfold validateAnswer. rewrite !sub_finite.
  rewrite (round64_comp (y - x) (- (x - y))) by ring.
  rewrite round64_opp. symmetry. apply leb_abs_neg.
Qed.

Lemma validateAnswer_reflexive (u tol : Q) :
  (0 <= tol)%Q -> validateAnswer (Fin u) (Fin u) (Fin tol) = true.
Proof.
  intros Htol. unfold validateAnswer. rewrite sub_finite.
  rewrite round64_zero by ring.
  cbn [Num.abs Num.leb]. apply Qle_bool_iff. exact Htol.
Qed.

(** When the exact difference is a binary64 value, the validator compares
    it with the tolerance. *)
Lemma validateAnswer_exact (u c tol : Q) :
  representable (u - c) ->
  validateAnswer (Fin u) (Fin c) (Fin tol) = true <-> (Qabs (u - c) <= tol)%Q.
Proof.
  intros Hrep. unfold validateAnswer. rewrite sub_finite, Hrep.
  cbn [Num.abs Num.leb]. rewrite Qle_bool_iff.
  rewrite (Qabs_wd _ _ (Qred_correct (u - c))). reflexivity.
Qed.

(** An answer within a binary64 tolerance of the expected one is accepted. *)
Lemma validateAnswer_within (u c tol : Q) :
  representable tol -> (Qabs (u - c) <= tol)%Q ->
  validateAnswer (Fin u) (Fin c) (Fin tol) = true.
Proof.
  intros Hrep Hle. unfold validateAnswer. rewrite sub_finite.
  pose proof (Qabs_nonneg (u - c)) as Habs.
  destruct (Qcompare_spec (u - c) 0) as [H|H|H].
  - rewrite round64_zero by exact H. cbn [Num.abs Num.leb].
    apply Qle_bool_iff. change (Qabs 0) with 0%Q. lra.
  - (* a negative difference *)
    assert (Hneg : (Qabs (u - c) == - (u - c))%Q) by (apply Qabs_neg; lra).
    assert (Htol : (0 < tol)%Q) by lra.
    unfold representable in Hrep. rewrite round64_positive in Hrep by exact Htol.
    destruct (round_positive_below (- (u - c)) tol ltac:(lra) ltac:(lra) Hrep)
      as (q & Hq & _ & Hq0 & Hqt).
    rewrite round64_negative by exact H. rewrite Hq.
    cbn [Num.abs Num.leb]. apply Qle_bool_iff.
    rewrite (Qabs_wd _ _ (Qred_correct (- q))), Qabs_opp, Qabs_pos; assumption.
  - assert (Htol : (0 < tol)%Q).
    { rewrite Qabs_pos in Hle; lra. }
    rewrite Qabs_pos in Hle by lra.
    unfold representable in Hrep. rewrite round64_positive in Hrep by exact Htol.
    destruct (round_positive_below (u - c) tol H Hle Hrep)
      as (q & Hq & _ & Hq0 & Hqt).
    rewrite round64_positive by exact H. rewrite Hq.
    cbn [Num.abs Num.leb]. apply Qle_bool_iff.
    rewrite Qabs_pos; assumption.
Qed.

(** The absolute value of a rounded rational is not negative. *)
Lemma abs_round64_not_negative (x : Q) : not_negative (Num.abs (round64 x)).
Proof.
  destruct (Qcompare_spec x 0) as [H|H|H].
  - rewrite round64_zero by exact H. cbn [Num.abs not_negative].
    apply Qabs_nonneg.
  - rewrite round64_negative by exact H.
    destruct (round_positive_values (- x) ltac:(lra)) as [E | (q & E & _)];
      rewrite E; cbn [Num.abs not_negative]; [exact I | apply Qabs_nonneg].
  - rewrite round64_positive by exact H.
    destruct (round_positive_values x H) as [E | (q & E & _)];
      rewrite E; cbn [Num.abs not_negative]; [exact I | apply Qabs_nonneg].
Qed.

(** An answer whose distance from the expected one reaches a binary64
    value above the tolerance is rejected. *)
Lemma validateAnswer_beyond (u c tol bound : Q) :
  representable bound -> (tol < bound)%Q -> (bound <= Qabs (u - c))%Q ->
  validateAnswer (Fin u) (Fin c) (Fin tol) = false.
Proof.
  intros Hrep Htol Hle. unfold validateAnswer. rewrite sub_finite.
  destruct (Qlt_le_dec 0 bound) as [Hpos|Hneg].
  - unfold representable in Hrep. rewrite round64_positive in Hrep by exact Hpos.
    destruct (Qcompare_spec (u - c) 0) as [H|H|H].
    + exfalso. rewrite (Qabs_wd _ _ H) in Hle. change (Qabs 0) with 0%Q in Hle. lra.
    + assert (Hd : (bound <= - (u - c))%Q) by (rewrite Qabs_neg in Hle; lra).
      rewrite round64_negative by exact H.
      destruct (round_positive_above (- (u - c)) bound Hpos Hd Hrep)
        as [Hinf | (q & Hq & _ & Hbq)].
      * rewrite Hinf. reflexivity.
      * rewrite Hq. cbn [Num.abs Num.leb]. apply Qle_bool_false.
        rewrite (Qabs_wd _ _ (Qred_correct (- q))), Qabs_opp, Qabs_pos; lra.
    + assert (Hd : (bound <= u - c)%Q) by (rewrite Qabs_pos in Hle; lra).
      rewrite round64_positive by exact H.
      destruct (round_positive_above (u - c) bound Hpos Hd Hrep)
        as [Hinf | (q & Hq & _ & Hbq)].
      * rewrite Hinf. reflexivity.
      * rewrite Hq. cbn [Num.abs Num.leb].
        apply Qle_bool_false. rewrite Qabs_pos; lra.
  - pose proof (abs_round64_not_negative (u - c)) as Habs.
    destruct (Num.abs (round64 (u - c))) as [q| | |]; cbn in Habs;
      try contradiction; [|reflexivity].
    cbn [Num.leb]. apply Qle_bool_false. lra.
Qed.

Lemma default_tolerance_value :
  default_tolerance = Fin (5764607523034235 # 576460752303423488).
Proof. vm_compute. reflexivity. Qed.

Lemma default_tolerance_representable :
  representable (5764607523034235 # 576460752303423488).
Proof. vm_compute. reflexivity. Qed.

Lemma integer_representable (z : Z) : safe z -> representable (inject_Z z).
Proof.
  intros H. unfold representable. rewrite Qred_inject_Z. apply round64_integer, H.
Qed.

(** C9, as amended.  The validator compares the difference of the two
    answers, as binary64 subtraction gives it, with the tolerance.  An
    answer whose exact distance from the expected one is at most a binary64
    tolerance is accepted, and one whose distance reaches a binary64 value
    above the tolerance is rejected; when the exact difference is a
    binary64 value, as for two integers less than [2^53] apart, the
    validator returns [true] exactly when its absolute value is at most the
    tolerance.  The validator is symmetric in its two answers for all
    numbers and tolerances, NaN and the infinities included; every finite
    number is valid against itself when the tolerance is not negative, so
    at the default, which is the binary64 value of [0.01]; and equal inputs
    give equal results. *)
Theorem validateAnswer_spec :
  (forall u c tol : Q,
      representable tol -> (Qabs (u - c) <= tol)%Q ->
      validateAnswer (Fin u) (Fin c) (Fin tol) = true) /\
  (forall u c tol bound : Q,
      representable bound -> (tol < bound)%Q -> (bound <= Qabs (u - c))%Q ->
      validateAnswer (Fin u) (Fin c) (Fin tol) = false) /\
  (forall u c tol : Q,
      representable (u - c) ->
      (validateAnswer (Fin u) (Fin c) (Fin tol) = true
       <-> (Qabs (u - c) <= tol)%Q)) /\
  (forall (a b : Z) (tol : Q),
      safe (a - b) ->
      (validateAnswer (ofZ a) (ofZ b) (Fin tol) = true
       <-> (inject_Z (Z.abs (a - b)) <= tol)%Q)) /\
  (forall u c tol : number, validateAnswer u c tol = validateAnswer c u tol) /\
  (forall u tol : Q,
      (0 <= tol)%Q -> validateAnswer (Fin u) (Fin u) (Fin tol) = true) /\
  (default_tolerance = Fin (5764607523034235 # 576460752303423488) /\
   representable (5764607523034235 # 576460752303423488) /\
   forall u : Q, validateAnswer (Fin u) (Fin u) default_tolerance = true) /\
  (forall u c tol u' c' tol' : number,
      u = u' -> c = c' -> tol = tol' ->
      validateAnswer u c tol = validateAnswer u' c' tol').
Proof.
  split; [exact validateAnswer_within|].
  split; [exact validateAnswer_beyond|].
  split; [exact validateAnswer_exact|].
  split.
  { intros a b tol Hsafe.
    assert (E : (inject_Z a - inject_Z b == inject_Z (a - b))%Q).
    { unfold Z.sub. rewrite inject_Z_plus, inject_Z_opp. reflexivity. }
    unfold ofZ. rewrite validateAnswer_exact.
    - rewrite (Qabs_wd _ _ E). reflexivity.
    - unfold representable. rewrite (round64_comp _ _ E), (Qred_complete _ _ E).
      apply integer_representable, Hsafe. }
  split; [exact validateAnswer_symmetric|].
  split; [exact validateAnswer_reflexive|].
  split.
  - split; [exact default_tolerance_value|].
    split; [exact default_tolerance_representable|].
    intros u. rewrite default_tolerance_value.
    apply validateAnswer_reflexive. discriminate.
  - intros u c tol u' c' tol' -> -> ->. reflexivity.
Qed.

(** The amended C9 at the expected answer 5: the answer 5 + 1/128 is within
    the default tolerance and is accepted; the answer 5 + 1/64 is rejected,
    1/64 being a binary64 value above the tolerance; and the integer 5 is
    accepted when the tolerance is 0. *)
Lemma validateAnswer_spec_witness :
  representable (5764607523034235 # 576460752303423488) /\
  (Qabs ((641 # 128) - 5) <= 5764607523034235 # 576460752303423488)%Q /\
  validateAnswer (Fin (641 # 128)) (Fin 5)
    (Fin (5764607523034235 # 576460752303423488)) = true /\
  representable (1 # 64) /\
  (5764607523034235 # 576460752303423488 < 1 # 64)%Q /\
  (1 # 64 <= Qabs ((321 # 64) - 5))%Q /\
  validateAnswer (Fin (321 # 64)) (Fin 5)
    (Fin (5764607523034235 # 576460752303423488)) = false /\
  safe (5 - 5) /\
  validateAnswer (ofZ 5) (ofZ 5) (Fin 0) = true.
Proof.
  destruct validateAnswer_spec
    as (Hwithin & Hbeyond & _ & Hintegers & _ & _ & (_ & Hrep & _) & _).
  assert (Hle : (Qabs ((641 # 128) - 5) <= 5764607523034235 # 576460752303423488)%Q)
    by (vm_compute; discriminate).
  assert (Hbound : representable (1 # 64)) by (vm_compute; reflexivity).
  assert (Hlt : (5764607523034235 # 576460752303423488 < 1 # 64)%Q)
    by (vm_compute; reflexivity).
  assert (Hge : (1 # 64 <= Qabs ((321 # 64) - 5))%Q) by (vm_compute; discriminate).
  assert (Hsafe : safe (5 - 5)) by (unfold safe; simpl; lia).
  split; [exact Hrep|]. split; [exact Hle|].
  split; [exact (Hwithin _ _ _ Hrep Hle)|].
  split; [exact Hbound|]. split; [exact Hlt|]. split; [exact Hge|].
  split; [exact (Hbeyond _ _ _ _ Hbound Hlt Hge)|].
  split; [exact Hsafe|].
  apply (proj2 (Hintegers 5 5 0%Q Hsafe)). vm_compute. discriminate.
Defined.

(** C9 as stated fails.  With a negative tolerance no number is valid
    against itself, and NaN is not valid against itself at the default
    tolerance.  The answer 0.5 is accepted against [-2^-60] at the tolerance
    0.5, their distance being more than 0.5: the difference is rounded to
    0.5 before it is compared. *)
Lemma validateAnswer_not_as_stated :
  validateAnswer (ofZ 5) (ofZ 5) (ofZ (-1)) = false /\
  validateAnswer NaN NaN default_tolerance = false /\
  validateAnswer (Fin (1 # 2)) (Fin (- 1 # 1152921504606846976)) (Fin (1 # 2)) = true /\
  ~ (Qabs ((1 # 2) - (- 1 # 1152921504606846976)) <= 1 # 2)%Q.
Proof.
  split; [reflexivity|]. split; [reflexivity|]. split; [vm_compute; reflexivity|].
  vm_compute. intros H. apply H. reflexivity.
Qed.

(** At the default tolerance the answer [0.01] is accepted against 0: the
    tolerance and the answer are the same binary64 value, which is above
    one hundredth. *)
Example validateAnswer_at_default_tolerance :
  validateAnswer (round64 (1 # 100)) (ofZ 0) default_tolerance = true /\
  (1 # 100 < 5764607523034235 # 576460752303423488)%Q.
Proof. split; vm_compute; reflexivity. Qed.

(** ** The practice session *)

(** Case analysis on the condition of a conditional in the goal. *)
Ltac destruct_if :=
  match goal with |- context [if ?b then _ else _] => destruct b end.

Section SessionInvariants.

Import PracticeSessionState.

Variable parseFloat : string -> number.
Variable mode : PracticeMode.
Variable config : ProblemConfig.t.
Variable sessionLength timeLimit : Z.

Local Abbreviation step_here := (step parseFloat mode config sessionLength timeLimit).

Lemma startSession_counters now random started random' :
  startSession mode config sessionLength timeLimit now random
  = Return (started, random') ->
  score started = 0 /\ correctAnswers started = 0.
Proof.
  unfold startSession, bind, ret.
  destruct (generateProblemSet now config sessionLength random) as [[ps r]|msg];
    [|discriminate].
  intros H. injection H as <- _. split; reflexivity.
Qed.

Lemma step_score_ratio state e :
  score_ratio state -> score_ratio (step_here state e).
Proof.
  unfold score_ratio. intros Hinv.
  destruct e as [now random| |answer|now|now|]; cbn -[Z.mul Z.add].
  - destruct (startSession mode config sessionLength timeLimit now random)
      as [[started r]|msg] eqn:Hstart; [|exact Hinv].
    apply startSession_counters in Hstart as [-> ->]. reflexivity.
  - unfold tick.
    destruct (negb (isActive state)); [exact Hinv|].
    destruct_if;
      simpl; exact Hinv.
  - unfold submitAnswer.
    destruct (currentProblem state) as [problem|]; [|exact Hinv].
    destruct (negb (isActive state)); [exact Hinv|].
    destruct (validateAnswer _ _ _); cbn [score correctAnswers]; lia.
  - unfold nextProblem.
    destruct_if;
      simpl; exact Hinv.
  - unfold skipProblem, nextProblem.
    destruct_if;
      simpl; exact Hinv.
  - exact Hinv.
Qed.

Lemma submitAnswer_counts_correct answer prev problem :
  currentProblem prev = Some problem -> isActive prev = true ->
  let next := submitAnswer parseFloat answer prev in
  let correct :=
    validateAnswer (parseFloat answer) (MathProblem.answer problem)
      default_tolerance in
  isCorrect next = Some correct /\
  correctAnswers next = correctAnswers prev + (if correct then 1 else 0) /\
  score next = score prev + (if correct then 10 else 0).
Proof.
  intros Hproblem Hactive. unfold submitAnswer. rewrite Hproblem, Hactive.
  cbn [negb isCorrect correctAnswers score]. repeat split.
Qed.

Lemma submitAnswer_ignored answer prev :
  currentProblem prev = None \/ isActive prev = false ->
  submitAnswer parseFloat answer prev = prev.
Proof.
  intros [H|H]; unfold submitAnswer; rewrite H; [reflexivity|].
  destruct (currentProblem prev); reflexivity.
Qed.

Lemma other_updates_keep_counters now prev next :
  next = tick mode prev \/ next = nextProblem now prev
  \/ next = skipProblem now prev \/ next = endSession prev ->
  correctAnswers next = correctAnswers prev /\ score next = score prev.
Proof.
  intros [-> | [-> | [-> | ->]]]; unfold tick, skipProblem, nextProblem, endSession.
  - destruct (negb (isActive prev)); [split; reflexivity|].
    destruct_if;
      split; reflexivity.
  - destruct_if;
      split; reflexivity.
  - destruct_if;
      split; reflexivity.
  - split; reflexivity.
Qed.

(** A property of the first state that every event preserves holds in
    every state a session reaches. *)
Lemma run_invariant (P : t -> Prop) :
  P (initialState mode timeLimit) ->
  (forall state e, P state -> P (step_here state e)) ->
  forall events,
    P (run parseFloat mode config sessionLength timeLimit events).
Proof.
  intros Hinit Hstep events. unfold run.
  generalize (initialState mode timeLimit) Hinit.
  induction events as [|e events IH]; intros state Hstate; simpl.
  - exact Hstate.
  - apply IH, Hstep, Hstate.
Qed.

(** With a time limit that is not negative, the remaining time never is. *)
Lemma timeRemaining_never_negative :
  0 <= timeLimit ->
  forall events,
    match timeRemaining (run parseFloat mode config sessionLength timeLimit events) with
    | Some r => 0 <= r
    | None => True
    end.
Proof.
  intros Hlimit.
  apply (run_invariant
           (fun state => match timeRemaining state with
                         | Some r => 0 <= r
                         | None => True
                         end)).
  - unfold initialState. destruct (is_timed mode); simpl; [exact Hlimit | exact I].
  - intros state e Hinv.
    destruct e as [now random| |answer|now|now|]; cbn [step].
    + unfold startSession, bind, ret.
      destruct (generateProblemSet now config sessionLength random) as [[ps r]|msg];
        [|exact Hinv].
      destruct (is_timed mode); simpl; [exact Hlimit | exact I].
    + unfold tick.
      destruct (negb (isActive state)); [exact Hinv|].
      destruct (is_timed mode); cbn [andb timeRemaining]; [|exact I].
      destruct_if;
        cbn [timeRemaining]; [exact Hinv | lia].
    + unfold submitAnswer.
      destruct (currentProblem state) as [problem|]; [|exact Hinv].
      destruct (negb (isActive state)); exact Hinv.
    + unfold nextProblem.
      destruct_if;
        exact Hinv.
    + unfold skipProblem, nextProblem.
      destruct_if;
        exact Hinv.
    + exact Hinv.
Qed.

End SessionInvariants.

(** C10.  In every state that a session reaches, from the first state of
    the hook through any sequence of starts, ticks, submissions, advances,
    skips and ends, the score is exactly ten times the number of correct
    answers.  [startSession] sets both to 0.  A submission to a running
    session with a current problem is correct exactly when the validator
    accepts the parsed answer against the answer of that problem at the
    default tolerance; a correct one adds 1 to the correct answers and 10
    to the score, a wrong one adds nothing to either; a submission to a
    session that is not running or has no current problem changes nothing.
    Ticks, advances, skips and the end of the session change neither
    counter. *)
Theorem score_is_ten_times_correctAnswers
    (parseFloat : string -> number) (mode : PracticeMode)
    (config : ProblemConfig.t) (sessionLength timeLimit : Z) :
  (forall events,
      let state := run parseFloat mode config sessionLength timeLimit events in
      PracticeSessionState.score state
      = 10 * PracticeSessionState.correctAnswers state) /\
  (forall now random started random',
      startSession mode config sessionLength timeLimit now random
      = Return (started, random') ->
      PracticeSessionState.score started = 0 /\
      PracticeSessionState.correctAnswers started = 0) /\
  (forall answer prev problem,
      PracticeSessionState.currentProblem prev = Some problem ->
      PracticeSessionState.isActive prev = true ->
      let next := submitAnswer parseFloat answer prev in
      let correct :=
        validateAnswer (parseFloat answer) (MathProblem.answer problem)
          default_tolerance in
      PracticeSessionState.isCorrect next = Some correct /\
      PracticeSessionState.correctAnswers next
      = PracticeSessionState.correctAnswers prev + (if correct then 1 else 0) /\
      PracticeSessionState.score next
      = PracticeSessionState.score prev + (if correct then 10 else 0)) /\
  (forall answer prev,
      PracticeSessionState.currentProblem prev = None
      \/ PracticeSessionState.isActive prev = false ->
      submitAnswer parseFloat answer prev = prev) /\
  (forall now prev next,
      next = tick mode prev \/ next = nextProblem now prev
      \/ next = skipProblem now prev \/ next = endSession prev ->
      PracticeSessionState.correctAnswers next
      = PracticeSessionState.correctAnswers prev /\
      PracticeSessionState.score next = PracticeSessionState.score prev).
Proof.
  split; [|split; [|split; [|split]]].
  - apply (run_invariant parseFloat mode config sessionLength timeLimit score_ratio).
    + reflexivity.
    + apply step_score_ratio.
  - apply startSession_counters.
  - apply submitAnswer_counts_correct.
  - apply submitAnswer_ignored.
  - apply other_updates_keep_counters.
Qed.

(** C10 on a session of two additions, each [1 + 1]: the state that
    [startSession] sets; the correct answer 2 and the wrong answer 3 given
    to it; and the state after a correct answer, a wrong one and an
    advance. *)
Lemma score_is_ten_times_correctAnswers_witness :
  let started := additionSession accuracy 2 600 [] in
  let later := additionSession accuracy 2 600 [ESubmit "2"; ESubmit "3"; EAdvance 1] in
  (PracticeSessionState.score started = 0 /\
   PracticeSessionState.correctAnswers started = 0) /\
  (PracticeSessionState.correctAnswers (submitAnswer parseDigits "2" started) = 1 /\
   PracticeSessionState.score (submitAnswer parseDigits "2" started) = 10) /\
  (PracticeSessionState.correctAnswers (submitAnswer parseDigits "3" started) = 0 /\
   PracticeSessionState.score (submitAnswer parseDigits "3" started) = 0) /\
  PracticeSessionState.score later = 10 * PracticeSessionState.correctAnswers later /\
  PracticeSessionState.correctAnswers later = 1.
Proof.
  intros started later.
  pose proof (score_is_ten_times_correctAnswers
                parseDigits accuracy (beginner "addition") 2 600)
    as (Hrun & Hstart & Hsubmit & _).
  assert (Hproblem : exists problem,
             PracticeSessionState.currentProblem started = Some problem /\
             MathProblem.answer problem = ofZ 2).
  { eexists. split; [vm_compute; reflexivity | reflexivity]. }
  destruct Hproblem as (problem & Hproblem & Hanswer).
  assert (Hactive : PracticeSessionState.isActive started = true) by reflexivity.
  pose proof (Hsubmit "2"%string started problem Hproblem Hactive) as (_ & Hc2 & Hs2).
  pose proof (Hsubmit "3"%string started problem Hproblem Hactive) as (_ & Hc3 & Hs3).
  rewrite Hanswer in Hc2, Hs2, Hc3, Hs3.
  split; [|split; [|split; [|split]]].
  - apply (Hstart 0 (constant_rng 0) started (constant_rng 0)). reflexivity.
  - split; [rewrite Hc2 | rewrite Hs2]; reflexivity.
  - split; [rewrite Hc3 | rewrite Hs3]; reflexivity.
  - apply (Hrun [EStart 0 (constant_rng 0); ESubmit "2"; ESubmit "3"; EAdvance 1]).
  - reflexivity.
Defined.

(** C5, evaluated on the code.  With [sessionLength = 0] nothing is
    generated, so nothing throws, whatever the configuration; the state
    that [startSession] sets is active, not complete, and has no current
    problem and no problems. *)
Theorem startSession_zero_length_is_running
    (mode : PracticeMode) (config : ProblemConfig.t) (timeLimit now : Z)
    (random : rng) :
  exists started,
    startSession mode config 0 timeLimit now random = Return (started, random) /\
    PracticeSessionState.isActive started = true /\
    PracticeSessionState.isComplete started = false /\
    PracticeSessionState.currentProblem started = None /\
    PracticeSessionState.problems started = [].
Proof.
  eexists. split; [reflexivity|]. repeat split.
Qed.

(** C8, evaluated on the code.  In a timed session with a limit of two
    seconds the first tick counts: one second elapsed, one remaining, still
    running.  The second tick, on which the remaining time would reach 0,
    completes the session and changes neither counter: the elapsed time
    stays 1 and the remaining time stays 1. *)
Theorem last_tick_is_not_counted :
  let one := twoSeconds [ETick] in
  let two := twoSeconds [ETick; ETick] in
  (PracticeSessionState.isActive one = true /\
   PracticeSessionState.timeElapsed one = 1 /\
   PracticeSessionState.timeRemaining one = Some 1) /\
  (PracticeSessionState.isActive two = false /\
   PracticeSessionState.isComplete two = true /\
   PracticeSessionState.timeElapsed two = 1 /\
   PracticeSessionState.timeRemaining two = Some 1).
Proof. vm_compute. repeat split. Qed.

(** Every other tick of a running session counts one second: it adds 1 to
    the elapsed time, and in timed mode takes 1 from a remaining time of 2
    or more. *)
Lemma tick_counts_a_second (mode : PracticeMode) (prev : PracticeSessionState.t) :
  PracticeSessionState.isActive prev = true ->
  (is_timed mode = true ->
   exists r, PracticeSessionState.timeRemaining prev = Some r /\ 2 <= r) ->
  let next := tick mode prev in
  PracticeSessionState.isActive next = true /\
  PracticeSessionState.timeElapsed next = PracticeSessionState.timeElapsed prev + 1 /\
  PracticeSessionState.timeRemaining next
  = (if is_timed mode
     then option_map (fun r => r - 1) (PracticeSessionState.timeRemaining prev)
     else None).
Proof.
  intros Hactive Hremaining. unfold tick. rewrite Hactive. cbn [negb].
  destruct (is_timed mode) eqn:Hmode.
  - destruct (Hremaining eq_refl) as (r & Hr & Hle). rewrite Hr.
    cbn [andb option_map].
    destruct (Z.eqb_spec (Z.max 0 (r - 1)) 0) as [Hz|Hnz]; [lia|].
    cbn [PracticeSessionState.isActive PracticeSessionState.timeElapsed
         PracticeSessionState.timeRemaining].
    split; [reflexivity|]. split; [reflexivity | f_equal; lia].
  - cbn [andb PracticeSessionState.isActive PracticeSessionState.timeElapsed
         PracticeSessionState.timeRemaining].
    split; [reflexivity|]. split; reflexivity.
Qed.

(** C1, evaluated on the code.  After two problems, both answered correctly
    and left by the automatic advance, the session is complete after four
    seconds and [saveResults] reports two problems solved and two correct
    answers, but an accuracy of 200 and an average time of 4: both are
    taken over the index reached, 1, and not over [problemsSolved], which
    would give 100 and 2. *)
Theorem saveResults_divides_by_index :
  PracticeSessionState.isComplete twoAnswered = true /\
  (exists db,
      saveResults accuracy (beginner "addition") 5000 twoAnswered DB.empty
      = Return (SessionResults.mk 2 2 200 4 4 20, db)) /\
  accuracy_over_problemsSolved 2 2 = 100%Q /\
  averageTime_over_problemsSolved 4 2 = 2%Q.
Proof.
  split; [reflexivity|].
  split; [eexists; vm_compute; reflexivity|].
  split; reflexivity.
Qed.

(** A session ended at once: no problem solved, and the floor of 1 under
    both quotients gives an accuracy and an average time of 0. *)
Example saveResults_of_ended_at_once :
  exists db,
    saveResults accuracy (beginner "addition") 5000
      (additionSession accuracy 2 600 [EEnd]) DB.empty
    = Return (SessionResults.mk 0 0 0 0 0 0, db).
Proof. eexists. vm_compute. reflexivity. Qed.

(** C3, evaluated on the code.  When the one problem of a session is
    answered correctly twice before the automatic advance, the session
    completes with two correct answers; [saveResults] reports one problem
    solved and two correct answers, and stores these numbers in the session
    row and in the new progress row. *)
Theorem double_submit_breaks_correct_le_solved :
  PracticeSessionState.isComplete answeredTwice = true /\
  match saveResults accuracy (beginner "addition") 5000 answeredTwice DB.empty with
  | Return (results, db) =>
      SessionResults.problemsSolved results = 1 /\
      SessionResults.correctAnswers results = 2 /\
      map (fun row => (PracticeSession.problemsSolved row,
                       PracticeSession.correctAnswers row))
          (Table.toArray (DB.practiceSessions db)) = [(1, 2)] /\
      map (fun row => (UserProgress.problemsSolved row,
                       UserProgress.correctAnswers row))
          (Table.toArray (DB.userProgress db)) = [(1, 2)]
  | Throw _ => False
  end.
Proof. split; [reflexivity|]. vm_compute. repeat split. Qed.

(** ** Clearing the stored data *)

(** C6, evaluated on the code.  After [clearAllData] the sessions, the
    progress rows and the achievement catalog are all empty and the
    settings table holds the default settings alone: the settings are
    seeded again, the catalog is not, while [initializeDB] on an empty
    database seeds the ten locked achievements. *)
Theorem clearAllData_does_not_reseed_achievements (now : Z) (db : DB.t) :
  let cleared := clearAllData now db in
  Table.toArray (DB.practiceSessions cleared) = [] /\
  Table.toArray (DB.userProgress cleared) = [] /\
  Table.toArray (DB.achievements cleared) = [] /\
  Table.toArray (DB.userSettings cleared) = [defaultSettings now] /\
  Table.toArray (DB.achievements (initializeDB now DB.empty)) = defaultAchievements /\
  List.length defaultAchievements = 10%nat /\
  Forall (fun a => Achievement.unlockedAt a = None) defaultAchievements.
Proof.
  repeat split.
  repeat constructor.
Qed.

(** ** The problem generator: unrecognised operations *)

Lemma generateMultiStepProblem_returns config id timeGenerated random :
  exists p random',
    generateMultiStepProblem config id timeGenerated random = Return (p, random') /\
    MathProblem.isMultiStep p = Some true /\
    MathProblem.operation p = ProblemConfig.operation config.
Proof.
  unfold generateMultiStepProblem, randomInRange, bind, ret, Math_random.
  do 2 eexists. split; [reflexivity|]. split; reflexivity.
Qed.

Lemma unrecognised_operation_cases op :
  ~ In op operations ->
  (op =? "addition")%string = false /\
  (op =? "subtraction")%string = false /\
  (op =? "multiplication")%string = false /\
  (op =? "division")%string = false /\
  (op =? "percentage")%string = false.
Proof.
  intros Hnot.
  repeat split; apply String.eqb_neq; intros ->; apply Hnot;
    unfold operations; simpl; tauto.
Qed.

(** C7, as amended.  For a configuration whose operation is none of the
    five: when the [multiStep] flag is not set, [generateProblem] throws
    "Unsupported operation: " followed by the operation; when the flag is
    set, it throws nothing and returns a multi-step problem that carries
    the unrecognised operation. *)
Theorem generateProblem_unrecognised_operation
    (now : Z) (config : ProblemConfig.t) (random : rng) :
  ~ In (ProblemConfig.operation config) operations ->
  (ProblemConfig.multiStep config = false ->
   generateProblem now config random
   = Throw ("Unsupported operation: " ++ ProblemConfig.operation config)) /\
  (ProblemConfig.multiStep config = true ->
   exists p random',
     generateProblem now config random = Return (p, random') /\
     MathProblem.isMultiStep p = Some true /\
     MathProblem.operation p = ProblemConfig.operation config).
Proof.
  intros Hnot.
  apply unrecognised_operation_cases in Hnot as (Ha & Hs & Hm & Hd & Hp).
  unfold generateProblem, generateId, bind, ret, Math_random, throw.
  split; intros Hflag; rewrite Hflag.
  - rewrite Ha, Hs, Hm, Hd, Hp. reflexivity.
  - apply generateMultiStepProblem_returns.
Qed.

(** The amended C7 at the operation "modulo", without the flag. *)
Lemma generateProblem_unrecognised_operation_witness :
  ~ In "modulo"%string operations /\
  generateProblem 0 (beginner "modulo") (constant_rng 0)
  = Throw "Unsupported operation: modulo".
Proof.
  assert (Hnot : ~ In "modulo"%string operations).
  { unfold operations; simpl; intuition discriminate. }
  split; [exact Hnot|].
  apply (proj1 (generateProblem_unrecognised_operation
                  0 (beginner "modulo") (constant_rng 0) Hnot)).
  reflexivity.
Defined.

(** C7 as stated fails: with the [multiStep] flag set, the operation
    "modulo" yields the problem [1 + 1 + 1] and no error. *)
Lemma generateProblem_multiStep_ignores_operation :
  exists random',
    generateProblem 0
      (ProblemConfig.mk "modulo" "beginner" false false true false None)
      (constant_rng 0)
    = Return
        (MathProblem.mk (0, ofZ 0) "modulo" "beginner"
           [TNum (ofZ 1); TSym "+"; TNum (ofZ 1); TSym "+"; TNum (ofZ 1)]
           [TNum (ofZ 1); TSym "+"; TNum (ofZ 1); TSym "+"; TNum (ofZ 1)]
           (ofZ 3) (Some [ofZ 1; ofZ 1; ofZ 1]) (Some true) 0,
         random').
Proof. eexists. vm_compute. reflexivity. Qed.

(** ** The problem generator: division *)

(** *** Integers among the numbers *)

Lemma leb_ofZ (x y : Z) : Num.leb (ofZ x) (ofZ y) = (x <=? y).
Proof.
  unfold Num.leb, ofZ. apply eq_true_iff_eq.
  rewrite Qle_bool_iff, Z.leb_le, Zle_Qle. reflexivity.
Qed.

Lemma max_ofZ (x y : Z) : Num.max (ofZ x) (ofZ y) = ofZ (Z.max x y).
Proof.
  unfold Num.max. change (Fin (inject_Z x)) with (ofZ x).
  change (Fin (inject_Z y)) with (ofZ y).
  unfold ofZ at 1 2. fold (ofZ x) (ofZ y). rewrite leb_ofZ.
  destruct (Z.leb_spec x y); f_equal; lia.
Qed.

(** Linear arithmetic with the powers of two written out. *)
Ltac powers :=
  unfold safe in *;
  change (2 ^ 53) with 9007199254740992 in *;
  change (2 ^ 52) with 4503599627370496 in *;
  change (2 ^ 46) with 70368744177664 in *;
  change (2 ^ 26) with 67108864 in *;
  change (2 ^ 17) with 131072 in *.

(** [randomInRange(lo, hi)] for integer bounds of magnitude below [2^52]:
    an integer from [lo] to [hi], or from [hi + 1] to [lo] when the bounds
    are the wrong way round. *)
Lemma randomInRange_integer (lo hi : Z) (random : rng) :
  - 2 ^ 52 < lo < 2 ^ 52 -> - 2 ^ 52 < hi < 2 ^ 52 ->
  (0 <= random 0%nat <= 1 - 2 ^ (-53))%Q ->
  exists k,
    randomInRange (ofZ lo) (ofZ hi) random
    = Return (ofZ k, fun n => random (S n)) /\
    (lo <= hi -> lo <= k <= hi) /\ (hi < lo -> hi < k <= lo).
Proof.
  intros Hlo Hhi Hr. unfold randomInRange, bind, ret, Math_random.
  rewrite sub_ofZ by (powers; lia).
  rewrite add_ofZ by (powers; lia).
  destruct (floor_of_draw (random 0%nat) (hi - lo + 1) Hr ltac:(powers; lia))
    as (k & Hk & Hpos & Hneg).
  rewrite Hk.
  assert (Hcases : (lo <= hi /\ 0 <= k < hi - lo + 1)
                   \/ (hi < lo /\ hi - lo + 1 <= k <= 0)) by lia.
  rewrite add_ofZ by (powers; lia).
  exists (k + lo). split; [reflexivity | lia].
Qed.

(** *** generateDivision on a range of integers *)

(** Without a custom range every difficulty, known or not, gives a range
    from 1 to a larger integer. *)
Lemma getRange_default (difficulty : string) :
  exists hi,
    getRange difficulty None = Range.mk (ofZ 1) (ofZ hi) /\ Z.max 1 1 <= hi <= 2 ^ 26.
Proof.
  unfold getRange.
  repeat destruct_if; eexists; (split; [reflexivity | powers; lia]).
Qed.

(** C2, as amended.  For a division configuration whose range has integer
    bounds with [max(1, min) <= max], [min] at least [-2^26] and [max] at
    most [2^26] (the four difficulty ranges among them) the generator
    returns a problem whose expression shows an integer dividend and an
    integer divisor with: divisor at least [max(1, min)] and at most [max];
    dividend an exact multiple of the divisor; and the stored answer equal
    to dividend divided by divisor, as integers and as JavaScript
    numbers. *)
Theorem generateDivision_exact
    (now : Z) (config : ProblemConfig.t) (random : rng) (lo hi : Z) :
  ProblemConfig.multiStep config = false ->
  ProblemConfig.operation config = "division"%string ->
  getRange (ProblemConfig.difficulty config) (ProblemConfig.customRange config)
  = Range.mk (ofZ lo) (ofZ hi) ->
  Z.max 1 lo <= hi ->
  - 2 ^ 26 <= lo ->
  hi <= 2 ^ 26 ->
  binary64_draws random ->
  exists dividend divisor quotient p random',
    generateProblem now config random = Return (p, random') /\
    MathProblem.expression p
    = [TNum (ofZ dividend); TSym "÷"%string; TNum (ofZ divisor)] /\
    MathProblem.displayExpression p = MathProblem.expression p /\
    MathProblem.factors p = Some [ofZ dividend; ofZ divisor] /\
    MathProblem.answer p = ofZ quotient /\
    Z.max 1 lo <= divisor <= hi /\
    dividend mod divisor = 0 /\
    dividend / divisor = quotient /\
    Num.div (ofZ dividend) (ofZ divisor) = MathProblem.answer p.
Proof.
  intros Hflag Hop Hrange Hle Hlo Hhi Hdraws.
  set (tail := fun n => random (S n)).
  destruct (randomInRange_integer (Z.max 1 lo) hi tail
              ltac:(powers; lia) ltac:(powers; lia) (Hdraws 1%nat))
    as (divisor & Hdivisor & Hrange_divisor & _).
  specialize (Hrange_divisor Hle).
  assert (Hquot : 0 <= hi / divisor <= hi).
  { split; [apply Z.div_pos; lia|].
    apply Z.div_le_upper_bound; [lia | nia]. }
  destruct (randomInRange_integer lo (hi / divisor) (fun n => tail (S n))
              ltac:(powers; lia) ltac:(powers; lia) (Hdraws 2%nat))
    as (quotient & Hquotient & Hq1 & Hq2).
  assert (Hqbound : - 2 ^ 26 <= quotient <= 2 ^ 26) by (powers; lia).
  assert (Hproduct : safe (divisor * quotient)) by (powers; nia).
  exists (divisor * quotient), divisor, quotient.
  do 2 eexists.
  split.
  - unfold generateProblem, generateId, bind, ret, Math_random.
    rewrite Hflag, Hop. cbn [String.eqb Ascii.eqb Bool.eqb].
    fold tail. unfold generateDivision. rewrite Hrange.
    cbn [Range.min Range.max]. unfold bind, ret.
    rewrite max_ofZ, Hdivisor.
    rewrite floor_div_ofZ by (powers; lia).
    rewrite Hquotient, (mul_ofZ _ _ Hproduct). reflexivity.
  - cbn [MathProblem.expression MathProblem.displayExpression
         MathProblem.factors MathProblem.answer].
    repeat split; try lia.
    + rewrite Z.mul_comm. apply Z.mod_mul. lia.
    + rewrite Z.mul_comm. apply Z.div_mul. lia.
    + apply div_mul_ofZ; [lia | powers; lia].
Qed.

(** The amended C2 at the beginner range, every draw being 1/2: the problem
    is [6 ÷ 6]. *)
Lemma generateDivision_exact_witness :
  binary64_draws (constant_rng (1 # 2)) /\
  exists dividend divisor quotient p random',
    generateProblem 0 (beginner "division") (constant_rng (1 # 2))
    = Return (p, random') /\
    MathProblem.expression p
    = [TNum (ofZ dividend); TSym "÷"%string; TNum (ofZ divisor)] /\
    MathProblem.displayExpression p = MathProblem.expression p /\
    MathProblem.factors p = Some [ofZ dividend; ofZ divisor] /\
    MathProblem.answer p = ofZ quotient /\
    Z.max 1 1 <= divisor <= 10 /\
    dividend mod divisor = 0 /\
    dividend / divisor = quotient /\
    Num.div (ofZ dividend) (ofZ divisor) = MathProblem.answer p.
Proof.
  assert (Hdraws : binary64_draws (constant_rng (1 # 2))).
  { intros n. unfold constant_rng. split; vm_compute; discriminate. }
  split; [exact Hdraws|].
  apply (generateDivision_exact 0 (beginner "division") (constant_rng (1 # 2)) 1 10).
  - reflexivity.
  - reflexivity.
  - reflexivity.
  - simpl. lia.
  - simpl. lia.
  - simpl. lia.
  - exact Hdraws.
Defined.

(** C2 as stated fails on custom ranges with integer bounds.  With the
    range from 5 to 3 and every draw 1/2, the problem is [12 ÷ 4]: the
    divisor 4 is below [max(1, min) = 5].  With the range from -1 to -1 the
    divisor drawn is 0, the dividend is NaN and the answer is minus
    infinity.  With the range from 1 to [2^54] and the draws [2^-53] and
    1/2, the divisor is 3 and the quotient 3002399751580331; their product
    is rounded to the dividend shown, 9007199254740992, which leaves the
    remainder 2. *)
Lemma generateDivision_degenerate_ranges :
  (exists random',
      generateProblem 0
        (ProblemConfig.mk "division" "beginner" false false false false
           (Some (Range.mk (ofZ 5) (ofZ 3))))
        (constant_rng (1 # 2))
      = Return
          (MathProblem.mk (0, Fin (1 # 2)) "division" "beginner"
             [TNum (ofZ 12); TSym "÷"; TNum (ofZ 4)]
             [TNum (ofZ 12); TSym "÷"; TNum (ofZ 4)]
             (ofZ 3) (Some [ofZ 12; ofZ 4]) None 0,
           random') /\
      Num.ltb (ofZ 4) (Num.max (ofZ 1) (ofZ 5)) = true) /\
  (exists random',
      generateProblem 0
        (ProblemConfig.mk "division" "beginner" false false false false
           (Some (Range.mk (ofZ (-1)) (ofZ (-1)))))
        (constant_rng (1 # 2))
      = Return
          (MathProblem.mk (0, Fin (1 # 2)) "division" "beginner"
             [TNum NaN; TSym "÷"; TNum (ofZ 0)]
             [TNum NaN; TSym "÷"; TNum (ofZ 0)]
             NegInf (Some [NaN; ofZ 0]) None 0,
           random')) /\
  (exists random',
      generateProblem 0
        (ProblemConfig.mk "division" "beginner" false false false false
           (Some (Range.mk (ofZ 1) (ofZ (2 ^ 54)))))
        (fun n => match n with
                  | 1%nat => 1 # 9007199254740992
                  | _ => 1 # 2
                  end)
      = Return
          (MathProblem.mk (0, Fin (1 # 2)) "division" "beginner"
             [TNum (ofZ 9007199254740992); TSym "÷"; TNum (ofZ 3)]
             [TNum (ofZ 9007199254740992); TSym "÷"; TNum (ofZ 3)]
             (ofZ 3002399751580331)
             (Some [ofZ 9007199254740992; ofZ 3]) None 0,
           random') /\
      9007199254740992 mod 3 = 2).
Proof.
  split; [|split].
  - eexists. split; [vm_compute; reflexivity | reflexivity].
  - eexists. vm_compute. reflexivity.
  - eexists. split; [vm_compute; reflexivity | reflexivity].
Qed.

(** ** The daily streak *)

(** *** The index is read from the latest session to the earliest *)

Lemma insertDescending_In e l x :
  In x (insertDescending e l) <-> x = e \/ In x l.
Proof.
  induction l as [|h t IH]; simpl.
  - intuition.
  - destruct (entry_leb h e); simpl; [intuition|].
    rewrite IH. intuition.
Qed.

Lemma entry_leb_true a b : entry_leb a b = true -> fst a <= fst b.
Proof. unfold entry_leb. lia. Qed.

Lemma entry_leb_false a b : entry_leb a b = false -> fst b <= fst a.
Proof. unfold entry_leb. lia. Qed.

Lemma insertDescending_descending e l :
  descending l -> descending (insertDescending e l).
Proof.
  unfold descending.
  induction l as [|h t IH]; intros Hs; simpl.
  - constructor; constructor.
  - destruct (entry_leb h e) eqn:E.
    + constructor; [exact Hs|].
      apply entry_leb_true in E.
      inversion Hs as [|? ? _ Hall]; subst.
      constructor; [exact E|].
      eapply Forall_impl; [|exact Hall]. simpl. intros b Hb. lia.
    + apply entry_leb_false in E.
      inversion Hs as [|? ? Ht Hall]; subst.
      constructor; [apply IH, Ht|].
      apply Forall_forall. intros x Hx.
      apply insertDescending_In in Hx as [->|Hx]; [exact E|].
      rewrite Forall_forall in Hall. apply Hall, Hx.
Qed.

Lemma sort_In l x : In x (fold_right insertDescending [] l) <-> In x l.
Proof.
  induction l as [|h t IH]; simpl; [reflexivity|].
  rewrite insertDescending_In, IH. intuition.
Qed.

Lemma sort_descending l : descending (fold_right insertDescending [] l).
Proof.
  induction l as [|h t IH]; simpl.
  - constructor.
  - apply insertDescending_descending, IH.
Qed.

Lemma completedAtIndex_keyed tbl : Forall keyed (completedAtIndex tbl).
Proof.
  unfold completedAtIndex. apply Forall_forall. intros e He.
  apply in_flat_map in He as (r & _ & He).
  destruct (PracticeSession.completedAt (snd r)) as [c|] eqn:E; simpl in He.
  - destruct He as [<-|[]]. exact E.
  - destruct He.
Qed.

(** *** Midnights and day numbers *)

Lemma startOfDay_dayOf t : startOfDay t = msPerDay * dayOf t.
Proof.
  unfold startOfDay, dayOf.
  pose proof (Z.div_mod t msPerDay) as H. unfold msPerDay in *. lia.
Qed.

Lemma previousDay_midnight d : previousDay (msPerDay * d) = msPerDay * (d - 1).
Proof. unfold previousDay, msPerDay. lia. Qed.

(** *** The count of consecutive days *)

Lemma consecutive_days_unique days today n m :
  consecutive_days days today n -> consecutive_days days today m -> n = m.
Proof.
  intros (Hn0 & Hn & Hnn) (Hm0 & Hm & Hmm).
  destruct (Z.lt_trichotomy n m) as [Hlt|[Heq|Hgt]]; [|exact Heq|].
  - exfalso. apply Hnn, Hm. lia.
  - exfalso. apply Hmm, Hn. lia.
Qed.

Lemma consecutive_days_ext days days' today n :
  (forall d, In d days <-> In d days') ->
  consecutive_days days today n -> consecutive_days days' today n.
Proof.
  intros Hext (Hn0 & Hn & Hnn). split; [exact Hn0|]. split.
  - intros i Hi. apply Hext, Hn, Hi.
  - intros Hin. apply Hnn, Hext, Hin.
Qed.

Lemma dayOf_monotone s t : s <= t -> dayOf s <= dayOf t.
Proof. intros H. unfold dayOf, msPerDay. apply Z.div_le_mono; lia. Qed.

Lemma days_below (e : Z * (Z * PracticeSession.t))
    (es : list (Z * (Z * PracticeSession.t))) (d : Z) :
  Forall (fun b => fst b <= fst e) es ->
  In d (map (fun b => dayOf (fst b)) es) -> d <= dayOf (fst e).
Proof.
  intros Hall Hin. apply in_map_iff in Hin as (b & <- & Hb).
  rewrite Forall_forall in Hall. apply dayOf_monotone, Hall, Hb.
Qed.

(** *** The loop counts the consecutive days *)

Lemma streakLoop_counts es :
  Forall keyed es -> descending es ->
  forall streak d,
  exists n,
    streakLoop (map (fun e => snd (snd e)) es) streak (msPerDay * d) = streak + n /\
    consecutive_days (map (fun e => dayOf (fst e)) es) d n.
Proof.
  unfold descending.
  induction es as [|e es IH]; intros Hkeyed Hsorted streak d.
  - exists 0. split; [simpl; lia|].
    split; [lia|]. split; [intros i Hi; lia | intros []].
  - inversion Hkeyed as [|? ? Hk Hks]; subst.
    inversion Hsorted as [|? ? Hs Hall]; subst.
    specialize (IH Hks Hs).
    cbn [map streakLoop]. rewrite Hk. cbv zeta. rewrite startOfDay_dayOf.
    remember (dayOf (fst e)) as h eqn:Eh.
    destruct (Z.eqb_spec (msPerDay * h) (msPerDay * d)) as [Heq|Hne].
    + assert (h = d) by (unfold msPerDay in Heq; lia). subst d.
      rewrite previousDay_midnight.
      destruct (IH (streak + 1) (h - 1)) as (n & Hloop & Hn0 & Hn & Hnn).
      exists (n + 1). split; [rewrite Hloop; lia|].
      split; [lia|]. split.
      * intros i Hi. destruct (Z.eq_dec i 0) as [->|Hi0].
        -- left. lia.
        -- right. replace (h - i) with (h - 1 - (i - 1)) by lia.
           apply Hn. lia.
      * intros [Hhead|Htail]; [lia|].
        apply Hnn. replace (h - 1 - n) with (h - (n + 1)) by lia. exact Htail.
    + destruct (Z.ltb_spec (msPerDay * h) (msPerDay * d)) as [Hlt|Hge].
      * assert (h < d) by (unfold msPerDay in Hlt; lia).
        exists 0. split; [lia|].
        split; [lia|]. split; [intros i Hi; lia|].
        rewrite Z.sub_0_r. intros [Hhead|Htail]; [lia|].
        apply (days_below e es d Hall) in Htail. lia.
      * assert (d < h) by (unfold msPerDay in Hne, Hge; lia).
        destruct (IH streak d) as (n & Hloop & Hn0 & Hn & Hnn).
        exists n. split; [exact Hloop|].
        split; [exact Hn0|]. split.
        -- intros i Hi. right. apply Hn, Hi.
        -- intros [Hhead|Htail]; [lia | exact (Hnn Htail)].
Qed.

Lemma sessionDays_sorted db d :
  In d (map (fun e => dayOf (fst e))
          (fold_right insertDescending [] (completedAtIndex (DB.practiceSessions db))))
  <-> In d (sessionDays db).
Proof.
  unfold sessionDays. rewrite !in_map_iff.
  split; intros (e & He & Hin); exists e; (split; [exact He|]);
    apply sort_In; exact Hin.
Qed.

Lemma sorted_length_zero (l : list (Z * (Z * PracticeSession.t))) :
  List.length (fold_right insertDescending [] l) = 0%nat <-> l = [].
Proof.
  split.
  - intros Hlen. destruct l as [|h t]; [reflexivity|].
    exfalso.
    assert (Hin : In h (fold_right insertDescending [] (h :: t))).
    { apply sort_In. left. reflexivity. }
    destruct (fold_right insertDescending [] (h :: t)); [destruct Hin | discriminate].
  - intros ->. reflexivity.
Qed.

(** [checkDailyStreak] in the words of the requirement table: there is a
    count of consecutive days, and the check succeeds exactly when some
    dated session is stored and the count reaches the target. *)
Lemma checkDailyStreak_counts now db :
  exists n,
    consecutive_days (sessionDays db) (dayOf now) n /\
    forall value,
      checkDailyStreak now db value = true
      <-> sessionDays db <> [] /\ value <= n.
Proof.
  pose proof (sort_descending (completedAtIndex (DB.practiceSessions db))) as Hsorted.
  assert (Hkeyed : Forall keyed
            (fold_right insertDescending [] (completedAtIndex (DB.practiceSessions db)))).
  { apply Forall_forall. intros e He. apply (proj1 (sort_In _ _)) in He.
    pose proof (completedAtIndex_keyed (DB.practiceSessions db)) as Hk.
    rewrite Forall_forall in Hk. apply Hk, He. }
  destruct (streakLoop_counts _ Hkeyed Hsorted 0 (dayOf now)) as (n & Hloop & Hn).
  exists n. split.
  - eapply consecutive_days_ext; [|exact Hn]. apply sessionDays_sorted.
  - intros value. unfold checkDailyStreak, orderBy_completedAt_reverse.
    rewrite startOfDay_dayOf, Hloop, length_map.
    unfold sessionDays.
    destruct (completedAtIndex (DB.practiceSessions db)) as [|e es] eqn:Eidx.
    + simpl. split; [discriminate | intros [H _]; contradiction].
    + destruct (Z.eqb_spec
                  (Z.of_nat (List.length (fold_right insertDescending [] (e :: es)))) 0)
        as [Hz|Hnz].
      * exfalso.
        assert (Hlen : List.length (fold_right insertDescending [] (e :: es)) = 0%nat)
          by lia.
        apply sorted_length_zero in Hlen. discriminate.
      * rewrite Z.leb_le. simpl. split.
        -- intros H. split; [discriminate | lia].
        -- intros [_ H]. lia.
Qed.

Lemma sessionDays_addSession session c db :
  PracticeSession.completedAt session = Some c ->
  sessionDays (addSession session db) = sessionDays db ++ [dayOf c].
Proof.
  intros Hc. unfold sessionDays, addSession, completedAtIndex, Table.add.
  cbn [DB.practiceSessions Table.rows].
  rewrite flat_map_app, map_app. cbn [flat_map snd]. rewrite Hc. reflexivity.
Qed.

Lemma checkDailyStreak_same_day now db session c value :
  PracticeSession.completedAt session = Some c ->
  In (dayOf c) (sessionDays db) ->
  checkDailyStreak now (addSession session db) value
  = checkDailyStreak now db value.
Proof.
  intros Hc Hin.
  destruct (checkDailyStreak_counts now db) as (n & Hn & Hcheck).
  destruct (checkDailyStreak_counts now (addSession session db))
    as (n' & Hn' & Hcheck').
  assert (Hext : forall d, In d (sessionDays db)
                           <-> In d (sessionDays (addSession session db))).
  { intros d. rewrite (sessionDays_addSession session c db Hc), in_app_iff.
    simpl. split; [tauto|]. intros [H|[<-|[]]]; assumption. }
  assert (n' = n).
  { eapply consecutive_days_unique; [exact Hn'|].
    eapply consecutive_days_ext; [exact Hext | exact Hn]. }
  subst n'.
  apply eq_true_iff_eq. rewrite Hcheck, Hcheck'.
  assert (Hne : sessionDays db <> []) by (intros E; rewrite E in Hin; destruct Hin).
  assert (Hne' : sessionDays (addSession session db) <> []).
  { intros E. apply (proj1 (Hext _)) in Hin. rewrite E in Hin. destruct Hin. }
  tauto.
Qed.

Lemma checkDailyStreak_sequential now db first k :
  0 < k ->
  (forall d, In d (sessionDays db) <-> first <= d < first + k) ->
  dayOf now = first + k - 1 ->
  forall value, checkDailyStreak now db value = true <-> value <= k.
Proof.
  intros Hk Hdays Htoday value.
  destruct (checkDailyStreak_counts now db) as (n & Hn & Hcheck).
  assert (Hcount : consecutive_days (sessionDays db) (dayOf now) k).
  { split; [lia|]. split.
    - intros i Hi. apply Hdays. lia.
    - intros Hin. apply Hdays in Hin. lia. }
  assert (n = k) by (eapply consecutive_days_unique; eassumption). subst n.
  rewrite Hcheck.
  assert (Hne : sessionDays db <> []).
  { intros E. assert (Hin : In first (sessionDays db)) by (apply Hdays; lia).
    rewrite E in Hin. destruct Hin. }
  tauto.
Qed.

(** X25.  Over the stored sessions that carry a completion date: there is
    a count [n] of consecutive calendar days, walking backward from today,
    each with at least one such session, and the requirement with
    parameter [value] is satisfied exactly when at least one such session is
    stored and [value <= n]; for [value >= 1] that is exactly when
    [value <= n].  One more session on a day that already has one
    changes nothing.  When the days with a session are the [k] days up to
    and including today, the requirement is satisfied exactly when
    [value <= k]: with [value = 7], from the seventh day on and not before. *)
Theorem checkDailyStreak_spec (now : Z) (db : DB.t) :
  (exists n,
      consecutive_days (sessionDays db) (dayOf now) n /\
      (forall value,
          checkDailyStreak now db value = true
          <-> sessionDays db <> [] /\ value <= n) /\
      (forall value,
          0 < value -> (checkDailyStreak now db value = true <-> value <= n))) /\
  (forall session completedAt value,
      PracticeSession.completedAt session = Some completedAt ->
      In (dayOf completedAt) (sessionDays db) ->
      checkDailyStreak now (addSession session db) value
      = checkDailyStreak now db value) /\
  (forall first k,
      0 < k ->
      (forall d, In d (sessionDays db) <-> first <= d < first + k) ->
      dayOf now = first + k - 1 ->
      (checkDailyStreak now db 7 = true <-> 7 <= k)).
Proof.
  split; [|split].
  - destruct (checkDailyStreak_counts now db) as (n & Hn & Hcheck).
    exists n. split; [exact Hn|]. split; [exact Hcheck|].
    intros value Hpos. rewrite Hcheck. split; [tauto|].
    intros Hle. split; [|exact Hle].
    destruct Hn as (_ & Hdays & _).
    intros E. specialize (Hdays 0 ltac:(lia)). rewrite E in Hdays. destruct Hdays.
  - intros session completedAt value Hc Hin.
    exact (checkDailyStreak_same_day now db session completedAt value Hc Hin).
  - intros first k Hk Hdays Htoday.
    exact (checkDailyStreak_sequential now db first k Hk Hdays Htoday 7).
Qed.

(** X25 on one dated session a day for seven days, checked on the evening
    of the seventh day: the requirement with value 7 is satisfied, and stays
    so when a second session of that day is stored. *)
Lemma checkDailyStreak_spec_witness :
  let now := 6 * msPerDay + 72000000 in
  let db := dailySessions 7 in
  (forall d, In d (sessionDays db) <-> 0 <= d < 0 + 7) /\
  (checkDailyStreak now db 7 = true <-> 7 <= 7) /\
  checkDailyStreak now (addSession (sessionAt now) db) 7
  = checkDailyStreak now db 7.
Proof.
  intros now db.
  assert (Hdays : forall d, In d (sessionDays db) <-> 0 <= d < 0 + 7).
  { intros d. change (sessionDays db) with [0; 1; 2; 3; 4; 5; 6].
    simpl. lia. }
  split; [exact Hdays|]. split.
  - apply (proj2 (proj2 (checkDailyStreak_spec now db)) 0 7).
    + lia.
    + exact Hdays.
    + reflexivity.
  - apply (proj1 (proj2 (checkDailyStreak_spec now db)) (sessionAt now) now 7).
    + reflexivity.
    + apply Hdays. change (dayOf now) with 6. lia.
Defined.

(** For a target that is not positive the guard on an empty history
    decides: with no session stored the count of consecutive days is 0,
    which is at least the value 0, and the check answers [false]. *)
Lemma checkDailyStreak_empty_history :
  consecutive_days (sessionDays DB.empty) (dayOf 0) 0 /\
  0 <= 0 /\
  checkDailyStreak 0 DB.empty 0 = false.
Proof.
  split; [|split; [lia | reflexivity]].
  split; [lia|]. split; [intros i Hi; lia | intros []].
Qed.

(** Ten days with one session a day, the check being run each evening:
    the requirement with value 7 is first satisfied on the seventh day. *)
Example daily_streak_ten_days :
  map (fun k => checkDailyStreak ((Z.of_nat k - 1) * msPerDay + 72000000)
                  (dailySessions k) 7)
      (seq 1 10)
  = [false; false; false; false; false; false; true; true; true; true].
Proof. vm_compute. reflexivity. Qed.

(* ================================================================== *)
(** * Further properties *)
(* ================================================================== *)

(** ** The generators of sums, differences and products *)

Lemma ltb_ofZ (x y : Z) : Num.ltb (ofZ x) (ofZ y) = (x <? y).
Proof.
  unfold Num.ltb, ofZ. apply eq_true_iff_eq.
  rewrite negb_true_iff, Z.ltb_lt.
  destruct (Qle_bool (inject_Z y) (inject_Z x)) eqn:E.
  - apply Qle_bool_iff in E. rewrite <- Zle_Qle in E. split; [discriminate | lia].
  - split; [intros _ | reflexivity].
    destruct (Z.lt_ge_cases x y) as [H|H]; [exact H|].
    rewrite Zle_Qle in H. apply Qle_bool_iff in H. congruence.
Qed.

(** Without the [multiStep] flag [generateProblem] draws the id and hands
    over to the generator of the operation. *)
Lemma generateProblem_dispatch now config random :
  ProblemConfig.multiStep config = false ->
  let id := (now, Fin (random 0%nat)) in
  let rest := fun n => random (S n) in
  (ProblemConfig.operation config = "addition"%string ->
   generateProblem now config random = generateAddition config id now rest) /\
  (ProblemConfig.operation config = "subtraction"%string ->
   generateProblem now config random = generateSubtraction config id now rest) /\
  (ProblemConfig.operation config = "multiplication"%string ->
   generateProblem now config random = generateMultiplication config id now rest) /\
  (ProblemConfig.operation config = "division"%string ->
   generateProblem now config random = generateDivision config id now rest) /\
  (ProblemConfig.operation config = "percentage"%string ->
   generateProblem now config random = generatePercentage config id now rest).
Proof.
  intros Hflag. cbv zeta.
  unfold generateProblem, generateId, bind, ret, Math_random. rewrite Hflag.
  repeat split; intros ->; reflexivity.
Qed.

(** Two operands drawn one after the other from a range of integers of
    magnitude below [2^52]. *)
Lemma two_operands (lo hi : Z) (random : rng) :
  - 2 ^ 52 < lo < 2 ^ 52 -> - 2 ^ 52 < hi < 2 ^ 52 ->
  binary64_draws random ->
  exists a b,
    randomInRange (ofZ lo) (ofZ hi) (fun n => random (S n))
    = Return (ofZ a, fun n => random (S (S n))) /\
    randomInRange (ofZ lo) (ofZ hi) (fun n => random (S (S n)))
    = Return (ofZ b, fun n => random (S (S (S n)))) /\
    (lo <= hi -> lo <= a <= hi /\ lo <= b <= hi) /\
    - 2 ^ 52 < a < 2 ^ 52 /\ - 2 ^ 52 < b < 2 ^ 52.
Proof.
  intros Hlo Hhi Hdraws.
  destruct (randomInRange_integer lo hi (fun n => random (S n)) Hlo Hhi (Hdraws 1%nat))
    as (a & Ha & Ha1 & Ha2).
  destruct (randomInRange_integer lo hi (fun n => random (S (S n))) Hlo Hhi
              (Hdraws 2%nat))
    as (b & Hb & Hb1 & Hb2).
  exists a, b. split; [exact Ha|]. split; [exact Hb|].
  split; [intros H; split; [apply Ha1 | apply Hb1]; exact H|].
  split; lia.
Qed.

(** X1.  An addition problem over a range of integers with [min <= max],
    both of magnitude below [2^52], shows two operands of that range and
    stores their sum. *)
Theorem generateAddition_sum
    (now : Z) (config : ProblemConfig.t) (random : rng) (lo hi : Z) :
  ProblemConfig.multiStep config = false ->
  ProblemConfig.operation config = "addition"%string ->
  getRange (ProblemConfig.difficulty config) (ProblemConfig.customRange config)
  = Range.mk (ofZ lo) (ofZ hi) ->
  lo <= hi ->
  - 2 ^ 52 < lo ->
  hi < 2 ^ 52 ->
  binary64_draws random ->
  exists a b p random',
    generateProblem now config random = Return (p, random') /\
    MathProblem.expression p = [TNum (ofZ a); TSym "+"%string; TNum (ofZ b)] /\
    MathProblem.factors p = Some [ofZ a; ofZ b] /\
    MathProblem.answer p = ofZ (a + b) /\
    lo <= a <= hi /\ lo <= b <= hi.
Proof.
  intros Hflag Hop Hrange Hle Hlo Hhi Hdraws.
  destruct (generateProblem_dispatch now config random Hflag) as (Hadd & _).
  rewrite (Hadd Hop).
  destruct (two_operands lo hi random ltac:(lia) ltac:(lia) Hdraws)
    as (a & b & Ha & Hb & Hin & Hba & Hbb).
  exists a, b. do 2 eexists. split.
  - unfold generateAddition. rewrite Hrange.
    cbn [Range.min Range.max]. unfold bind, ret.
    rewrite Ha, Hb, add_ofZ by (powers; lia). reflexivity.
  - cbn [MathProblem.expression MathProblem.factors MathProblem.answer].
    destruct (Hin Hle). repeat split; lia.
Qed.

(** X1 on the beginner range with every draw 1/2: the problem is [6 + 6]. *)
Lemma generateAddition_sum_witness :
  binary64_draws (constant_rng (1 # 2)) /\
  exists a b p random',
    generateProblem 0 (beginner "addition") (constant_rng (1 # 2))
    = Return (p, random') /\
    MathProblem.expression p = [TNum (ofZ a); TSym "+"%string; TNum (ofZ b)] /\
    MathProblem.factors p = Some [ofZ a; ofZ b] /\
    MathProblem.answer p = ofZ (a + b) /\
    1 <= a <= 10 /\ 1 <= b <= 10.
Proof.
  assert (Hdraws : binary64_draws (constant_rng (1 # 2))).
  { intros n. unfold constant_rng. split; vm_compute; discriminate. }
  split; [exact Hdraws|].
  apply (generateAddition_sum 0 (beginner "addition") (constant_rng (1 # 2)) 1 10);
    [reflexivity | reflexivity | reflexivity | lia | simpl; lia | simpl; lia
    | exact Hdraws].
Defined.

(** X2.  A multiplication problem over a range of integers with
    [min <= max], both of magnitude at most [2^26], shows two operands of
    that range and stores their product. *)
Theorem generateMultiplication_product
    (now : Z) (config : ProblemConfig.t) (random : rng) (lo hi : Z) :
  ProblemConfig.multiStep config = false ->
  ProblemConfig.operation config = "multiplication"%string ->
  getRange (ProblemConfig.difficulty config) (ProblemConfig.customRange config)
  = Range.mk (ofZ lo) (ofZ hi) ->
  lo <= hi ->
  - 2 ^ 26 <= lo ->
  hi <= 2 ^ 26 ->
  binary64_draws random ->
  exists a b p random',
    generateProblem now config random = Return (p, random') /\
    MathProblem.expression p = [TNum (ofZ a); TSym "×"%string; TNum (ofZ b)] /\
    MathProblem.factors p = Some [ofZ a; ofZ b] /\
    MathProblem.answer p = ofZ (a * b) /\
    lo <= a <= hi /\ lo <= b <= hi.
Proof.
  intros Hflag Hop Hrange Hle Hlo Hhi Hdraws.
  destruct (generateProblem_dispatch now config random Hflag) as (_ & _ & Hmul & _).
  rewrite (Hmul Hop).
  destruct (two_operands lo hi random ltac:(powers; lia) ltac:(powers; lia) Hdraws)
    as (a & b & Ha & Hb & Hin & _).
  destruct (Hin Hle) as [Hra Hrb].
  assert (Hproduct : safe (a * b)) by (powers; nia).
  exists a, b. do 2 eexists. split.
  - unfold generateMultiplication. rewrite Hrange.
    cbn [Range.min Range.max]. unfold bind, ret.
    rewrite Ha, Hb, (mul_ofZ _ _ Hproduct). reflexivity.
  - cbn [MathProblem.expression MathProblem.factors MathProblem.answer].
    repeat split; lia.
Qed.

(** X2 on the beginner range with every draw 1/2: the problem is [6 × 6]. *)
Lemma generateMultiplication_product_witness :
  binary64_draws (constant_rng (1 # 2)) /\
  exists a b p random',
    generateProblem 0 (beginner "multiplication") (constant_rng (1 # 2))
    = Return (p, random') /\
    MathProblem.expression p = [TNum (ofZ a); TSym "×"%string; TNum (ofZ b)] /\
    MathProblem.factors p = Some [ofZ a; ofZ b] /\
    MathProblem.answer p = ofZ (a * b) /\
    1 <= a <= 10 /\ 1 <= b <= 10.
Proof.
  assert (Hdraws : binary64_draws (constant_rng (1 # 2))).
  { intros n. unfold constant_rng. split; vm_compute; discriminate. }
  split; [exact Hdraws|].
  apply (generateMultiplication_product 0 (beginner "multiplication")
           (constant_rng (1 # 2)) 1 10);
    [reflexivity | reflexivity | reflexivity | lia | simpl; lia | simpl; lia
    | exact Hdraws].
Defined.

(** X3.  With negative results not allowed, a subtraction problem over a
    range with integer bounds of magnitude below [2^52], whichever way
    round the bounds are, shows a minuend that is at least the subtrahend
    and stores their difference, which is not negative. *)
Theorem generateSubtraction_not_negative
    (now : Z) (config : ProblemConfig.t) (random : rng) (lo hi : Z) :
  ProblemConfig.multiStep config = false ->
  ProblemConfig.operation config = "subtraction"%string ->
  ProblemConfig.includeNegatives config = false ->
  getRange (ProblemConfig.difficulty config) (ProblemConfig.customRange config)
  = Range.mk (ofZ lo) (ofZ hi) ->
  - 2 ^ 52 < lo < 2 ^ 52 ->
  - 2 ^ 52 < hi < 2 ^ 52 ->
  binary64_draws random ->
  exists minuend subtrahend p random',
    generateProblem now config random = Return (p, random') /\
    MathProblem.expression p
    = [TNum (ofZ minuend); TSym "-"%string; TNum (ofZ subtrahend)] /\
    MathProblem.answer p = ofZ (minuend - subtrahend) /\
    subtrahend <= minuend /\
    0 <= minuend - subtrahend.
Proof.
  intros Hflag Hop Hneg Hrange Hlo Hhi Hdraws.
  destruct (generateProblem_dispatch now config random Hflag) as (_ & Hsub & _).
  rewrite (Hsub Hop).
  destruct (two_operands lo hi random Hlo Hhi Hdraws)
    as (a & b & Ha & Hb & _ & Hba & Hbb).
  unfold generateSubtraction. rewrite Hrange.
  cbn [Range.min Range.max]. unfold bind, ret.
  rewrite Ha, Hb. unfold Num.gtb. rewrite ltb_ofZ, Hneg. cbn [negb andb].
  destruct (Z.ltb_spec a b) as [Hlt|Hge].
  - exists b, a. do 2 eexists. rewrite sub_ofZ by (powers; lia).
    split; [reflexivity|].
    cbn [MathProblem.expression MathProblem.answer]. repeat split; lia.
  - exists a, b. do 2 eexists. rewrite sub_ofZ by (powers; lia).
    split; [reflexivity|].
    cbn [MathProblem.expression MathProblem.answer]. repeat split; lia.
Qed.

(** X3 on the beginner range with draws 0.1 and 0.9 for the operands, which
    give 2 and 10: the operands are swapped. *)
Lemma generateSubtraction_not_negative_witness :
  let random := fun n => match n with 1%nat => (1 # 10)%Q | _ => (9 # 10)%Q end in
  binary64_draws random /\
  exists minuend subtrahend p random',
    generateProblem 0 (beginner "subtraction") random = Return (p, random') /\
    MathProblem.expression p
    = [TNum (ofZ minuend); TSym "-"%string; TNum (ofZ subtrahend)] /\
    MathProblem.answer p = ofZ (minuend - subtrahend) /\
    subtrahend <= minuend /\
    0 <= minuend - subtrahend.
Proof.
  intros random.
  assert (Hdraws : binary64_draws random).
  { intros n. unfold random.
    destruct n as [|[|n]]; split; vm_compute; discriminate. }
  split; [exact Hdraws|].
  apply (generateSubtraction_not_negative 0 (beginner "subtraction") random 1 10);
    [reflexivity | reflexivity | reflexivity | reflexivity
    | simpl; lia | simpl; lia | exact Hdraws].
Defined.

(** ** The generator of percentages *)

(** X4.  A percentage problem over a range of integers with [max] from 10
    to [2^46] asks for a percentage between 5 and 100 of a base between 10
    and [max], whatever [min] is; the stored answer is the integer nearest
    to base × percentage / 100 (halves going up), and it lies between 1 and
    the base. *)
Theorem generatePercentage_nearest_integer
    (now : Z) (config : ProblemConfig.t) (random : rng) (min : number) (hi : Z) :
  ProblemConfig.multiStep config = false ->
  ProblemConfig.operation config = "percentage"%string ->
  getRange (ProblemConfig.difficulty config) (ProblemConfig.customRange config)
  = Range.mk min (ofZ hi) ->
  10 <= hi ->
  hi <= 2 ^ 46 ->
  binary64_draws random ->
  exists base percentage answer p random',
    generateProblem now config random = Return (p, random') /\
    MathProblem.expression p
    = [TNum (ofZ percentage); TSym "%"%string; TSym "of"%string; TNum (ofZ base)] /\
    MathProblem.factors p = Some [ofZ base; ofZ percentage] /\
    MathProblem.answer p = ofZ answer /\
    10 <= base <= hi /\
    5 <= percentage <= 100 /\
    100 * answer - 50 <= base * percentage < 100 * answer + 50 /\
    1 <= answer <= base.
Proof.
  intros Hflag Hop Hrange Hhi Hbound Hdraws.
  destruct (generateProblem_dispatch now config random Hflag)
    as (_ & _ & _ & _ & Hpct).
  rewrite (Hpct Hop).
  destruct (randomInRange_integer 10 hi (fun n => random (S n))
              ltac:(powers; lia) ltac:(powers; lia) (Hdraws 1%nat))
    as (base & Hbase & Hbase_range & _).
  destruct (randomInRange_integer 5 100 (fun n => random (S (S n)))
              ltac:(powers; lia) ltac:(powers; lia) (Hdraws 2%nat))
    as (percentage & Hpercentage & Hpercentage_range & _).
  specialize (Hbase_range Hhi). specialize (Hpercentage_range ltac:(lia)).
  assert (Hproduct : 50 <= base * percentage < 2 ^ 53) by (powers; nia).
  exists base, percentage, ((2 * (base * percentage) + 100) / 200).
  do 2 eexists. split.
  - unfold generatePercentage. rewrite Hrange.
    cbn [Range.min Range.max]. unfold bind, ret.
    rewrite Hbase, Hpercentage.
    rewrite mul_ofZ by (powers; lia).
    rewrite round_div_100_ofZ by lia. reflexivity.
  - cbn [MathProblem.expression MathProblem.factors MathProblem.answer].
    split; [reflexivity|]. split; [reflexivity|]. split; [reflexivity|].
    split; [exact Hbase_range|]. split; [exact Hpercentage_range|].
    pose proof (Z.div_mod (2 * (base * percentage) + 100) 200 ltac:(lia)) as Hdm.
    pose proof (Z.mod_pos_bound (2 * (base * percentage) + 100) 200 ltac:(lia)) as Hmod.
    assert (base * percentage <= 100 * base) by nia.
    split; lia.
Qed.

(** X4 on the beginner range with every draw 1/2: 53% of 10 is 5. *)
Lemma generatePercentage_nearest_integer_witness :
  binary64_draws (constant_rng (1 # 2)) /\
  exists base percentage answer p random',
    generateProblem 0 (beginner "percentage") (constant_rng (1 # 2))
    = Return (p, random') /\
    MathProblem.expression p
    = [TNum (ofZ percentage); TSym "%"%string; TSym "of"%string; TNum (ofZ base)] /\
    MathProblem.factors p = Some [ofZ base; ofZ percentage] /\
    MathProblem.answer p = ofZ answer /\
    10 <= base <= 10 /\
    5 <= percentage <= 100 /\
    100 * answer - 50 <= base * percentage < 100 * answer + 50 /\
    1 <= answer <= base.
Proof.
  assert (Hdraws : binary64_draws (constant_rng (1 # 2))).
  { intros n. unfold constant_rng. split; vm_compute; discriminate. }
  split; [exact Hdraws|].
  apply (generatePercentage_nearest_integer 0 (beginner "percentage")
           (constant_rng (1 # 2)) (ofZ 1) 10);
    [reflexivity | reflexivity | reflexivity | lia | simpl; lia | exact Hdraws].
Defined.

(** ** The generator of multi-step problems *)

Lemma array_get_ofZ {A} (l : list A) (k : Z) : array_get l (ofZ k) = array_at l k.
Proof.
  unfold array_get, ofZ. rewrite Qfloor_Z, Qeq_bool_refl. reflexivity.
Qed.

Lemma opToken_of_draw (r : Q) :
  (0 <= r <= 1 - 2 ^ (-53))%Q ->
  exists o,
    opToken (array_get ["+"; "-"; "×"]%string
               (Num.floor (Num.mul (Fin r) (ofZ (Z.of_nat 3)))))
    = TSym (palette_symbol o).
Proof.
  intros Hr.
  destruct (floor_of_draw r (Z.of_nat 3) Hr ltac:(powers; simpl; lia))
    as (k & Hk & Hpos & _).
  rewrite Hk, array_get_ofZ.
  specialize (Hpos ltac:(simpl; lia)).
  assert (Hcases : k = 0 \/ k = 1 \/ k = 2) by (simpl in Hpos; lia).
  destruct Hcases as [-> | [-> | ->]];
    [exists Plus | exists Minus | exists Times]; reflexivity.
Qed.

Lemma evaluateExpression_palette (o0 o1 : palette) (n0 n1 n2 : Z) :
  - 2 ^ 17 <= n0 <= 2 ^ 17 -> - 2 ^ 17 <= n1 <= 2 ^ 17 -> - 2 ^ 17 <= n2 <= 2 ^ 17 ->
  evaluateExpression
    [TNum (ofZ n0); TSym (palette_symbol o0); TNum (ofZ n1);
     TSym (palette_symbol o1); TNum (ofZ n2)]
  = ofZ (precedence_value o0 o1 n0 n1 n2).
Proof.
  intros H0 H1 H2. powers.
  assert (H01 : - 17179869184 <= n0 * n1 <= 17179869184) by nia.
  assert (H12 : - 17179869184 <= n1 * n2 <= 17179869184) by nia.
  assert (H012 : - 2251799813685248 <= n0 * n1 * n2 <= 2251799813685248) by nia.
  destruct o0, o1;
    cbn [evaluateExpression map jsOperator palette_symbol evalOperators closeTerm
         String.eqb Ascii.eqb Bool.eqb precedence_value palette_apply];
    repeat first [ rewrite mul_ofZ by (unfold safe; lia)
                 | rewrite add_ofZ by (unfold safe; lia)
                 | rewrite sub_ofZ by (unfold safe; lia) ];
    reflexivity.
Qed.

(** X5.  With the [multiStep] flag set, whatever the operation, a range
    with integer bounds of magnitude at most [2^17] gives a problem of
    three integer operands and two operators, each operator one of [+],
    [-] and [×], and the stored answer is the value of the expression with
    multiplication done first and the rest from left to right; when
    [min <= max] the operands lie in the range. *)
Theorem generateMultiStepProblem_precedence
    (now : Z) (config : ProblemConfig.t) (random : rng) (lo hi : Z) :
  ProblemConfig.multiStep config = true ->
  getRange (ProblemConfig.difficulty config) (ProblemConfig.customRange config)
  = Range.mk (ofZ lo) (ofZ hi) ->
  - 2 ^ 17 <= lo <= 2 ^ 17 ->
  - 2 ^ 17 <= hi <= 2 ^ 17 ->
  binary64_draws random ->
  exists n0 n1 n2 o0 o1 p random',
    generateProblem now config random = Return (p, random') /\
    MathProblem.expression p
    = [TNum (ofZ n0); TSym (palette_symbol o0); TNum (ofZ n1);
       TSym (palette_symbol o1); TNum (ofZ n2)] /\
    MathProblem.factors p = Some [ofZ n0; ofZ n1; ofZ n2] /\
    MathProblem.isMultiStep p = Some true /\
    MathProblem.answer p = ofZ (precedence_value o0 o1 n0 n1 n2) /\
    (lo <= hi -> lo <= n0 <= hi /\ lo <= n1 <= hi /\ lo <= n2 <= hi).
Proof.
  intros Hflag Hrange Hlo Hhi Hdraws.
  destruct (randomInRange_integer lo hi (fun n => random (S n))
              ltac:(powers; lia) ltac:(powers; lia) (Hdraws 1%nat))
    as (n0 & Hn0 & Hn0a & Hn0b).
  destruct (randomInRange_integer lo hi (fun n => random (S (S n)))
              ltac:(powers; lia) ltac:(powers; lia) (Hdraws 2%nat))
    as (n1 & Hn1 & Hn1a & Hn1b).
  destruct (randomInRange_integer lo hi (fun n => random (S (S (S n))))
              ltac:(powers; lia) ltac:(powers; lia) (Hdraws 3%nat))
    as (n2 & Hn2 & Hn2a & Hn2b).
  destruct (opToken_of_draw _ (Hdraws 4%nat)) as (o0 & Ho0).
  destruct (opToken_of_draw _ (Hdraws 5%nat)) as (o1 & Ho1).
  exists n0, n1, n2, o0, o1.
  do 2 eexists.
  split.
  - unfold generateProblem, generateId, bind, ret, Math_random. rewrite Hflag.
    unfold generateMultiStepProblem. rewrite Hrange.
    cbn [Range.min Range.max]. unfold bind, ret, Math_random.
    rewrite Hn0, Hn1, Hn2.
    cbn [fst snd List.length].
    rewrite Ho0, Ho1.
    rewrite evaluateExpression_palette by (powers; lia). reflexivity.
  - cbn [MathProblem.expression MathProblem.factors MathProblem.isMultiStep
         MathProblem.answer].
    repeat split; try reflexivity; lia.
Qed.

(** X5 on the beginner range with the draws 0, 1/7, 2/7, ... 6/7: the
    problem is [2 - 3 × 5] and the answer -13. *)
Lemma generateMultiStepProblem_precedence_witness :
  let random := fun n => if (n <=? 6)%nat then (Z.of_nat n # 7)%Q else 0%Q in
  let config := ProblemConfig.mk "addition" "beginner" false false true false None in
  binary64_draws random /\
  exists n0 n1 n2 o0 o1 p random',
    generateProblem 0 config random = Return (p, random') /\
    MathProblem.expression p
    = [TNum (ofZ n0); TSym (palette_symbol o0); TNum (ofZ n1);
       TSym (palette_symbol o1); TNum (ofZ n2)] /\
    MathProblem.factors p = Some [ofZ n0; ofZ n1; ofZ n2] /\
    MathProblem.isMultiStep p = Some true /\
    MathProblem.answer p = ofZ (precedence_value o0 o1 n0 n1 n2) /\
    (1 <= 10 -> 1 <= n0 <= 10 /\ 1 <= n1 <= 10 /\ 1 <= n2 <= 10).
Proof.
  intros random config.
  assert (Hdraws : binary64_draws random).
  { intros n. do 7 (destruct n as [|n]; [split; vm_compute; discriminate|]).
    split; vm_compute; discriminate. }
  split; [exact Hdraws|].
  apply (generateMultiStepProblem_precedence 0 config random 1 10);
    [reflexivity | reflexivity | simpl; lia | simpl; lia | exact Hdraws].
Defined.

(** ** Problem sets and the start of a session *)

Lemma generateProblem_returns now config random :
  ProblemConfig.multiStep config = true
  \/ In (ProblemConfig.operation config) operations ->
  exists p random',
    generateProblem now config random = Return (p, random') /\
    MathProblem.difficulty p = ProblemConfig.difficulty config /\
    MathProblem.timeGenerated p = now.
Proof.
  intros Hok.
  destruct (ProblemConfig.multiStep config) eqn:Hflag.
  - unfold generateProblem, generateId, bind, ret, Math_random. rewrite Hflag.
    unfold generateMultiStepProblem, randomInRange, bind, ret, Math_random.
    do 2 eexists. split; [reflexivity|]. split; reflexivity.
  - destruct Hok as [Hms|Hin]; [discriminate|].
    destruct (generateProblem_dispatch now config random Hflag)
      as (Ha & Hs & Hm & Hd & Hp).
    unfold operations in Hin. simpl in Hin.
    destruct Hin as [H|[H|[H|[H|[H|[]]]]]]; symmetry in H.
    + rewrite (Ha H). unfold generateAddition, randomInRange, bind, ret, Math_random.
      do 2 eexists. split; [reflexivity|]. split; reflexivity.
    + rewrite (Hs H).
      unfold generateSubtraction, randomInRange, bind, ret, Math_random.
      destruct (negb (ProblemConfig.includeNegatives config) && _);
        do 2 eexists; (split; [reflexivity|]); split; reflexivity.
    + rewrite (Hm H).
      unfold generateMultiplication, randomInRange, bind, ret, Math_random.
      do 2 eexists. split; [reflexivity|]. split; reflexivity.
    + rewrite (Hd H). unfold generateDivision, randomInRange, bind, ret, Math_random.
      do 2 eexists. split; [reflexivity|]. split; reflexivity.
    + rewrite (Hp H). unfold generatePercentage, randomInRange, bind, ret, Math_random.
      do 2 eexists. split; [reflexivity|]. split; reflexivity.
Qed.

Lemma generateProblemSet_loop_returns now config :
  ProblemConfig.multiStep config = true
  \/ In (ProblemConfig.operation config) operations ->
  forall n problems random,
  exists generated random',
    generateProblemSet_loop now config n problems random
    = Return (problems ++ generated, random') /\
    List.length generated = n /\
    Forall (fun p => MathProblem.difficulty p = ProblemConfig.difficulty config
                     /\ MathProblem.timeGenerated p = now) generated.
Proof.
  intros Hok. induction n as [|n IH]; intros problems random.
  - exists [], random. rewrite app_nil_r. repeat split. constructor.
  - destruct (generateProblem_returns now config random Hok)
      as (p & random1 & Hgen & Hd & Ht).
    destruct (IH (problems ++ [p]) random1)
      as (generated & random' & Hloop & Hlen & Hall).
    exists (p :: generated), random'.
    cbn [generateProblemSet_loop]. unfold bind at 1. rewrite Hgen, Hloop.
    rewrite <- app_assoc. split; [reflexivity|].
    split; [simpl; lia|]. constructor; [split; assumption | exact Hall].
Qed.

(** X6.  For a configuration with the [multiStep] flag or one of the five
    operations, [generateProblemSet] never throws: it returns exactly
    [count] problems (none when [count] is not positive), each with the
    difficulty of the configuration and the time of the call. *)
Theorem generateProblemSet_length
    (now : Z) (config : ProblemConfig.t) (count : Z) (random : rng) :
  ProblemConfig.multiStep config = true
  \/ In (ProblemConfig.operation config) operations ->
  exists problems random',
    generateProblemSet now config count random = Return (problems, random') /\
    Z.of_nat (List.length problems) = Z.max count 0 /\
    Forall (fun p => MathProblem.difficulty p = ProblemConfig.difficulty config
                     /\ MathProblem.timeGenerated p = now) problems.
Proof.
  intros Hok.
  destruct (generateProblemSet_loop_returns now config Hok (Z.to_nat count) [] random)
    as (generated & random' & Hloop & Hlen & Hall).
  exists generated, random'. split; [exact Hloop|].
  split; [lia | exact Hall].
Qed.

(** X6 for twenty beginner divisions. *)
Lemma generateProblemSet_length_witness :
  exists problems random',
    generateProblemSet 0 (beginner "division") 20 (constant_rng (1 # 2))
    = Return (problems, random') /\
    Z.of_nat (List.length problems) = Z.max 20 0 /\
    Forall (fun p => MathProblem.difficulty p = "beginner"%string
                     /\ MathProblem.timeGenerated p = 0) problems.
Proof.
  apply (generateProblemSet_length 0 (beginner "division") 20 (constant_rng (1 # 2))).
  right. unfold operations. simpl. tauto.
Defined.

Lemma generateProblem_throws now config random :
  ~ In (ProblemConfig.operation config) operations ->
  ProblemConfig.multiStep config = false ->
  generateProblem now config random
  = Throw ("Unsupported operation: " ++ ProblemConfig.operation config).
Proof.
  intros Hnot Hflag.
  apply unrecognised_operation_cases in Hnot as (Ha & Hs & Hm & Hd & Hp).
  unfold generateProblem, generateId, bind, ret, Math_random, throw.
  rewrite Hflag, Ha, Hs, Hm, Hd, Hp. reflexivity.
Qed.

(** X7.  With an operation that is none of the five, no [multiStep] flag
    and a session length of at least 1, [generateProblemSet] throws on its
    first problem, [startSession] throws the same error, and the state of
    the session is left as it was. *)
Theorem startSession_unrecognised_operation
    (parseFloat : string -> number) (mode : PracticeMode)
    (config : ProblemConfig.t) (sessionLength timeLimit now : Z) (random : rng)
    (state : PracticeSessionState.t) :
  ~ In (ProblemConfig.operation config) operations ->
  ProblemConfig.multiStep config = false ->
  1 <= sessionLength ->
  let message := ("Unsupported operation: " ++ ProblemConfig.operation config)%string in
  generateProblemSet now config sessionLength random = Throw message /\
  startSession mode config sessionLength timeLimit now random = Throw message /\
  step parseFloat mode config sessionLength timeLimit state (EStart now random)
  = state.
Proof.
  intros Hnot Hflag Hlen. cbv zeta.
  assert (Hset : generateProblemSet now config sessionLength random
                 = Throw ("Unsupported operation: " ++ ProblemConfig.operation config)).
  { unfold generateProblemSet.
    destruct (Z.to_nat sessionLength) as [|n] eqn:En; [lia|].
    cbn [generateProblemSet_loop]. unfold bind.
    rewrite (generateProblem_throws now config random Hnot Hflag). reflexivity. }
  assert (Hstart : startSession mode config sessionLength timeLimit now random
                   = Throw ("Unsupported operation: " ++ ProblemConfig.operation config)).
  { unfold startSession, bind. rewrite Hset. reflexivity. }
  split; [exact Hset|]. split; [exact Hstart|].
  cbn [step]. rewrite Hstart. reflexivity.
Qed.

(** X7 for the operation "modulo" and twenty problems. *)
Lemma startSession_unrecognised_operation_witness :
  ~ In "modulo"%string operations /\
  startSession accuracy (beginner "modulo") 20 600 0 (constant_rng 0)
  = Throw "Unsupported operation: modulo".
Proof.
  assert (Hnot : ~ In "modulo"%string operations).
  { unfold operations; simpl; intuition discriminate. }
  split; [exact Hnot|].
  apply (startSession_unrecognised_operation parseDigits accuracy (beginner "modulo")
           20 600 0 (constant_rng 0)
           (initialState accuracy 600) Hnot eq_refl ltac:(lia)).
Defined.

(** ** The shape of a session's state *)

Section SessionShape.

Import PracticeSessionState.

Variable parseFloat : string -> number.
Variable mode : PracticeMode.
Variable config : ProblemConfig.t.
Variable sessionLength timeLimit : Z.

Lemma array_at_nil {A} (i : Z) : array_at (@nil A) i = None.
Proof.
  unfold array_at. destruct (i <? 0); [reflexivity|].
  destruct (Z.to_nat i); reflexivity.
Qed.

Lemma initialState_shape : session_shape (initialState mode timeLimit).
Proof.
  unfold session_shape, initialState. cbn.
  repeat split; try lia; try discriminate. intros H. contradiction.
Qed.

Lemma step_shape state e :
  session_shape state ->
  session_shape (step parseFloat mode config sessionLength timeLimit state e).
Proof.
  intros Hshape.
  destruct e as [now random| |answer|now|now|]; cbn [step].
  - unfold startSession, bind, ret.
    destruct (generateProblemSet now config sessionLength random) as [[ps r]|msg];
      [|exact Hshape].
    unfold session_shape.
    cbn [problems currentProblemIndex isCorrect currentProblem isActive isComplete
         sessionStartTime correctAnswers timeElapsed].
    split; [lia|]. split.
    { intros ->. repeat split. }
    split.
    { intros Hne. destruct ps; [contradiction | simpl; lia]. }
    split; [|lia].
    intros _. repeat split. discriminate.
  - unfold tick. destruct Hshape as (H0 & Hnil & Hcons & Hact & Hc & Ht).
    destruct (isActive state) eqn:Hactive; cbn [negb];
      [|unfold session_shape; rewrite Hactive; tauto].
    destruct_if; unfold session_shape;
      cbn [problems currentProblemIndex isCorrect currentProblem isActive isComplete
           sessionStartTime correctAnswers timeElapsed].
    + repeat split; try tauto; try discriminate.
    + specialize (Hact eq_refl). rewrite ?Hactive.
      repeat split; try tauto; lia.
  - unfold submitAnswer. destruct Hshape as (H0 & Hnil & Hcons & Hact & Hc & Ht).
    destruct (currentProblem state) as [problem|] eqn:Hcur;
      [|unfold session_shape; rewrite Hcur; tauto].
    destruct (isActive state) eqn:Hactive; cbn [negb];
      [|unfold session_shape; rewrite Hcur, Hactive; tauto].
    unfold session_shape.
    cbn [problems currentProblemIndex isCorrect currentProblem isActive isComplete
         sessionStartTime correctAnswers timeElapsed].
    rewrite ?Hcur, ?Hactive. specialize (Hact eq_refl).
    split; [exact H0|]. split.
    { intros Hempty. destruct (Hnil Hempty) as (_ & _ & Hnone). discriminate. }
    split; [exact Hcons|]. split; [intros _; exact Hact|].
    split; [destruct (validateAnswer _ _ _); lia | exact Ht].
  - unfold nextProblem. destruct Hshape as (H0 & Hnil & Hcons & Hact & Hc & Ht).
    destruct (Z.leb_spec (Z.of_nat (List.length (problems state)))
                (currentProblemIndex state + 1)) as [Hlast|Hmore];
      unfold session_shape;
      cbn [problems currentProblemIndex isCorrect currentProblem isActive isComplete
           sessionStartTime correctAnswers timeElapsed].
    + repeat split;
        first [tauto | discriminate | lia | apply Hnil; assumption].
    + split; [lia|]. split.
      { intros Hempty. rewrite Hempty in Hmore. simpl in Hmore. lia. }
      split; [intros _; exact Hmore|].
      split; [|tauto].
      intros Hactive. specialize (Hact Hactive). repeat split; tauto.
  - unfold skipProblem, nextProblem.
    destruct Hshape as (H0 & Hnil & Hcons & Hact & Hc & Ht).
    destruct (Z.leb_spec (Z.of_nat (List.length (problems state)))
                (currentProblemIndex state + 1)) as [Hlast|Hmore];
      unfold session_shape;
      cbn [problems currentProblemIndex isCorrect currentProblem isActive isComplete
           sessionStartTime correctAnswers timeElapsed].
    + repeat split;
        first [tauto | discriminate | lia | apply Hnil; assumption].
    + split; [lia|]. split.
      { intros Hempty. rewrite Hempty in Hmore. simpl in Hmore. lia. }
      split; [intros _; exact Hmore|].
      split; [|tauto].
      intros Hactive. specialize (Hact Hactive). repeat split; tauto.
  - unfold endSession, session_shape.
    destruct Hshape as (H0 & Hnil & Hcons & Hact & Hc & Ht).
    cbn [problems currentProblemIndex isCorrect currentProblem isActive isComplete
         sessionStartTime correctAnswers timeElapsed].
    repeat split;
      first [tauto | discriminate | lia | apply Hnil; assumption].
Qed.

Lemma run_shape events :
  session_shape (run parseFloat mode config sessionLength timeLimit events).
Proof.
  apply (run_invariant parseFloat mode config sessionLength timeLimit session_shape).
  - apply initialState_shape.
  - intros state e. apply step_shape.
Qed.

End SessionShape.

Lemma percentage_of_part (i m : Z) :
  0 <= i < m ->
  (0 <= inject_Z i / inject_Z m * 100 /\ inject_Z i / inject_Z m * 100 < 100)%Q.
Proof.
  intros [Hi Him].
  assert (Hm : (0 < inject_Z m)%Q).
  { change 0%Q with (inject_Z 0). rewrite <- Zlt_Qlt. lia. }
  assert (Hlo : (0 <= inject_Z i / inject_Z m)%Q).
  { apply Qle_shift_div_l; [exact Hm|]. rewrite Qmult_0_l.
    change 0%Q with (inject_Z 0). rewrite <- Zle_Qle. exact Hi. }
  assert (Hhi : (inject_Z i / inject_Z m < 1)%Q).
  { apply Qlt_shift_div_r; [exact Hm|]. rewrite Qmult_1_l.
    rewrite <- Zlt_Qlt. exact Him. }
  split.
  - apply Qmult_le_0_compat; [exact Hlo | discriminate].
  - rewrite <- (Qmult_1_l 100) at 2.
    apply Qmult_lt_compat_r; [reflexivity | exact Hhi].
Qed.

(** X8.  In every state a session reaches, the [progress] object counts a
    number of completed problems that is not negative and is below the
    total (or 0 of 0), and its percentage is at least 0 and strictly below
    100: it does not reach 100 when the session completes. *)
Theorem progress_stays_below_100
    (parseFloat : string -> number) (mode : PracticeMode)
    (config : ProblemConfig.t) (sessionLength timeLimit : Z)
    (events : list event) :
  let state := run parseFloat mode config sessionLength timeLimit events in
  let p := progress state in
  0 <= SessionProgress.completed p /\
  (SessionProgress.completed p < SessionProgress.total p
   \/ (SessionProgress.total p = 0 /\ SessionProgress.completed p = 0)) /\
  (0 <= SessionProgress.percentage p)%Q /\
  (SessionProgress.percentage p < 100)%Q.
Proof.
  cbv zeta.
  pose proof (run_shape parseFloat mode config sessionLength timeLimit events)
    as (H0 & Hnil & Hcons & _).
  remember (run parseFloat mode config sessionLength timeLimit events) as state.
  unfold progress.
  cbn [SessionProgress.completed SessionProgress.total SessionProgress.percentage].
  rewrite Qred_correct.
  destruct (PracticeSessionState.problems state) as [|p ps] eqn:Hps.
  - destruct (Hnil eq_refl) as (Hi & _). rewrite Hi.
    split; [lia|]. split; [right; split; reflexivity|].
    split; [discriminate | reflexivity].
  - assert (Hlt : PracticeSessionState.currentProblemIndex state
                  < Z.of_nat (List.length (p :: ps))) by (apply Hcons; discriminate).
    split; [exact H0|]. split; [left; exact Hlt|].
    replace (Z.max (Z.of_nat (List.length (p :: ps))) 1)
      with (Z.of_nat (List.length (p :: ps))) by (simpl List.length; lia).
    apply percentage_of_part. split; assumption.
Qed.

(** X9.  In every state a session reaches, a running session is not
    complete, and when it has problems at all its current problem is the
    problem at the current index of the list. *)
Theorem running_session_has_its_problem
    (parseFloat : string -> number) (mode : PracticeMode)
    (config : ProblemConfig.t) (sessionLength timeLimit : Z)
    (events : list event) :
  let state := run parseFloat mode config sessionLength timeLimit events in
  PracticeSessionState.isActive state = true ->
  PracticeSessionState.isComplete state = false /\
  (PracticeSessionState.problems state <> [] ->
   exists problem,
     PracticeSessionState.currentProblem state = Some problem /\
     nth_error (PracticeSessionState.problems state)
       (Z.to_nat (PracticeSessionState.currentProblemIndex state))
     = Some problem).
Proof.
  cbv zeta. intros Hactive.
  pose proof (run_shape parseFloat mode config sessionLength timeLimit events)
    as (H0 & _ & Hcons & Hact & _).
  destruct (Hact Hactive) as (Hcomplete & Hcur & _).
  split; [exact Hcomplete|]. intros Hne. specialize (Hcons Hne).
  rewrite Hcur. unfold array_at.
  destruct (Z.ltb_spec
              (PracticeSessionState.currentProblemIndex
                 (run parseFloat mode config sessionLength timeLimit events)) 0)
    as [Hneg|_]; [lia|].
  destruct (nth_error _ _) as [problem|] eqn:Hnth.
  - exists problem. split; reflexivity.
  - apply nth_error_None in Hnth. lia.
Qed.

(** X9 on a session of two additions after an answer and an advance. *)
Lemma running_session_has_its_problem_witness :
  let state := additionSession accuracy 2 600 [ESubmit "2"; EAdvance 1500] in
  PracticeSessionState.isActive state = true /\
  PracticeSessionState.isComplete state = false /\
  (PracticeSessionState.problems state <> [] ->
   exists problem,
     PracticeSessionState.currentProblem state = Some problem /\
     nth_error (PracticeSessionState.problems state)
       (Z.to_nat (PracticeSessionState.currentProblemIndex state))
     = Some problem).
Proof.
  intros state. split; [reflexivity|].
  apply (running_session_has_its_problem parseDigits accuracy (beginner "addition")
           2 600 [EStart 0 (constant_rng 0); ESubmit "2"; EAdvance 1500]).
  reflexivity.
Defined.

Lemma saveResults_returns mode config now state db :
  PracticeSessionState.sessionStartTime state <> None ->
  exists written,
    saveResults mode config now state db = Return (sessionResults state, written) /\
    Table.toArray (DB.practiceSessions written)
    = Table.toArray (DB.practiceSessions db)
      ++ [sessionData mode config (sessionResults state)] /\
    DB.achievements written = DB.achievements db.
Proof.
  intros Hstart. unfold saveResults.
  destruct (PracticeSessionState.sessionStartTime state) as [t|]; [|contradiction].
  eexists. split; [reflexivity|]. split; [|reflexivity].
  cbn [DB.practiceSessions]. unfold Table.toArray, Table.add.
  cbn [Table.rows]. rewrite map_app. reflexivity.
Qed.

(** The first query of [checkAchievements] is rejected, so the call is, and
    nothing is written. *)
Lemma checkAchievements_rejects now sessionData db :
  checkAchievements now sessionData db = (Throw invalidKey, db).
Proof. reflexivity. Qed.

Lemma saveResults_promise_rejects mode config now state db results written :
  saveResults mode config now state db = Return (results, written) ->
  saveResults_promise mode config now state db = (Throw invalidKey, written).
Proof.
  intros Hsave. unfold saveResults_promise. rewrite Hsave.
  rewrite checkAchievements_rejects. reflexivity.
Qed.

(** X10.  [saveResults] does not ask whether the session is complete, and
    no call of it is fulfilled.  On every running state a session reaches,
    the call stores the session row computed from the counters so far and
    then rejects in the achievement check, whose query for the locked
    achievements has a key that is not valid; the achievements stay as they
    were.  A call on a session that was never started rejects with
    "Session not started" and writes nothing. *)
Theorem saveResults_rejects_after_writing
    (parseFloat : string -> number) (mode : PracticeMode)
    (config : ProblemConfig.t) (sessionLength timeLimit : Z)
    (events : list event) (now : Z) (db : DB.t) :
  let state := run parseFloat mode config sessionLength timeLimit events in
  (PracticeSessionState.isActive state = true ->
   exists saved,
     saveResults_promise mode config now state db = (Throw invalidKey, saved) /\
     Table.toArray (DB.practiceSessions saved)
     = Table.toArray (DB.practiceSessions db)
       ++ [sessionData mode config (sessionResults state)] /\
     DB.achievements saved = DB.achievements db) /\
  (PracticeSessionState.sessionStartTime state = None ->
   saveResults_promise mode config now state db
   = (Throw "Session not started", db)).
Proof.
  cbv zeta. split.
  - intros Hactive.
    pose proof (run_shape parseFloat mode config sessionLength timeLimit events)
      as (_ & _ & _ & Hact & _).
    destruct (Hact Hactive) as (_ & _ & Hstart).
    destruct (saveResults_returns mode config now _ db Hstart)
      as (written & Hsave & Hrows & Hachievements).
    exists written. split; [|split; assumption].
    exact (saveResults_promise_rejects _ _ _ _ _ _ _ Hsave).
  - intros Hnone. unfold saveResults_promise, saveResults. rewrite Hnone.
    reflexivity.
Qed.

(** X10 on a session of two additions in which one answer was given, and
    on the state before any session was started. *)
Lemma saveResults_rejects_after_writing_witness :
  let state := additionSession accuracy 2 600 [ETick; ESubmit "2"] in
  PracticeSessionState.isActive state = true /\
  (exists saved,
      saveResults_promise accuracy (beginner "addition") 5000 state DB.empty
      = (Throw invalidKey, saved) /\
      Table.toArray (DB.practiceSessions saved)
      = Table.toArray (DB.practiceSessions DB.empty)
        ++ [sessionData accuracy (beginner "addition") (sessionResults state)] /\
      DB.achievements saved = DB.achievements DB.empty) /\
  saveResults_promise accuracy (beginner "addition") 5000
    (initialState accuracy 600) DB.empty
  = (Throw "Session not started", DB.empty).
Proof.
  intros state. split; [reflexivity|]. split.
  - apply (proj1 (saveResults_rejects_after_writing parseDigits accuracy
                    (beginner "addition") 2 600
                    [EStart 0 (constant_rng 0); ETick; ESubmit "2"] 5000 DB.empty)).
    reflexivity.
  - apply (proj2 (saveResults_rejects_after_writing parseDigits accuracy
                    (beginner "addition") 2 600 [] 5000 DB.empty)).
    reflexivity.
Defined.

Lemma generateProblemSet_loop_length now config n :
  forall problems random generated random',
    generateProblemSet_loop now config n problems random
    = Return (generated, random') ->
    List.length generated = (List.length problems + n)%nat.
Proof.
  induction n as [|n IH]; intros problems random generated random' Hloop.
  - cbn in Hloop. injection Hloop as <- _. lia.
  - cbn [generateProblemSet_loop] in Hloop. unfold bind at 1 in Hloop.
    destruct (generateProblem now config random) as [[p r]|msg]; [|discriminate].
    apply IH in Hloop. rewrite Hloop, length_app. simpl. lia.
Qed.

Lemma problems_at_most_sessionLength
    (parseFloat : string -> number) (mode : PracticeMode)
    (config : ProblemConfig.t) (sessionLength timeLimit : Z)
    (events : list event) :
  Z.of_nat (List.length
              (PracticeSessionState.problems
                 (run parseFloat mode config sessionLength timeLimit events)))
  <= Z.max sessionLength 0.
Proof.
  apply (run_invariant parseFloat mode config sessionLength timeLimit
           (fun state =>
              Z.of_nat (List.length (PracticeSessionState.problems state))
              <= Z.max sessionLength 0)).
  - simpl. lia.
  - intros state e Hinv.
    destruct e as [now random| |answer|now|now|]; cbn [step].
    + unfold startSession, bind, ret.
      destruct (generateProblemSet now config sessionLength random)
        as [[ps r]|msg] eqn:Hset; [|exact Hinv].
      cbn [PracticeSessionState.problems].
      apply generateProblemSet_loop_length in Hset. rewrite Hset. simpl. lia.
    + unfold tick. destruct (negb _); [exact Hinv|]. destruct_if; exact Hinv.
    + unfold submitAnswer.
      destruct (PracticeSessionState.currentProblem state); [|exact Hinv].
      destruct (negb _); exact Hinv.
    + unfold nextProblem. destruct_if; exact Hinv.
    + unfold skipProblem, nextProblem. destruct_if; exact Hinv.
    + exact Hinv.
Qed.

(** X11.  In every state a session reaches, the results that [saveResults]
    computes count a number of solved problems between 0 and the number of
    generated problems, which is at most the session length, and an
    accuracy and an average time that are not negative. *)
Theorem sessionResults_bounds
    (parseFloat : string -> number) (mode : PracticeMode)
    (config : ProblemConfig.t) (sessionLength timeLimit : Z)
    (events : list event) :
  let state := run parseFloat mode config sessionLength timeLimit events in
  let results := sessionResults state in
  0 <= SessionResults.problemsSolved results
    <= Z.of_nat (List.length (PracticeSessionState.problems state)) /\
  SessionResults.problemsSolved results <= Z.max sessionLength 0 /\
  0 <= SessionResults.correctAnswers results /\
  (0 <= SessionResults.accuracy results)%Q /\
  (0 <= SessionResults.averageTime results)%Q.
Proof.
  cbv zeta.
  pose proof (problems_at_most_sessionLength parseFloat mode config sessionLength
                timeLimit events) as Hlen.
  pose proof (run_shape parseFloat mode config sessionLength timeLimit events)
    as (H0 & Hnil & Hcons & _ & Hc & Ht).
  remember (run parseFloat mode config sessionLength timeLimit events) as state.
  unfold sessionResults.
  cbn [SessionResults.problemsSolved SessionResults.correctAnswers
       SessionResults.accuracy SessionResults.averageTime].
  assert (Hsolved :
            0 <= PracticeSessionState.currentProblemIndex state
                 + match PracticeSessionState.isCorrect state with
                   | Some _ => 1
                   | None => 0
                   end
            <= Z.of_nat (List.length (PracticeSessionState.problems state))).
  { destruct (PracticeSessionState.problems state) as [|p ps] eqn:Hps.
    - destruct (Hnil eq_refl) as (-> & -> & _). simpl. lia.
    - assert (PracticeSessionState.currentProblemIndex state
              < Z.of_nat (List.length (p :: ps))) by (apply Hcons; discriminate).
      destruct (PracticeSessionState.isCorrect state); lia. }
  split; [exact Hsolved|]. split; [lia|]. split; [exact Hc|].
  assert (Hden : (0 < inject_Z
                        (Z.max (PracticeSessionState.currentProblemIndex state) 1))%Q).
  { change 0%Q with (inject_Z 0). rewrite <- Zlt_Qlt. lia. }
  rewrite !Qred_correct. split.
  - apply Qmult_le_0_compat; [|discriminate].
    apply Qle_shift_div_l; [exact Hden|]. rewrite Qmult_0_l.
    change 0%Q with (inject_Z 0). rewrite <- Zle_Qle. exact Hc.
  - apply Qle_shift_div_l; [exact Hden|]. rewrite Qmult_0_l.
    change 0%Q with (inject_Z 0). rewrite <- Zle_Qle. exact Ht.
Qed.

(** ** After the end of a session *)

Lemma step_after_end parseFloat mode config sessionLength timeLimit state e :
  PracticeSessionState.isActive state = false ->
  not_a_start e ->
  let next := step parseFloat mode config sessionLength timeLimit state e in
  PracticeSessionState.isActive next = false /\
  PracticeSessionState.score next = PracticeSessionState.score state /\
  PracticeSessionState.correctAnswers next
  = PracticeSessionState.correctAnswers state /\
  PracticeSessionState.timeElapsed next = PracticeSessionState.timeElapsed state /\
  PracticeSessionState.timeRemaining next
  = PracticeSessionState.timeRemaining state /\
  (PracticeSessionState.isComplete state = true ->
   PracticeSessionState.isComplete next = true).
Proof.
  intros Hinactive Hevent.
  destruct e as [now random| |answer|now|now|]; cbn [step]; cbv zeta.
  - destruct Hevent.
  - unfold tick. rewrite Hinactive. cbn [negb]. repeat split; tauto.
  - unfold submitAnswer.
    destruct (PracticeSessionState.currentProblem state);
      rewrite ?Hinactive; cbn [negb]; repeat split; tauto.
  - unfold nextProblem. destruct_if;
      cbn [PracticeSessionState.isActive PracticeSessionState.score
           PracticeSessionState.correctAnswers PracticeSessionState.timeElapsed
           PracticeSessionState.timeRemaining PracticeSessionState.isComplete];
      repeat split; tauto.
  - unfold skipProblem, nextProblem. destruct_if;
      cbn [PracticeSessionState.isActive PracticeSessionState.score
           PracticeSessionState.correctAnswers PracticeSessionState.timeElapsed
           PracticeSessionState.timeRemaining PracticeSessionState.isComplete];
      repeat split; tauto.
  - unfold endSession.
    cbn [PracticeSessionState.isActive PracticeSessionState.score
         PracticeSessionState.correctAnswers PracticeSessionState.timeElapsed
         PracticeSessionState.timeRemaining PracticeSessionState.isComplete].
    repeat split; tauto.
Qed.

(** X12.  Once a session is not running, nothing but a new start changes
    its score, its correct answers or its times, and nothing but a new
    start makes it run again: ticks still firing, a late submission, a
    pending automatic advance, a skip and a second end leave them as they
    are, and a complete session stays complete. *)
Theorem ended_session_is_frozen
    (parseFloat : string -> number) (mode : PracticeMode)
    (config : ProblemConfig.t) (sessionLength timeLimit : Z)
    (state : PracticeSessionState.t) (events : list event) :
  PracticeSessionState.isActive state = false ->
  Forall not_a_start events ->
  let final :=
    fold_left (step parseFloat mode config sessionLength timeLimit) events state in
  PracticeSessionState.isActive final = false /\
  PracticeSessionState.score final = PracticeSessionState.score state /\
  PracticeSessionState.correctAnswers final
  = PracticeSessionState.correctAnswers state /\
  PracticeSessionState.timeElapsed final = PracticeSessionState.timeElapsed state /\
  PracticeSessionState.timeRemaining final
  = PracticeSessionState.timeRemaining state /\
  (PracticeSessionState.isComplete state = true ->
   PracticeSessionState.isComplete final = true).
Proof.
  intros Hinactive Hevents. cbv zeta. revert state Hinactive.
  induction Hevents as [|e events He _ IH]; intros state Hinactive.
  - simpl. repeat split; tauto.
  - cbn [fold_left].
    destruct (step_after_end parseFloat mode config sessionLength timeLimit
                state e Hinactive He) as (Ha & Hs & Hc & Ht & Hr & Hk).
    destruct (IH _ Ha) as (Ha' & Hs' & Hc' & Ht' & Hr' & Hk').
    repeat split; try congruence. intros H. apply Hk', Hk, H.
Qed.

(** X12 on a session of two additions ended after one correct answer, with
    a tick, a second answer, the pending advance and a skip after the end. *)
Lemma ended_session_is_frozen_witness :
  let state := additionSession accuracy 2 600 [ETick; ESubmit "2"; EEnd] in
  let final :=
    fold_left (step parseDigits accuracy (beginner "addition") 2 600)
      [ETick; ESubmit "2"; EAdvance 3000; ESkip 3500] state in
  Forall not_a_start [ETick; ESubmit "2"; EAdvance 3000; ESkip 3500] /\
  PracticeSessionState.isActive final = false /\
  PracticeSessionState.score final = 10 /\
  PracticeSessionState.correctAnswers final = 1 /\
  PracticeSessionState.timeElapsed final = 1 /\
  PracticeSessionState.isComplete final = true.
Proof.
  intros state final.
  assert (Hevents : Forall not_a_start [ETick; ESubmit "2"; EAdvance 3000; ESkip 3500]).
  { repeat constructor. }
  split; [exact Hevents|].
  destruct (ended_session_is_frozen parseDigits accuracy (beginner "addition") 2 600
              state [ETick; ESubmit "2"; EAdvance 3000; ESkip 3500]
              eq_refl Hevents) as (Ha & Hs & Hc & Ht & _ & Hk).
  split; [exact Ha|]. split; [exact Hs|]. split; [exact Hc|].
  split; [exact Ht|]. apply Hk. reflexivity.
Defined.

(** ** The clock of a session *)

Lemma ticks_succ mode n state :
  ticks mode (S n) state = tick mode (ticks mode n state).
Proof.
  revert state. induction n as [|n IH]; intros state.
  - reflexivity.
  - cbn [ticks] in *. rewrite IH. reflexivity.
Qed.

Lemma ticks_running (n : nat) :
  forall state L,
    PracticeSessionState.isActive state = true ->
    PracticeSessionState.timeRemaining state = Some L ->
    Z.of_nat n < L ->
    let later := ticks timed n state in
    PracticeSessionState.isActive later = true /\
    PracticeSessionState.timeElapsed later
    = PracticeSessionState.timeElapsed state + Z.of_nat n /\
    PracticeSessionState.timeRemaining later = Some (L - Z.of_nat n).
Proof.
  induction n as [|n IH]; intros state L Hactive Hremaining Hlt; cbv zeta.
  - cbn [ticks]. rewrite Z.add_0_r, Z.sub_0_r. repeat split; assumption.
  - rewrite ticks_succ.
    destruct (IH state L Hactive Hremaining ltac:(lia)) as (Ha & He & Hr).
    destruct (tick_counts_a_second timed (ticks timed n state) Ha) as (Ha' & He' & Hr').
    { intros _. exists (L - Z.of_nat n). split; [exact Hr | lia]. }
    split; [exact Ha'|]. split; [rewrite He', He; lia|].
    rewrite Hr'. cbn [is_timed]. rewrite Hr. cbn [option_map]. f_equal. lia.
Qed.

Lemma tick_stopped mode state :
  PracticeSessionState.isActive state = false -> tick mode state = state.
Proof. intros H. unfold tick. rewrite H. reflexivity. Qed.

Lemma ticks_stopped mode n state :
  PracticeSessionState.isActive state = false -> ticks mode n state = state.
Proof.
  intros H. induction n as [|n IH]; [reflexivity|].
  rewrite ticks_succ, IH. apply tick_stopped, H.
Qed.

Lemma ticks_add mode n m state :
  ticks mode (n + m) state = ticks mode m (ticks mode n state).
Proof.
  revert state. induction n as [|n IH]; intros state; [reflexivity|].
  cbn [Nat.add ticks]. apply IH.
Qed.

(** X13.  A running timed session with [L >= 1] seconds remaining, left to
    its clock: after [n < L] ticks it is still running, with [n] more
    seconds elapsed and [L - n] remaining; from the [L]-th tick on it is
    complete, and the elapsed time it keeps is [L - 1] more seconds, the
    remaining time 1.  In the other modes the clock never ends a session:
    after [n] ticks it is running with [n] more seconds elapsed. *)
Theorem session_clock
    (state : PracticeSessionState.t) (L : Z) :
  PracticeSessionState.isActive state = true ->
  (PracticeSessionState.timeRemaining state = Some L -> 1 <= L ->
   (forall n, Z.of_nat n < L ->
      let later := ticks timed n state in
      PracticeSessionState.isActive later = true /\
      PracticeSessionState.timeElapsed later
      = PracticeSessionState.timeElapsed state + Z.of_nat n /\
      PracticeSessionState.timeRemaining later = Some (L - Z.of_nat n)) /\
   (forall n, L <= Z.of_nat n ->
      let later := ticks timed n state in
      PracticeSessionState.isActive later = false /\
      PracticeSessionState.isComplete later = true /\
      PracticeSessionState.timeElapsed later
      = PracticeSessionState.timeElapsed state + L - 1 /\
      PracticeSessionState.timeRemaining later = Some 1)) /\
  (forall mode n,
      is_timed mode = false ->
      let later := ticks mode n state in
      PracticeSessionState.isActive later = true /\
      PracticeSessionState.timeElapsed later
      = PracticeSessionState.timeElapsed state + Z.of_nat n).
Proof.
  intros Hactive. split.
  - intros Hremaining HL. split.
    + intros n Hn. exact (ticks_running n state L Hactive Hremaining Hn).
    + intros n Hn. cbv zeta.
      replace n with (Z.to_nat (L - 1) + (1 + (n - Z.to_nat L)))%nat by lia.
      rewrite ticks_add.
      destruct (ticks_running (Z.to_nat (L - 1)) state L Hactive Hremaining
                  ltac:(lia)) as (Ha & He & Hr).
      remember (ticks timed (Z.to_nat (L - 1)) state) as before eqn:Eb.
      rewrite ticks_add. cbn [ticks].
      assert (Hlast : PracticeSessionState.isActive (tick timed before) = false /\
                      PracticeSessionState.isComplete (tick timed before) = true /\
                      PracticeSessionState.timeElapsed (tick timed before)
                      = PracticeSessionState.timeElapsed before /\
                      PracticeSessionState.timeRemaining (tick timed before)
                      = PracticeSessionState.timeRemaining before).
      { unfold tick. rewrite Ha, Hr. cbn [negb is_timed andb].
        replace (Z.max 0 (L - Z.of_nat (Z.to_nat (L - 1)) - 1) =? 0) with true
          by (symmetry; apply Z.eqb_eq; lia).
        repeat split. }
      destruct Hlast as (Hla & Hlc & Hle & Hlr).
      rewrite (ticks_stopped timed _ _ Hla).
      split; [exact Hla|]. split; [exact Hlc|].
      split; [rewrite Hle, He; lia|].
      rewrite Hlr, Hr. f_equal. lia.
  - intros mode n Hmode. cbv zeta.
    induction n as [|n IH].
    + cbn [ticks]. split; [exact Hactive | simpl; lia].
    + rewrite ticks_succ. destruct IH as (Ha & He).
      destruct (tick_counts_a_second mode (ticks mode n state) Ha) as (Ha' & He' & _).
      { intros Htimed. congruence. }
      split; [exact Ha'|]. rewrite He', He. lia.
Qed.

(** X13 on a timed session of ten minutes: after 599 ticks it is running
    with one second left, after 600 ticks it is complete with 599 seconds
    elapsed. *)
Lemma session_clock_witness :
  let state := additionSession timed 20 600 [] in
  let late := ticks timed 599 state in
  let over := ticks timed 600 state in
  PracticeSessionState.isActive state = true /\
  PracticeSessionState.timeRemaining state = Some 600 /\
  (PracticeSessionState.isActive late = true /\
   PracticeSessionState.timeElapsed late = 599 /\
   PracticeSessionState.timeRemaining late = Some 1) /\
  (PracticeSessionState.isActive over = false /\
   PracticeSessionState.isComplete over = true /\
   PracticeSessionState.timeElapsed over = 599 /\
   PracticeSessionState.timeRemaining over = Some 1).
Proof.
  intros state late over.
  assert (Hactive : PracticeSessionState.isActive state = true) by reflexivity.
  assert (Hremaining : PracticeSessionState.timeRemaining state = Some 600)
    by reflexivity.
  split; [exact Hactive|]. split; [exact Hremaining|].
  destruct (session_clock state 600 Hactive) as (Htimed & _).
  destruct (Htimed Hremaining ltac:(lia)) as (Hbefore & Hafter).
  split.
  - apply (Hbefore 599%nat). lia.
  - apply (Hafter 600%nat). lia.
Defined.

(** ** What [saveResults] writes *)

Lemma find_some_split {A} (f : A -> bool) (l : list A) (x : A) :
  find f l = Some x ->
  exists l1 l2, l = l1 ++ x :: l2 /\ f x = true /\ Forall (fun y => f y = false) l1.
Proof.
  induction l as [|h t IH]; intros Hfind; [discriminate|].
  simpl in Hfind. destruct (f h) eqn:Hh.
  - injection Hfind as <-. exists [], t. repeat split; [exact Hh | constructor].
  - destruct (IH Hfind) as (l1 & l2 & -> & Hx & Hall).
    exists (h :: l1), l2. repeat split; [exact Hx | constructor; assumption].
Qed.

Lemma find_none_filter {A} (f : A -> bool) (l : list A) :
  find f l = None -> filter f l = [].
Proof.
  induction l as [|h t IH]; intros Hfind; [reflexivity|].
  simpl in *. destruct (f h); [discriminate | apply IH, Hfind].
Qed.

Lemma update_other_keys {A} (key : Z) (changes : A -> A) (l : list (Z * A)) :
  ~ In key (map fst l) ->
  map (fun r => if fst r =? key then (fst r, changes (snd r)) else r) l = l.
Proof.
  induction l as [|h t IH]; intros Hnot; [reflexivity|].
  simpl in *. destruct (Z.eqb_spec (fst h) key) as [E|_]; [tauto|].
  f_equal. apply IH. tauto.
Qed.

Lemma update_unique {A} (key : Z) (changes : A -> A) (l1 l2 : list (Z * A)) (x : A) :
  NoDup (map fst (l1 ++ (key, x) :: l2)) ->
  map (fun r => if fst r =? key then (fst r, changes (snd r)) else r)
      (l1 ++ (key, x) :: l2)
  = l1 ++ (key, changes x) :: l2.
Proof.
  intros Hnodup. rewrite map_app in Hnodup. cbn [map fst] in Hnodup.
  pose proof (NoDup_remove_2 _ _ _ Hnodup) as Hnot.
  rewrite in_app_iff in Hnot.
  rewrite map_app. cbn [map fst snd]. rewrite Z.eqb_refl.
  rewrite !update_other_keys by tauto. reflexivity.
Qed.

Lemma sumZ_app (l1 l2 : list Z) : sumZ (l1 ++ l2) = sumZ l1 + sumZ l2.
Proof. induction l1 as [|h t IH]; simpl; [reflexivity | rewrite IH; lia]. Qed.

Lemma uniqueKeys_add {A} (row : A) (tbl : Table.t A) :
  uniqueKeys tbl -> uniqueKeys (Table.add row tbl).
Proof.
  intros [Hnodup Hbelow]. unfold uniqueKeys, Table.add.
  cbn [Table.rows Table.nextId]. rewrite map_app. cbn [map fst]. split.
  - apply NoDup_app; [exact Hnodup | repeat constructor; intros [] |].
    intros k Hk [<-|[]]. rewrite Forall_forall in Hbelow.
    specialize (Hbelow _ Hk). lia.
  - apply Forall_app. split.
    + eapply Forall_impl; [|exact Hbelow]. simpl. intros k Hk. lia.
    + repeat constructor. lia.
Qed.

Lemma uniqueKeys_update {A} (key : Z) (changes : A -> A) (tbl : Table.t A) :
  uniqueKeys tbl -> uniqueKeys (Table.update key changes tbl).
Proof.
  unfold uniqueKeys, Table.update. cbn [Table.rows Table.nextId].
  rewrite map_map.
  replace (map (fun r => fst (if fst r =? key then (fst r, changes (snd r)) else r))
             (Table.rows tbl))
    with (map fst (Table.rows tbl)); [tauto|].
  apply map_ext. intros r. destruct (fst r =? key); reflexivity.
Qed.

Lemma bucket_test_other (op diff op' diff' : string) :
  op' <> op \/ diff' <> diff ->
  ((op =? op')%string && (diff =? diff')%string) = false.
Proof.
  intros [H|H].
  - replace (op =? op')%string with false; [reflexivity|].
    symmetry. apply String.eqb_neq. congruence.
  - replace (diff =? diff')%string with false; [apply andb_false_r|].
    symmetry. apply String.eqb_neq. congruence.
Qed.

(** The writes of [saveResults] on a progress table with distinct keys. *)
Lemma saveResults_writes
    (mode : PracticeMode) (config : ProblemConfig.t) (now : Z)
    (state : PracticeSessionState.t) (db saved : DB.t)
    (results : SessionResults.t) :
  uniqueKeys (DB.userProgress db) ->
  saveResults mode config now state db = Return (results, saved) ->
  let operation := ProblemConfig.operation config in
  let difficulty := ProblemConfig.difficulty config in
  progressTotals saved
  = (let '(solved, correct, time) := progressTotals db in
     (solved + SessionResults.problemsSolved results,
      correct + SessionResults.correctAnswers results,
      time + SessionResults.totalTime results)) /\
  List.length (bucketsOf saved operation difficulty)
  = Nat.max 1 (List.length (bucketsOf db operation difficulty)) /\
  (forall operation' difficulty',
      operation' <> operation \/ difficulty' <> difficulty ->
      bucketsOf saved operation' difficulty' = bucketsOf db operation' difficulty') /\
  Table.toArray (DB.practiceSessions saved)
  = Table.toArray (DB.practiceSessions db) ++ [sessionData mode config results] /\
  DB.achievements saved = DB.achievements db /\
  DB.userSettings saved = DB.userSettings db /\
  uniqueKeys (DB.userProgress saved).
Proof.
  intros Hkeys Hsave. cbv zeta. unfold saveResults in Hsave.
  destruct (PracticeSessionState.sessionStartTime state) as [started|];
    [|discriminate].
  remember (sessionResults state) as computed eqn:Ecomputed in Hsave.
  clear Ecomputed. cbv zeta in Hsave. injection Hsave as Hresults Hsaved.
  subst computed saved.
  unfold progressTotals, bucketsOf.
  cbn [DB.userProgress DB.practiceSessions DB.achievements DB.userSettings].
  unfold existingProgress.
  destruct (find _ (Table.rows (DB.userProgress db))) as [[key existing]|] eqn:Hfind.
  - apply find_some_split in Hfind as (l1 & l2 & Hrows & Hmatch & _).
    cbn [snd] in Hmatch. apply andb_prop in Hmatch as [Hop Hdiff].
    apply String.eqb_eq in Hop, Hdiff.
    destruct Hkeys as [Hnodup Hbelow].
    assert (Hupdated :
              Table.toArray
                (Table.update key
                   (fun row =>
                      UserProgress.mk
                        (UserProgress.operation row) (UserProgress.difficulty row)
                        (UserProgress.problemsSolved existing
                         + SessionResults.problemsSolved results)
                        (UserProgress.correctAnswers existing
                         + SessionResults.correctAnswers results)
                        (UserProgress.totalTime existing
                         + SessionResults.totalTime results)
                        (UserProgress.bestTime row) (UserProgress.streak row)
                        (Some now) (UserProgress.createdAt row) now)
                   (DB.userProgress db))
              = map snd l1
                ++ UserProgress.mk
                     (UserProgress.operation existing)
                     (UserProgress.difficulty existing)
                     (UserProgress.problemsSolved existing
                      + SessionResults.problemsSolved results)
                     (UserProgress.correctAnswers existing
                      + SessionResults.correctAnswers results)
                     (UserProgress.totalTime existing
                      + SessionResults.totalTime results)
                     (UserProgress.bestTime existing) (UserProgress.streak existing)
                     (Some now) (UserProgress.createdAt existing) now
                :: map snd l2).
    { unfold Table.toArray, Table.update. cbn [Table.rows].
      rewrite Hrows in Hnodup |- *.
      pose proof (update_unique key
                    (fun row =>
                       UserProgress.mk
                         (UserProgress.operation row) (UserProgress.difficulty row)
                         (UserProgress.problemsSolved existing
                          + SessionResults.problemsSolved results)
                         (UserProgress.correctAnswers existing
                          + SessionResults.correctAnswers results)
                         (UserProgress.totalTime existing
                          + SessionResults.totalTime results)
                         (UserProgress.bestTime row) (UserProgress.streak row)
                         (Some now) (UserProgress.createdAt row) now)
                    l1 l2 existing Hnodup) as Hu.
      cbv beta in Hu. rewrite Hu, map_app. reflexivity. }
    rewrite Hupdated.
    assert (Hold : Table.toArray (DB.userProgress db)
                   = map snd l1 ++ existing :: map snd l2).
    { unfold Table.toArray. rewrite Hrows, map_app. reflexivity. }
    rewrite Hold.
    split.
    { rewrite !map_app, !sumZ_app. cbn [map sumZ fold_right
        UserProgress.problemsSolved UserProgress.correctAnswers
        UserProgress.totalTime].
      f_equal; [f_equal|]; unfold sumZ; lia. }
    split.
    { rewrite !filter_app, !length_app. cbn [filter
        UserProgress.operation UserProgress.difficulty].
      rewrite Hop, Hdiff, !String.eqb_refl. cbn [andb List.length]. lia. }
    split.
    { intros operation' difficulty' Hother.
      rewrite !filter_app. cbn [filter UserProgress.operation UserProgress.difficulty].
      rewrite Hop, Hdiff.
      rewrite (bucket_test_other _ _ _ _ Hother). reflexivity. }
    split.
    { unfold Table.toArray, Table.add. cbn [Table.rows].
      rewrite map_app. reflexivity. }
    split; [reflexivity|]. split; [reflexivity|].
    apply uniqueKeys_update. split; assumption.
  - assert (Hnone : filter
                      (fun row =>
                         (UserProgress.operation row
                          =? ProblemConfig.operation config)%string
                         && (UserProgress.difficulty row
                             =? ProblemConfig.difficulty config)%string)
                      (Table.toArray (DB.userProgress db)) = []).
    { unfold Table.toArray. apply find_none_filter.
      clear -Hfind. induction (Table.rows (DB.userProgress db)) as [|h t IH];
        [reflexivity|].
      simpl in *. destruct (_ && _); [discriminate | apply IH, Hfind]. }
    assert (Hadded : forall row,
              Table.toArray (Table.add row (DB.userProgress db))
              = Table.toArray (DB.userProgress db) ++ [row]).
    { intros row. unfold Table.toArray, Table.add. cbn [Table.rows].
      rewrite map_app. reflexivity. }
    rewrite Hadded.
    split.
    { rewrite !map_app, !sumZ_app. cbn [map sumZ fold_right
        UserProgress.problemsSolved UserProgress.correctAnswers
        UserProgress.totalTime].
      f_equal; [f_equal|]; lia. }
    split.
    { rewrite filter_app, length_app, Hnone.
      cbn [filter UserProgress.operation UserProgress.difficulty].
      rewrite !String.eqb_refl. reflexivity. }
    split.
    { intros operation' difficulty' Hother.
      rewrite filter_app. cbn [filter UserProgress.operation UserProgress.difficulty].
      rewrite (bucket_test_other _ _ _ _ Hother). apply app_nil_r. }
    split.
    { unfold Table.toArray, Table.add. cbn [Table.rows].
      rewrite map_app. reflexivity. }
    split; [reflexivity|]. split; [reflexivity|].
    apply uniqueKeys_add, Hkeys.
Qed.

(** X14.  A call of [saveResults] on a started session and a progress
    table with distinct keys rejects in the achievement check, and by then
    it has written: the session's problems solved, correct answers and time
    are added to the sums over the progress rows; there are exactly as many
    rows for the configuration's operation and difficulty as there were, or
    one if there was none; the rows of every other operation or difficulty
    are as they were; one session row is appended; the achievements and the
    settings are untouched; and the keys stay distinct. *)
Theorem saveResults_additive_merge
    (mode : PracticeMode) (config : ProblemConfig.t) (now : Z)
    (state : PracticeSessionState.t) (db : DB.t) :
  uniqueKeys (DB.userProgress db) ->
  PracticeSessionState.sessionStartTime state <> None ->
  exists saved,
    saveResults_promise mode config now state db = (Throw invalidKey, saved) /\
    let results := sessionResults state in
    let operation := ProblemConfig.operation config in
    let difficulty := ProblemConfig.difficulty config in
    progressTotals saved
    = (let '(solved, correct, time) := progressTotals db in
       (solved + SessionResults.problemsSolved results,
        correct + SessionResults.correctAnswers results,
        time + SessionResults.totalTime results)) /\
    List.length (bucketsOf saved operation difficulty)
    = Nat.max 1 (List.length (bucketsOf db operation difficulty)) /\
    (forall operation' difficulty',
        operation' <> operation \/ difficulty' <> difficulty ->
        bucketsOf saved operation' difficulty' = bucketsOf db operation' difficulty') /\
    Table.toArray (DB.practiceSessions saved)
    = Table.toArray (DB.practiceSessions db) ++ [sessionData mode config results] /\
    DB.achievements saved = DB.achievements db /\
    DB.userSettings saved = DB.userSettings db /\
    uniqueKeys (DB.userProgress saved).
Proof.
  intros Hkeys Hstart.
  destruct (saveResults_returns mode config now state db Hstart)
    as (written & Hsave & _).
  exists written.
  split; [exact (saveResults_promise_rejects _ _ _ _ _ _ _ Hsave)|].
  exact (saveResults_writes mode config now state db written
           (sessionResults state) Hkeys Hsave).
Qed.

(** X14 on the second save of a session of two additions: the one progress
    row then holds four problems, four correct answers and eight seconds. *)
Lemma saveResults_additive_merge_witness :
  let db := saveTwoAnswered 5000 DB.empty in
  uniqueKeys (DB.userProgress db) /\
  PracticeSessionState.sessionStartTime twoAnswered <> None /\
  progressTotals db = (2, 2, 4) /\
  exists saved,
    saveResults_promise accuracy (beginner "addition") 9000 twoAnswered db
    = (Throw invalidKey, saved) /\
    progressTotals saved = (4, 4, 8) /\
    List.length (bucketsOf saved "addition" "beginner") = 1%nat.
Proof.
  intros db.
  assert (Hkeys : uniqueKeys (DB.userProgress db)).
  { split.
    - change (NoDup [1]). constructor; [intros [] | constructor].
    - change (Forall (fun key => key < 2) [1]). repeat constructor. }
  assert (Hstart : PracticeSessionState.sessionStartTime twoAnswered <> None)
    by discriminate.
  split; [exact Hkeys|]. split; [exact Hstart|]. split; [reflexivity|].
  destruct (saveResults_additive_merge accuracy (beginner "addition") 9000
              twoAnswered db Hkeys Hstart)
    as (saved & Hpromise & Htotals & Hbuckets & _).
  exists saved. split; [exact Hpromise|]. split; [exact Htotals | exact Hbuckets].
Defined.

(** ** Requirements that read the completion date *)

Lemma undated_index db :
  undated db -> completedAtIndex (DB.practiceSessions db) = [].
Proof.
  unfold undated, Table.toArray, completedAtIndex.
  induction (Table.rows (DB.practiceSessions db)) as [|r rows IH]; intros Hall;
    [reflexivity|].
  inversion Hall as [|? ? Hr Hrows]; subst.
  cbn [flat_map]. rewrite Hr. apply IH, Hrows.
Qed.

Lemma undated_between db today tomorrow :
  undated db -> sessionsBetween db today tomorrow = [].
Proof.
  unfold undated, sessionsBetween.
  induction (Table.toArray (DB.practiceSessions db)) as [|s rest IH]; intros Hall;
    [reflexivity|].
  inversion Hall as [|? ? Hs Hrest]; subst.
  cbn [filter]. rewrite Hs. apply IH, Hrest.
Qed.

(** X15.  [saveResults] stores its session row without a completion date,
    so a database in which no session has one stays so under every save.
    On such a database the daily streak and the accuracy streak are never
    satisfied, whatever their targets, and the daily time only for a target
    that is not positive; in particular the catalog's requirements of these
    three types are never satisfied. *)
Theorem undated_sessions_never_count (db : DB.t) :
  undated db ->
  (forall mode config now state results saved,
      saveResults mode config now state db = Return (results, saved) ->
      undated saved) /\
  (forall now target, checkDailyStreak now db target = false) /\
  (forall accuracy problems, checkAccuracyStreak db accuracy problems = false) /\
  (forall now target, checkDailyTime now db target = (target <=? 0)) /\
  (forall now sessionData achievement,
      In achievement defaultAchievements ->
      In (AchievementCheck.type (Achievement.requirement achievement))
         ["daily_streak"; "accuracy_streak"; "daily_time"]%string ->
      checkRequirement now db (Achievement.requirement achievement) sessionData
      = Some false).
Proof.
  intros Hundated.
  assert (Hstreak : forall now target, checkDailyStreak now db target = false).
  { intros now target. unfold checkDailyStreak, orderBy_completedAt_reverse.
    rewrite (undated_index db Hundated). reflexivity. }
  assert (Haccuracy : forall accuracy problems,
             checkAccuracyStreak db accuracy problems = false).
  { intros accuracy problems. unfold checkAccuracyStreak, orderBy_completedAt_reverse.
    rewrite (undated_index db Hundated). reflexivity. }
  assert (Htime : forall now target, checkDailyTime now db target = (target <=? 0)).
  { intros now target. unfold checkDailyTime.
    rewrite (undated_between db _ _ Hundated). reflexivity. }
  split.
  { intros mode config now state results saved Hsave.
    unfold saveResults in Hsave.
    destruct (PracticeSessionState.sessionStartTime state); [|discriminate].
    remember (sessionResults state) as computed eqn:Ecomputed in Hsave.
    clear Ecomputed. cbv zeta in Hsave. injection Hsave as _ Hsaved. subst saved.
    unfold undated in *. cbn [DB.practiceSessions].
    unfold Table.toArray, Table.add in *. cbn [Table.rows].
    rewrite map_app. apply Forall_app. split; [exact Hundated|].
    repeat constructor. }
  split; [exact Hstreak|]. split; [exact Haccuracy|]. split; [exact Htime|].
  intros now sessionData achievement Hin Htype.
  unfold defaultAchievements in Hin. cbn [In] in Hin.
  repeat (destruct Hin as [<-|Hin];
          [cbn in Htype;
           first [ exfalso; intuition discriminate
                 | unfold checkRequirement, requirement;
                   cbn [AchievementCheck.type AchievementCheck.value
                        AchievementCheck.accuracy AchievementCheck.problems
                        Achievement.requirement String.eqb Ascii.eqb Bool.eqb
                        withParameter];
                   rewrite ?Hstreak, ?Haccuracy, ?Htime; reflexivity ]
          |]).
  destruct Hin.
Qed.

(** X15 on the database of seven sessions saved on seven consecutive days,
    checked for the seven-day streak on the evening of the seventh day. *)
Lemma undated_sessions_never_count_witness :
  undated (savedDaily 7) /\
  Table.count (DB.practiceSessions (savedDaily 7)) = 7 /\
  checkDailyStreak (6 * msPerDay + 72000000) (savedDaily 7) 7 = false /\
  checkDailyTime (6 * msPerDay + 72000000) (savedDaily 7) 3600 = false.
Proof.
  assert (Hundated : undated (savedDaily 7)).
  { unfold undated. vm_compute. repeat constructor. }
  split; [exact Hundated|]. split; [reflexivity|].
  destruct (undated_sessions_never_count (savedDaily 7) Hundated)
    as (_ & Hstreak & _ & Htime & _).
  split; [apply Hstreak | apply Htime].
Defined.

(** *** The streak over the sessions that the application saves *)

Lemma saveResults_keeps_undated mode config now state db results saved :
  undated db ->
  saveResults mode config now state db = Return (results, saved) ->
  undated saved.
Proof.
  intros Hundated Hsave. unfold saveResults in Hsave.
  destruct (PracticeSessionState.sessionStartTime state); [|discriminate].
  remember (sessionResults state) as computed eqn:Ecomputed in Hsave.
  clear Ecomputed. cbv zeta in Hsave. injection Hsave as _ Hsaved. subst saved.
  unfold undated in *. cbn [DB.practiceSessions].
  unfold Table.toArray, Table.add in *. cbn [Table.rows].
  rewrite map_app. apply Forall_app. split; [exact Hundated|].
  repeat constructor.
Qed.

Lemma savedDaily_undated (k : nat) : undated (savedDaily k).
Proof.
  unfold savedDaily.
  assert (Hempty : undated DB.empty) by constructor.
  revert Hempty. generalize DB.empty. generalize (seq 0 k) as days.
  induction days as [|day days IH]; intros db Hdb; [exact Hdb|].
  cbn [fold_left]. apply IH. unfold saveTwoAnswered.
  destruct (saveResults accuracy (beginner "addition") _ twoAnswered db)
    as [[results saved]|message] eqn:Hsave; [|exact Hdb].
  exact (saveResults_keeps_undated _ _ _ _ _ _ _ Hdb Hsave).
Qed.

(** C4, evaluated on the code.  The sessions that [saveResults] stores
    carry no [completedAt], and [checkDailyStreak] reads the sessions from
    the index on that property.  So after one session saved on each of any
    number of consecutive days the requirement is not satisfied, whenever
    it is checked and whatever its value: seven sessions saved on seven
    consecutive days are seven stored rows and no day with a session, and
    the value 7 is not reached on the seventh evening, while the same check
    on seven rows that carry their dates is satisfied. *)
Theorem saved_sessions_never_make_a_streak :
  (forall (k : nat) (now value : Z),
      checkDailyStreak now (savedDaily k) value = false) /\
  Table.count (DB.practiceSessions (savedDaily 7)) = 7 /\
  sessionDays (savedDaily 7) = [] /\
  checkDailyStreak (6 * msPerDay + 72000000) (savedDaily 7) 7 = false /\
  checkDailyStreak (6 * msPerDay + 72000000) (dailySessions 7) 7 = true.
Proof.
  split.
  - intros k now value. unfold checkDailyStreak, orderBy_completedAt_reverse.
    rewrite (undated_index _ (savedDaily_undated k)). reflexivity.
  - vm_compute. repeat split.
Qed.

(** ** Seeding the database *)

Lemma count_zero_rows {A} (tbl : Table.t A) :
  Table.count tbl = 0 -> Table.rows tbl = [].
Proof.
  unfold Table.count. destruct (Table.rows tbl); [reflexivity | simpl; lia].
Qed.

Lemma seeded_achievements_count (tbl : Table.t Achievement.t) :
  Table.count tbl = 0 -> Table.count (Table.bulkAdd defaultAchievements tbl) = 10.
Proof.
  intros Hzero. apply count_zero_rows in Hzero.
  destruct tbl as [rows next]. cbn [Table.rows] in Hzero. subst rows.
  reflexivity.
Qed.

Lemma seeded_achievements (tbl : Table.t Achievement.t) :
  Table.count tbl = 0 ->
  Table.toArray (Table.bulkAdd defaultAchievements tbl) = defaultAchievements.
Proof.
  intros Hzero. apply count_zero_rows in Hzero.
  destruct tbl as [rows next]. cbn [Table.rows] in Hzero. subst rows.
  reflexivity.
Qed.

(** X16.  [initializeDB] seeds exactly the tables that are empty: an empty
    achievement table receives the ten default achievements and one that
    holds any row is left as it is; an empty settings table receives the
    one row of the defaults, stamped with the time of the call, and one
    that holds any row is left as it is.  So running it again changes
    nothing, whenever it runs again; and it never touches the sessions or
    the progress rows. *)
Theorem initializeDB_idempotent (now later : Z) (db : DB.t) :
  (Table.count (DB.achievements db) = 0 ->
   DB.achievements (initializeDB now db)
   = Table.bulkAdd defaultAchievements (DB.achievements db) /\
   Table.toArray (DB.achievements (initializeDB now db)) = defaultAchievements) /\
  (Table.count (DB.achievements db) <> 0 ->
   DB.achievements (initializeDB now db) = DB.achievements db) /\
  (Table.count (DB.userSettings db) = 0 ->
   Table.toArray (DB.userSettings (initializeDB now db))
   = [UserSettings.mk false false false true true 1 false now None None None]) /\
  (Table.count (DB.userSettings db) <> 0 ->
   DB.userSettings (initializeDB now db) = DB.userSettings db) /\
  initializeDB later (initializeDB now db) = initializeDB now db /\
  DB.practiceSessions (initializeDB now db) = DB.practiceSessions db /\
  DB.userProgress (initializeDB now db) = DB.userProgress db.
Proof.
  split.
  { intros Hzero. unfold initializeDB. cbn [DB.achievements].
    rewrite Hzero. cbn [Z.eqb]. split; [reflexivity|].
    apply seeded_achievements, Hzero. }
  split.
  { intros Hnz. unfold initializeDB. cbn [DB.achievements].
    apply Z.eqb_neq in Hnz. rewrite Hnz. reflexivity. }
  split.
  { intros Hzero. unfold initializeDB. cbn [DB.userSettings].
    rewrite Hzero. cbn [Z.eqb].
    apply count_zero_rows in Hzero.
    unfold Table.toArray, Table.add. cbn [Table.rows]. rewrite Hzero. reflexivity. }
  split.
  { intros Hnz. unfold initializeDB. cbn [DB.userSettings].
    apply Z.eqb_neq in Hnz. rewrite Hnz. reflexivity. }
  split; [|split; reflexivity].
  unfold initializeDB at 1.
  assert (Hachievements :
            (Table.count (DB.achievements (initializeDB now db)) =? 0) = false).
  { unfold initializeDB. cbn [DB.achievements].
    destruct (Z.eqb_spec (Table.count (DB.achievements db)) 0) as [Hz|Hnz].
    - rewrite (seeded_achievements_count _ Hz). reflexivity.
    - apply Z.eqb_neq, Hnz. }
  assert (Hsettings :
            (Table.count (DB.userSettings (initializeDB now db)) =? 0) = false).
  { unfold initializeDB. cbn [DB.userSettings].
    destruct (Z.eqb_spec (Table.count (DB.userSettings db)) 0) as [Hz|Hnz].
    - unfold Table.count, Table.add. cbn [Table.rows].
      rewrite length_app. apply Z.eqb_neq. simpl. lia.
    - apply Z.eqb_neq, Hnz. }
  rewrite Hachievements, Hsettings.
  destruct (initializeDB now db). reflexivity.
Qed.

(** X16 on the empty database, which is seeded, and on the database after
    [clearAllData], whose settings row is kept. *)
Lemma initializeDB_idempotent_witness :
  Table.toArray (DB.achievements (initializeDB 0 DB.empty)) = defaultAchievements /\
  DB.userSettings (initializeDB 5 (clearAllData 0 DB.empty))
  = DB.userSettings (clearAllData 0 DB.empty).
Proof.
  split.
  - apply (proj1 (initializeDB_idempotent 0 0 DB.empty)). reflexivity.
  - destruct (initializeDB_idempotent 5 5 (clearAllData 0 DB.empty))
      as (_ & _ & _ & Hkept & _).
    apply Hkept. discriminate.
Defined.

(** X17.  [initializeDB] run after [clearAllData], as at the next start of
    the application, restores what [clearAllData] left out: the catalog is
    the ten default achievements, all locked; the settings stay the one
    default row that [clearAllData] wrote; sessions and progress stay
    empty. *)
Theorem initializeDB_after_clearAllData (now later : Z) (db : DB.t) :
  let restarted := initializeDB later (clearAllData now db) in
  Table.toArray (DB.achievements restarted) = defaultAchievements /\
  Forall (fun a => Achievement.unlockedAt a = None)
         (Table.toArray (DB.achievements restarted)) /\
  Table.toArray (DB.userSettings restarted) = [defaultSettings now] /\
  Table.toArray (DB.practiceSessions restarted) = [] /\
  Table.toArray (DB.userProgress restarted) = [].
Proof.
  cbv zeta.
  assert (Hcatalog : Table.toArray
                       (DB.achievements (initializeDB later (clearAllData now db)))
                     = defaultAchievements).
  { destruct db as [progress sessions [rows next] settings]. reflexivity. }
  split; [exact Hcatalog|]. split.
  { rewrite Hcatalog. repeat constructor. }
  repeat split.
Qed.

(** ** Requirements that count problems *)

Lemma fold_left_sum {A} (f : A -> Z) (l : list A) (start : Z) :
  fold_left (fun sum x => sum + f x) l start = start + sumZ (map f l).
Proof.
  revert start. induction l as [|h t IH]; intros start; simpl; [lia|].
  rewrite IH. lia.
Qed.

Lemma sumProblemsSolved_sum sessions :
  sumProblemsSolved sessions = sumZ (map PracticeSession.problemsSolved sessions).
Proof. unfold sumProblemsSolved. rewrite fold_left_sum. lia. Qed.

Lemma sum_not_negative sessions :
  countsNotNegative sessions ->
  0 <= sumZ (map PracticeSession.problemsSolved sessions).
Proof.
  induction 1 as [|s rest Hs _ IH]; simpl; lia.
Qed.

Lemma sum_of_filter_below (keep : PracticeSession.t -> bool) sessions :
  countsNotNegative sessions ->
  sumZ (map PracticeSession.problemsSolved (filter keep sessions))
  <= sumZ (map PracticeSession.problemsSolved sessions).
Proof.
  induction 1 as [|s rest Hs _ IH]; simpl; [lia|].
  destruct (keep s); simpl; lia.
Qed.

(** X18.  When no stored session has a negative number of problems: a
    [mode_problems] requirement that is satisfied for some mode implies the
    [problems_solved] requirement of the same value, and storing one more
    session with a number of problems that is not negative never turns a
    satisfied [problems_solved] or [mode_problems] requirement into an
    unsatisfied one. *)
Theorem problem_counts_monotone (db : DB.t) (mode : string) (value : Z) :
  countsNotNegative (Table.toArray (DB.practiceSessions db)) ->
  (checkModeProblems db mode value = true -> checkTotalProblems db value = true) /\
  (forall session,
      0 <= PracticeSession.problemsSolved session ->
      (checkTotalProblems db value = true ->
       checkTotalProblems (addSession session db) value = true) /\
      (checkModeProblems db mode value = true ->
       checkModeProblems (addSession session db) mode value = true)).
Proof.
  intros Hcounts.
  assert (Hadded : forall session,
             Table.toArray (DB.practiceSessions (addSession session db))
             = Table.toArray (DB.practiceSessions db) ++ [session]).
  { intros session. unfold addSession, Table.toArray, Table.add.
    cbn [DB.practiceSessions Table.rows]. rewrite map_app. reflexivity. }
  unfold checkModeProblems, checkTotalProblems, sessionsOfMode.
  rewrite !sumProblemsSolved_sum. split.
  - rewrite !Z.leb_le.
    pose proof (sum_of_filter_below
                  (fun s => (PracticeSession.mode s =? mode)%string) _ Hcounts).
    lia.
  - intros session Hsession. rewrite !sumProblemsSolved_sum, Hadded.
    rewrite filter_app, !map_app, !sumZ_app, !Z.leb_le. split.
    + simpl. lia.
    + cbn [filter]. destruct (PracticeSession.mode session =? mode)%string;
        simpl; lia.
Qed.

(** X18 on seven sessions of one problem each in accuracy mode, for the
    value 5. *)
Lemma problem_counts_monotone_witness :
  let db := dailySessions 7 in
  countsNotNegative (Table.toArray (DB.practiceSessions db)) /\
  checkModeProblems db "accuracy" 5 = true /\
  checkTotalProblems db 5 = true /\
  checkTotalProblems (addSession (sessionAt 0) db) 5 = true.
Proof.
  intros db.
  assert (Hcounts : countsNotNegative (Table.toArray (DB.practiceSessions db))).
  { unfold countsNotNegative. vm_compute. repeat constructor; discriminate. }
  destruct (problem_counts_monotone db "accuracy" 5 Hcounts) as (Hmode & Hmore).
  assert (Hsatisfied : checkModeProblems db "accuracy" 5 = true) by reflexivity.
  split; [exact Hcounts|]. split; [exact Hsatisfied|].
  split; [exact (Hmode Hsatisfied)|].
  apply (Hmore (sessionAt 0)); [simpl; lia | exact (Hmode Hsatisfied)].
Defined.

(** ** Mastery of the operations *)



Lemma masteredCount_bounds_from (db : DB.t) (ops : list string) (start : Z) :
  start
  <= fold_left (fun count operation =>
                  match firstProgressOf db operation with
                  | Some progress =>
                      if isOperationMastered progress then count + 1 else count
                  | None => count
                  end) ops start
  <= start + Z.of_nat (List.length ops).
Proof.
  revert start. induction ops as [|op ops IH]; intros start.
  - simpl. lia.
  - cbn [fold_left List.length].
    destruct (firstProgressOf db op) as [progress|];
      [destruct (isOperationMastered progress)|];
      match goal with |- _ <= fold_left _ _ ?s <= _ => specialize (IH s) end; lia.
Qed.

(** X20.  The number of mastered operations lies between 0 and 5, so the
    [all_operations_mastered] requirement is always satisfied for a value
    that is not positive and never for a value above 5. *)
Theorem checkOperationsMastery_bounds (db : DB.t) (value : Z) :
  0 <= masteredCount db <= 5 /\
  (value <= 0 -> checkOperationsMastery db value = true) /\
  (5 < value -> checkOperationsMastery db value = false).
Proof.
  pose proof (masteredCount_bounds_from db operations 0) as Hbounds.
  change (0 <= masteredCount db <= 0 + 5) in Hbounds.
  split; [lia|]. unfold checkOperationsMastery.
  split; intros H; [apply Z.leb_le | apply Z.leb_gt]; lia.
Qed.

(** X20 on the empty database, for the values 0 and 6. *)
Lemma checkOperationsMastery_bounds_witness :
  checkOperationsMastery DB.empty 0 = true /\
  checkOperationsMastery DB.empty 6 = false.
Proof.
  destruct (checkOperationsMastery_bounds DB.empty 0) as (_ & Hlow & _).
  destruct (checkOperationsMastery_bounds DB.empty 6) as (_ & _ & Hhigh).
  split; [apply Hlow | apply Hhigh]; lia.
Defined.


(** ** The accuracy streak *)

Lemma orderBy_completedAt_reverse_In tbl session :
  In session (orderBy_completedAt_reverse tbl) -> In session (Table.toArray tbl).
Proof.
  unfold orderBy_completedAt_reverse, Table.toArray, completedAtIndex.
  intros Hin. apply in_map_iff in Hin as (e & <- & He).
  apply (proj1 (sort_In _ _)) in He.
  apply in_flat_map in He as (r & Hr & He).
  destruct (PracticeSession.completedAt (snd r)); simpl in He; [|destruct He].
  destruct He as [<-|[]]. cbn [snd]. apply in_map, Hr.
Qed.

Lemma In_firstn {A} (n : nat) (l : list A) (x : A) :
  In x (firstn n l) -> In x l.
Proof.
  intros Hin. rewrite <- (firstn_skipn n l). apply in_or_app. left. exact Hin.
Qed.

Lemma accuracyStreakLoop_short sessions :
  countsNotNegative sessions ->
  forall totalProblems totalCorrect targetAccuracy targetProblems,
    totalProblems + sumProblemsSolved sessions < targetProblems ->
    accuracyStreakLoop sessions totalProblems totalCorrect
      targetAccuracy targetProblems = false.
Proof.
  induction 1 as [|s rest Hs Hrest IH];
    intros totalProblems totalCorrect targetAccuracy targetProblems Hshort.
  - reflexivity.
  - rewrite sumProblemsSolved_sum in Hshort. cbn [map sumZ fold_right] in Hshort.
    pose proof (sum_not_negative rest Hrest) as Hnonneg. unfold sumZ in Hnonneg.
    cbn [accuracyStreakLoop].
    destruct (Z.leb_spec targetProblems
                (totalProblems + PracticeSession.problemsSolved s)) as [Hle|Hlt];
      [lia|].
    apply IH. rewrite sumProblemsSolved_sum. unfold sumZ. lia.
Qed.

(** X21.  The accuracy streak looks at the ten most recently completed
    sessions only: when no stored session has a negative number of problems
    and those ten hold fewer problems than the requirement asks for, it is
    not satisfied, whatever the accuracy asked for and whatever the older
    sessions hold. *)
Theorem checkAccuracyStreak_window (db : DB.t) (targetAccuracy targetProblems : Z) :
  countsNotNegative (Table.toArray (DB.practiceSessions db)) ->
  sumProblemsSolved (firstn 10 (orderBy_completedAt_reverse (DB.practiceSessions db)))
  < targetProblems ->
  checkAccuracyStreak db targetAccuracy targetProblems = false.
Proof.
  intros Hcounts Hshort. unfold checkAccuracyStreak.
  apply accuracyStreakLoop_short; [|lia].
  unfold countsNotNegative in *. rewrite Forall_forall in *.
  intros session Hin. apply Hcounts.
  apply orderBy_completedAt_reverse_In. eapply In_firstn. exact Hin.
Qed.

(** X21 on sixty daily sessions of one problem each, all correct: the ten
    most recent hold ten problems, fewer than the fifty of the catalog's
    requirement. *)
Lemma checkAccuracyStreak_window_witness :
  countsNotNegative (Table.toArray (DB.practiceSessions (dailySessions 60))) /\
  sumProblemsSolved (Table.toArray (DB.practiceSessions (dailySessions 60))) = 60 /\
  checkAccuracyStreak (dailySessions 60) 95 50 = false.
Proof.
  assert (Hcounts :
            countsNotNegative (Table.toArray (DB.practiceSessions (dailySessions 60)))).
  { unfold countsNotNegative. vm_compute. repeat constructor; discriminate. }
  split; [exact Hcounts|]. split; [reflexivity|].
  apply (checkAccuracyStreak_window (dailySessions 60) 95 50 Hcounts).
  vm_compute. reflexivity.
Defined.

(** ** The average time *)







(** Six stored sessions that each average two seconds a problem: the sum of
    six times [2 / 6] is rounded to a value below 2, and the requirement of
    an average under two seconds is satisfied. *)
Example checkAverageTime_six_sessions :
  let session :=
    PracticeSession.mk "accuracy" "addition" "beginner" 1 1 2 100 (Some 2%Q) None in
  let db := fold_left (fun db _ => addSession session db) (seq 0 6) DB.empty in
  averageOfAverages (Table.toArray (DB.practiceSessions db))
  = Fin (9007199254740991 # 4503599627370496) /\
  checkAverageTime db 2 "less" = true.
Proof. vm_compute. split; reflexivity. Qed.

(** ** Progress towards an achievement *)

Lemma progressPercentage_positive_target (current v : Z) :
  0 <= current -> 0 < v ->
  exists q, progressPercentage current (Some v) = Fin q /\
            (0 <= q <= 100)%Q /\
            ((q == 100)%Q <-> (v <=? current) = true).
Proof.
  intros Hcurrent Hv. unfold progressPercentage, Exact.div, Exact.mul, ofZ.
  rewrite (Qeq_bool_inject_Z_0 v) by lia.
  set (x := Qred (Qred (inject_Z current / inject_Z v) * inject_Z 100)).
  assert (Hx : (x == inject_Z current / inject_Z v * 100)%Q).
  { unfold x. rewrite !Qred_correct. reflexivity. }
  assert (Hx0 : (0 <= x)%Q).
  { rewrite Hx. destruct v as [|p|p]; try lia.
    unfold Qle, Qdiv, Qmult, Qinv, inject_Z. simpl. lia. }
  assert (Hle : (x <= 100)%Q <-> current <= v).
  { rewrite Hx. destruct v as [|p|p]; try lia.
    unfold Qle, Qdiv, Qmult, Qinv, inject_Z. simpl. lia. }
  assert (Heq : (x == 100)%Q <-> current = v).
  { rewrite Hx. destruct v as [|p|p]; try lia.
    unfold Qeq, Qdiv, Qmult, Qinv, inject_Z. simpl. lia. }
  unfold Math_min, Num.leb.
  destruct (Qle_bool x (inject_Z 100)) eqn:E.
  - exists x. apply Qle_bool_iff in E. apply Hle in E.
    split; [reflexivity|]. split; [split; [exact Hx0 | apply Hle; exact E]|].
    rewrite Heq, Z.leb_le. lia.
  - exists (inject_Z 100). split; [reflexivity|].
    split; [split; discriminate|].
    assert (Hgt : v < current).
    { destruct (Z.lt_ge_cases v current) as [H|H]; [exact H|].
      apply Hle in H. apply Qle_bool_iff in H.
      change (inject_Z 100) with 100%Q in E. congruence. }
    rewrite Z.leb_le. split; [lia | reflexivity].
Qed.

Lemma countsNotNegative_filter (keep : PracticeSession.t -> bool) sessions :
  countsNotNegative sessions -> countsNotNegative (filter keep sessions).
Proof.
  induction 1 as [|s rest Hs _ IH]; simpl; [constructor|].
  destruct (keep s); [constructor|]; assumption.
Qed.

(** X23.  For a requirement of type [problems_solved], [mode_problems]
    (with its mode) or [all_operations_mastered] whose value is positive,
    and stored sessions without negative problem counts,
    [getAchievementProgress] reports the value as target, a current count
    that is not negative and a percentage between 0 and 100; the
    percentage is 100 exactly when [checkRequirement] finds the
    requirement satisfied. *)
Theorem getAchievementProgress_full_iff_satisfied
    (now : Z) (db : DB.t) (achievement : Achievement.t) (v : Z)
    (sessionData : option PracticeSession.t) :
  let requirement := Achievement.requirement achievement in
  In (AchievementCheck.type requirement)
     ["problems_solved"; "mode_problems"; "all_operations_mastered"]%string ->
  (AchievementCheck.type requirement = "mode_problems"%string ->
   AchievementCheck.mode requirement <> None) ->
  AchievementCheck.value requirement = Some v ->
  0 < v ->
  countsNotNegative (Table.toArray (DB.practiceSessions db)) ->
  exists p q,
    getAchievementProgress db achievement = Some p /\
    AchievementProgress.target p = Some v /\
    0 <= AchievementProgress.current p /\
    AchievementProgress.percentage p = Fin q /\
    (0 <= q <= 100)%Q /\
    ((q == 100)%Q <-> checkRequirement now db requirement sessionData = Some true).
Proof.
  cbv zeta. intros Htype Hmode Hvalue Hv Hcounts.
  unfold getAchievementProgress, checkRequirement. rewrite Hvalue.
  destruct Htype as [E | [E | [E | []]]]; rewrite <- E in *;
    cbn [String.eqb Ascii.eqb Bool.eqb withParameter].
  - pose proof (sum_not_negative _ Hcounts) as Hsum.
    rewrite <- sumProblemsSolved_sum in Hsum.
    destruct (progressPercentage_positive_target _ v Hsum Hv) as (q & Hq & Hb & Hfull).
    eexists. exists q. split; [reflexivity|].
    cbn [AchievementProgress.target AchievementProgress.current
         AchievementProgress.percentage].
    repeat split; try assumption; try apply Hb.
    + intros H. unfold checkTotalProblems. f_equal. apply Hfull. exact H.
    + intros H. apply Hfull. unfold checkTotalProblems in H. congruence.
  - destruct (AchievementCheck.mode (Achievement.requirement achievement))
      as [mode|]; [|exfalso; apply Hmode; reflexivity].
    pose proof (sum_not_negative _
                  (countsNotNegative_filter
                     (fun session => (PracticeSession.mode session =? mode)%string)
                     _ Hcounts)) as Hsum.
    rewrite <- sumProblemsSolved_sum in Hsum.
    fold (sessionsOfMode db mode) in Hsum.
    destruct (progressPercentage_positive_target _ v Hsum Hv) as (q & Hq & Hb & Hfull).
    eexists. exists q. split; [reflexivity|].
    cbn [AchievementProgress.target AchievementProgress.current
         AchievementProgress.percentage].
    repeat split; try assumption; try apply Hb.
    + intros H. unfold checkModeProblems. f_equal. apply Hfull. exact H.
    + intros H. apply Hfull. unfold checkModeProblems in H. congruence.
  - pose proof (masteredCount_bounds_from db operations 0) as Hbounds.
    change (0 <= masteredCount db <= 0 + 5) in Hbounds.
    assert (Hsum : 0 <= masteredCount db) by lia.
    destruct (progressPercentage_positive_target _ v Hsum Hv) as (q & Hq & Hb & Hfull).
    eexists. exists q. split; [reflexivity|].
    cbn [AchievementProgress.target AchievementProgress.current
         AchievementProgress.percentage].
    repeat split; try assumption; try apply Hb.
    + intros H. unfold checkOperationsMastery. f_equal. apply Hfull. exact H.
    + intros H. apply Hfull. unfold checkOperationsMastery in H. congruence.
Qed.

(** X23 on the catalog's "Century Club" and three stored sessions of one
    problem each. *)
Lemma getAchievementProgress_full_iff_satisfied_witness :
  exists p q,
    getAchievementProgress (dailySessions 3) centuryClub = Some p /\
    AchievementProgress.target p = Some 100 /\
    0 <= AchievementProgress.current p /\
    AchievementProgress.percentage p = Fin q /\
    (0 <= q <= 100)%Q /\
    ((q == 100)%Q
     <-> checkRequirement 0 (dailySessions 3)
           (Achievement.requirement centuryClub) None = Some true).
Proof.
  apply (getAchievementProgress_full_iff_satisfied 0 (dailySessions 3)
           centuryClub 100 None).
  - left. reflexivity.
  - discriminate.
  - reflexivity.
  - lia.
  - unfold countsNotNegative. vm_compute.
    repeat (apply Forall_cons; [discriminate|]). apply Forall_nil.
Defined.

(** ** Statistics of an operation *)

Lemma answers_within_solved_sums (keep : PracticeSession.t -> bool) sessions :
  answersWithinSolved sessions ->
  0 <= sumZ (map PracticeSession.correctAnswers (filter keep sessions))
    <= sumZ (map PracticeSession.problemsSolved (filter keep sessions)).
Proof.
  induction 1 as [|s rest Hs _ IH]; simpl; [lia|].
  destruct (keep s); simpl; lia.
Qed.

Lemma percent_of_part (correct solved : Z) :
  0 <= correct <= solved -> 0 < solved ->
  (0 <= inject_Z correct / inject_Z solved * 100 <= 100)%Q.
Proof.
  intros Hc Hs. destruct solved as [|p|p]; try lia.
  unfold Qle, Qdiv, Qmult, Qinv, inject_Z. simpl. lia.
Qed.

Lemma operationStats_of_operation (sessions : list PracticeSession.t) (operation : string) :
  answersWithinSolved sessions ->
  let stats := operationStats sessions operation in
  (0 <= OperationStats.accuracy stats <= 100)%Q /\
  (0 <= OperationStats.mastery stats <= OperationStats.accuracy stats)%Q /\
  (100 <= OperationStats.problems stats ->
   (OperationStats.mastery stats == OperationStats.accuracy stats)%Q) /\
  (OperationStats.problems stats = 0 ->
   OperationStats.accuracy stats = 0%Q /\
   OperationStats.averageTime stats = 0%Q /\
   (OperationStats.mastery stats == 0)%Q).
Proof.
  intros Hwithin. cbv zeta. unfold operationStats.
  cbn [OperationStats.accuracy OperationStats.mastery OperationStats.problems
       OperationStats.averageTime].
  rewrite !fold_left_sum, !Z.add_0_l.
  pose proof (answers_within_solved_sums
                (fun s => (PracticeSession.operation s =? operation)%string)
                sessions Hwithin) as Hsums.
  set (operationSessions :=
         filter (fun s => (PracticeSession.operation s =? operation)%string) sessions)
    in *.
  set (problems := sumZ (map PracticeSession.problemsSolved operationSessions)) in *.
  set (correct := sumZ (map PracticeSession.correctAnswers operationSessions)) in *.
  set (accuracy := if 0 <? problems
                   then (inject_Z correct / inject_Z problems * 100)%Q else 0%Q).
  assert (Haccuracy : (0 <= accuracy <= 100)%Q).
  { unfold accuracy. destruct (Z.ltb_spec 0 problems) as [Hpos|Hzero].
    - apply percent_of_part; lia.
    - split; discriminate. }
  set (share := (inject_Z (Z.min problems 100) / 100)%Q).
  assert (Hshare : (0 <= share <= 1)%Q).
  { unfold share, Qle, Qdiv, Qmult, Qinv, inject_Z. simpl. lia. }
  assert (Hscaled : (0 <= accuracy * share <= accuracy)%Q).
  { split.
    - apply Qmult_le_0_compat; [apply Haccuracy | apply Hshare].
    - rewrite <- (Qmult_1_r accuracy) at 2.
      apply Qmult_le_compat_nonneg; split;
        first [apply Haccuracy | apply Hshare | apply Qle_refl]. }
  assert (Hmin : Q_min (accuracy * share) 100 = (accuracy * share)%Q).
  { unfold Q_min.
    replace (Qle_bool (accuracy * share) 100) with true; [reflexivity|].
    symmetry. apply Qle_bool_iff.
    apply Qle_trans with accuracy; [apply Hscaled | apply Haccuracy]. }
  rewrite Hmin. split; [exact Haccuracy|]. split; [exact Hscaled|]. split.
  - intros Hmany. unfold share. rewrite Z.min_r by exact Hmany.
    change (inject_Z 100 / 100)%Q with (100 / 100)%Q. field.
  - intros Hnone. unfold accuracy. rewrite Hnone.
    cbn [Z.ltb Z.compare]. repeat split; first [reflexivity | ring].
Qed.

(** X24.  [calculateOperationStats] has one entry for each of the five
    operations, in their order.  When every session has between 0 and
    [problemsSolved] correct answers, in every entry the accuracy lies
    between 0 and 100 and the mastery between 0 and the accuracy; the
    mastery is the accuracy once the operation has 100 problems; and
    without problems accuracy, average time and mastery are all 0. *)
Theorem calculateOperationStats_bounds (sessions : list PracticeSession.t)
    (progressRecords : list UserProgress.t) :
  answersWithinSolved sessions ->
  map fst (calculateOperationStats sessions progressRecords) = operations /\
  forall operation stats,
    In (operation, stats) (calculateOperationStats sessions progressRecords) ->
    (0 <= OperationStats.accuracy stats <= 100)%Q /\
    (0 <= OperationStats.mastery stats <= OperationStats.accuracy stats)%Q /\
    (100 <= OperationStats.problems stats ->
     (OperationStats.mastery stats == OperationStats.accuracy stats)%Q) /\
    (OperationStats.problems stats = 0 ->
     OperationStats.accuracy stats = 0%Q /\
     OperationStats.averageTime stats = 0%Q /\
     (OperationStats.mastery stats == 0)%Q).
Proof.
  intros Hwithin. split; [reflexivity|].
  intros operation stats Hin. unfold calculateOperationStats in Hin.
  apply in_map_iff in Hin. destruct Hin as (op & Hpair & _).
  injection Hpair as _ <-.
  exact (operationStats_of_operation sessions op Hwithin).
Qed.

(** X24 on the sessions of [dailySessions 3], for the entry of addition. *)
Lemma calculateOperationStats_bounds_witness :
  let sessions := Table.toArray (DB.practiceSessions (dailySessions 3)) in
  let stats := operationStats sessions "addition" in
  (0 <= OperationStats.accuracy stats <= 100)%Q /\
  (0 <= OperationStats.mastery stats <= OperationStats.accuracy stats)%Q.
Proof.
  assert (Hwithin : answersWithinSolved
                      (Table.toArray (DB.practiceSessions (dailySessions 3)))).
  { unfold answersWithinSolved. vm_compute.
    repeat (apply Forall_cons; [split; discriminate|]). apply Forall_nil. }
  destruct (calculateOperationStats_bounds _ [] Hwithin) as (_ & Hentries).
  destruct (Hentries "addition"%string
              (operationStats
                 (Table.toArray (DB.practiceSessions (dailySessions 3))) "addition"))
    as (Haccuracy & Hmastery & _).
  - left. reflexivity.
  - split; [exact Haccuracy | exact Hmastery].
Defined.
